(** * CLIProxy usage collector: delta engine, pricing, rate limits, credential stats

    A shallow embedding of [collector/main.py], [collector/rate_limiter.py]
    and [collector/credential_stats_sync.py].

    Conventions of the embedding.
    - Python [int] is [Z].
    - Python [float] (costs, ratios, percentages) is idealised as an exact
      rational [Q]; rounding error of IEEE doubles is not modelled.
    - Python [str] is [string] (bytes); [lower] acts on ASCII letters.
    - A Python [dict] is an insertion-ordered association list with unique
      keys ([Dict.t]): iteration order is insertion order, as in Python.
    - A [datetime] is an instant, in microseconds since the Unix epoch; all
      datetimes are offset-aware (the collector builds them with
      [APP_TIMEZONE], the datastore returns timestamps with an offset).
    - The datastore is an explicit [Store] value threaded through each
      operation; the wall clock is an explicit argument [now]. *)

From Stdlib Require Import ZArith QArith Qabs Qround String Ascii List Bool Lia Lqa.
Import ListNotations.

Open Scope string_scope.
Open Scope Z_scope.

(** ** Python string operations *)

Module Py.

Definition lower_ascii (c : ascii) : ascii :=
  let n := nat_of_ascii c in
  if (Nat.leb 65 n && Nat.leb n 90)%bool then ascii_of_nat (n + 32) else c.

(** [s.lower()] *)
Fixpoint lower (s : string) : string :=
  match s with
  | EmptyString => EmptyString
  | String c r => String (lower_ascii c) (lower r)
  end.

(** [s.startswith(p)] *)
Definition startswith (s p : string) : bool := String.prefix p s.

(** [needle in hay] *)
Fixpoint contains (needle hay : string) : bool :=
  String.prefix needle hay ||
  match hay with
  | EmptyString => false
  | String _ r => contains needle r
  end.

Fixpoint drop (n : nat) (s : string) : string :=
  match n, s with
  | O, _ => s
  | S k, EmptyString => EmptyString
  | S k, String _ r => drop k r
  end.

(** [s[:n]] *)
Fixpoint take (n : nat) (s : string) : string :=
  match n, s with
  | O, _ => EmptyString
  | S k, EmptyString => EmptyString
  | S k, String c r => String c (take k r)
  end.

(** [s.endswith(p)] *)
Definition endswith (s p : string) : bool :=
  Nat.leb (String.length p) (String.length s) &&
  String.eqb (drop (String.length s - String.length p) s) p.

(** [s.replace(old, new)] for a non-empty [old]: non-overlapping
    occurrences, left to right.  [fuel] bounds the scan by the length of
    the input. *)
Fixpoint replace_aux (fuel : nat) (old new s : string) : string :=
  match fuel with
  | O => s
  | S k =>
      match s with
      | EmptyString => EmptyString
      | String c r =>
          if String.prefix old s
          then new ++ replace_aux k old new (drop (String.length old) s)
          else String c (replace_aux k old new r)
      end
  end.

Definition replace (old new s : string) : string :=
  replace_aux (S (String.length s)) old new s.

(** [s.split(sep)] for a one-character separator. *)
Fixpoint split (sep : ascii) (s : string) : list string :=
  match s with
  | EmptyString => [EmptyString]
  | String c r =>
      if Ascii.eqb c sep then EmptyString :: split sep r
      else match split sep r with
           | [] => [String c EmptyString]
           | h :: t => String c h :: t
           end
  end.

(** [s.split(sep, 1)]: at most one cut, at the first separator. *)
Fixpoint split1 (sep : ascii) (s : string) : list string :=
  match s with
  | EmptyString => [EmptyString]
  | String c r =>
      if Ascii.eqb c sep then [EmptyString; r]
      else match split1 sep r with
           | [] => [String c EmptyString]
           | h :: t => String c h :: t
           end
  end.

(** [x or y] on strings: the empty string is falsy. *)
Definition str_or (x y : string) : string :=
  if String.eqb x "" then y else x.

Definition truthy (x : string) : bool := negb (String.eqb x "").

(** [int(x)] on a float: truncation toward zero. *)
Definition int_of (q : Q) : Z := Z.quot (Qnum q) (Zpos (Qden q)).

(** [round(x)] on a float: nearest integer, ties to the even one. *)
Definition round (q : Q) : Z :=
  let f := Qfloor q in
  match ((q - inject_Z f) ?= (1 # 2))%Q with
  | Lt => f
  | Gt => f + 1
  | Eq => if Z.even f then f else f + 1
  end.

(** [round(x, 1)]: one decimal place. *)
Definition round1 (q : Q) : Q := (inject_Z (round (q * 10)) / 10)%Q.

Definition Qltb (a b : Q) : bool := negb (Qle_bool b a).

(** [max(a, b)] and [min(a, b)] on floats. *)
Definition Qmax (a b : Q) : Q := if Qltb a b then b else a.
Definition Qmin (a b : Q) : Q := if Qltb b a then b else a.

(** Digits of a natural number, most significant first. *)
Fixpoint digits_aux (fuel : nat) (n : Z) (acc : list ascii) : list ascii :=
  match fuel with
  | O => acc
  | S k =>
      let d := ascii_of_nat (48 + Z.to_nat (n mod 10)) in
      if n <? 10 then d :: acc else digits_aux k (n / 10) (d :: acc)
  end.

Definition digits (n : Z) : list ascii :=
  digits_aux (S (Z.to_nat (Z.log2 n))) n [].

(** Thousands separators, counted from the right. *)
Fixpoint group3 (ds : list ascii) : string :=
  match ds with
  | [] => EmptyString
  | d :: r =>
      let n := List.length r in
      String d (if (Nat.ltb 0 n && Nat.eqb (Nat.modulo n 3) 0)%bool
                then String "," (group3 r) else group3 r)
  end.

(** [f"{n:,}"] *)
Definition fmt_commas (n : Z) : string :=
  if n <? 0 then "-" ++ group3 (digits (- n)) else group3 (digits n).

End Py.

(** ** Insertion-ordered dictionaries *)

Module Dict.
Section WithValue.
Context {V : Type}.

Definition t := list (string * V).

Definition empty : t := [].

(** [d.get(k)] *)
Fixpoint get (k : string) (d : t) : option V :=
  match d with
  | [] => None
  | (k', v) :: r => if String.eqb k k' then Some v else get k r
  end.

(** [k in d] *)
Definition mem (k : string) (d : t) : bool :=
  match get k d with Some _ => true | None => false end.

(** [d[k] = v]: an existing key keeps its position, a new key goes last. *)
Fixpoint set (k : string) (v : V) (d : t) : t :=
  match d with
  | [] => [(k, v)]
  | (k', v') :: r =>
      if String.eqb k k' then (k', v) :: r else (k', v') :: set k v r
  end.

Definition keys (d : t) : list string := map fst d.
Definition values (d : t) : list V := map snd d.

(** [d.get(k, dflt)] *)
Definition get_default (k : string) (dflt : V) (d : t) : V :=
  match get k d with Some v => v | None => dflt end.

(** [{**a, **b}] *)
Definition merge (a b : t) : t :=
  fold_left (fun acc kv => set (fst kv) (snd kv) acc) b a.

(** [dict(items)] from a sequence of pairs: later pairs win. *)
Definition of_list (l : list (string * V)) : t := merge empty l.
End WithValue.
Arguments t : clear implicits.
End Dict.

Definition Zsum (l : list Z) : Z := fold_left Z.add l 0.
Definition Qsum (l : list Q) : Q := fold_left Qplus l 0%Q.

(** ** Pricing ([main.py], lines 50-204) *)

Module Pricing.

(** One entry of a price table, USD per million tokens.  Entries of the
    remote table also carry a vendor. *)
Record Price := mkPrice { input : Q; output : Q; vendor : option string }.

Definition P (i o : Q) : Price := mkPrice i o None.

Definition table := Dict.t Price.

Definition DEFAULT_PRICING : table :=
  [ ("gpt-4o", P 2.50 10.00);
    ("gpt-4o-mini", P 0.15 0.60);
    ("gpt-4-turbo", P 10.00 30.00);
    ("gpt-4", P 30.00 60.00);
    ("gpt-3.5-turbo", P 0.50 1.50);
    ("o1", P 15.00 60.00);
    ("o1-mini", P 3.00 12.00);
    ("o1-preview", P 15.00 60.00);
    ("o3", P 15.00 60.00);
    ("o3-mini", P 1.10 4.40);
    ("claude-sonnet-4", P 3.00 15.00);
    ("claude-4-sonnet", P 3.00 15.00);
    ("claude-opus-4", P 15.00 75.00);
    ("claude-4-opus", P 15.00 75.00);
    ("claude-3-5-sonnet", P 3.00 15.00);
    ("claude-3.5-sonnet", P 3.00 15.00);
    ("claude-3-5-haiku", P 0.80 4.00);
    ("claude-3.5-haiku", P 0.80 4.00);
    ("claude-3-sonnet", P 3.00 15.00);
    ("claude-3-opus", P 15.00 75.00);
    ("claude-3-haiku", P 0.25 1.25);
    ("claude-sonnet", P 3.00 15.00);
    ("claude-opus", P 15.00 75.00);
    ("claude-haiku", P 0.80 4.00);
    ("gemini-2.5-pro", P 1.25 10.00);
    ("gemini-2.5-flash", P 0.075 0.30);
    ("gemini-2.5-flash-preview", P 0.075 0.30);
    ("gemini-2.0-flash", P 0.10 0.40);
    ("gemini-2.0-flash-lite", P 0.075 0.30);
    ("gemini-2.0-flash-exp", P 0.10 0.40);
    ("gemini-1.5-pro", P 1.25 5.00);
    ("gemini-1.5-flash", P 0.075 0.30);
    ("_default", P 0.15 0.60) ]%Q.

(** [get_model_pricing], with the result of [fetch_remote_pricing] (the
    remote overlay, keyed by lowercased id; empty when the fetch failed)
    as an argument. *)
Definition get_model_pricing (remote_pricing : table) : table :=
  match remote_pricing with
  | [] => DEFAULT_PRICING
  | _ => Dict.merge DEFAULT_PRICING remote_pricing
  end.

(** The [for pattern, prices in pricing.items()] loop of
    [find_pricing_for_model]: the first key, in table order, that is not
    [_default] and contains the name or is contained in it. *)
Fixpoint first_substring_match (model_lower : string) (items : table)
  : option Price :=
  match items with
  | [] => None
  | (pattern, prices) :: rest =>
      if negb (String.eqb pattern "_default") &&
         (Py.contains pattern model_lower || Py.contains model_lower pattern)
      then Some prices
      else first_substring_match model_lower rest
  end.

Definition find_pricing_for_model (model_name : string) (pricing : table)
  : Price * bool :=
  let model_lower := Py.lower model_name in
  match Dict.get model_lower pricing with
  | Some prices => (prices, true)
  | None =>
      match first_substring_match model_lower pricing with
      | Some prices => (prices, true)
      | None => (Dict.get_default "_default" (P 0.15 0.60) pricing, false)
      end
  end.

Definition calculate_cost (input_tokens output_tokens : Z) (pricing : Price)
  : Q :=
  ((inject_Z input_tokens / 1000000) * input pricing +
   (inject_Z output_tokens / 1000000) * output pricing)%Q.

End Pricing.

(** ** The usage document served by the proxy *)

Module Usage.
(** [details[*].tokens] *)
Record Tokens := mkTokens {
  input_tokens : Z; output_tokens : Z; reasoning_tokens : Z;
  cached_tokens : Z; total_tokens : Z }.

(** One entry of [details]: one request handled since proxy start. *)
Record Detail := mkDetail {
  auth_index : string; source : string; failed : bool; tokens : Tokens }.

Record ModelData := mkModelData {
  m_total_requests : Z; m_total_tokens : Z; details : list Detail }.

Record ApiData := mkApiData { models : Dict.t ModelData }.

(** The [usage] object: cumulative counters and the per-API tree. *)
Record t := mk {
  total_requests : Z; success_count : Z; failure_count : Z;
  u_total_tokens : Z; apis : Dict.t ApiData }.

(** The response body: the [usage] object, which may be missing, and the
    names of the other top-level keys. *)
Record Doc := mkDoc { usage : option t; other_keys : list string }.

(** Truthiness of the response dict: it has at least one key. *)
Definition nonempty (data : Doc) : bool :=
  match usage data, other_keys data with
  | None, [] => false
  | _, _ => true
  end.
End Usage.

(** ** Persisted tables *)

Module Snapshot.
Record t := mk {
  id : Z; collected_at : Z; raw_data : Usage.Doc;
  total_requests : Z; success_count : Z; failure_count : Z;
  total_tokens : Z; cumulative_cost_usd : Q }.
End Snapshot.

Module ModelUsage.
(** A row of [model_usage]; an absent [api_endpoint] is the empty string. *)
Record t := mk {
  snapshot_id : Z; created_at : Z; model_name : string;
  estimated_cost_usd : Q; request_count : Z; input_tokens : Z;
  output_tokens : Z; total_tokens : Z; api_endpoint : string }.
End ModelUsage.

Module BModel.
(** [breakdown.models[name]] *)
Record t := mk {
  requests : Z; tokens : Z; cost : Q; input_tokens : Z; output_tokens : Z }.
Definition zero : t := mk 0 0 0%Q 0 0.
End BModel.

Module BEpModel.
(** [breakdown.endpoints[ep].models[name]] *)
Record t := mk { requests : Z; tokens : Z; cost : Q }.
Definition zero : t := mk 0 0 0%Q.
End BEpModel.

Module BEndpoint.
(** [breakdown.endpoints[ep]] *)
Record t := mk {
  requests : Z; tokens : Z; cost : Q; models : Dict.t BEpModel.t }.
Definition zero : t := mk 0 0 0%Q Dict.empty.
End BEndpoint.

Module Breakdown.
Record t := mk {
  models : Dict.t BModel.t; endpoints : Dict.t BEndpoint.t }.
Definition empty : t := mk Dict.empty Dict.empty.
End Breakdown.

Module DailyStat.
(** A row of [daily_stats]; [stat_date] is the day number of the local
    calendar date. *)
Record t := mk {
  stat_date : Z; total_requests : Z; success_count : Z; failure_count : Z;
  total_tokens : Z; estimated_cost_usd : Q; breakdown : Breakdown.t }.
End DailyStat.

Module CredModel.
(** Per-model sub-counters of a credential. *)
Record t := mk {
  requests : Z; success : Z; failure : Z;
  input_tokens : Z; output_tokens : Z; reasoning_tokens : Z;
  cached_tokens : Z; total_tokens : Z }.
Definition zero : t := mk 0 0 0 0 0 0 0 0.
End CredModel.

Module AuthFile.
(** An element of the [files] array of [/v0/management/auth-files]; a
    missing string field is empty, a missing [status] is [None]. *)
Record t := mk {
  auth_index : string; provider : string; email : string; name : string;
  label : string; status : option string; account_type : string }.
End AuthFile.

Module CredInfo.
(** What [build_auth_index_map] keeps of an auth file, and what
    [resolve_credential] returns. *)
Record t := mk {
  provider : string; email : string; name : string; label : string;
  status : string; account_type : string; auth_index : string }.
End CredInfo.

Module CredStat.
(** One element of the emitted [credentials] sequence. *)
Record t := mk {
  auth_index : string; source : string; provider : string; email : string;
  label : string; status : string; account_type : string;
  total_requests : Z; success_count : Z; failure_count : Z;
  success_rate : Q;
  input_tokens : Z; output_tokens : Z; reasoning_tokens : Z;
  cached_tokens : Z; total_tokens : Z;
  models : Dict.t CredModel.t; api_keys : list string }.
End CredStat.

Module KeyModel.
(** Per-model sub-counters of an API key. *)
Record t := mk { requests : Z; tokens : Z; success : Z; failure : Z }.
Definition zero : t := mk 0 0 0 0.
End KeyModel.

Module ApiKeyStat.
(** One element of the emitted [api_keys] sequence. *)
Record t := mk {
  api_key_name : string; total_requests : Z; total_tokens : Z;
  success_count : Z; failure_count : Z; success_rate : Q;
  input_tokens : Z; output_tokens : Z;
  models : Dict.t KeyModel.t; credentials_used : list string }.
End ApiKeyStat.

Module Summary.
(** The single row (id = 1) of [credential_usage_summary]. *)
Record t := mk {
  credentials : list CredStat.t; api_keys : list ApiKeyStat.t;
  total_credentials : Z; total_api_keys : Z; synced_at : Z }.
End Summary.

Module Config.
(** A row of [rate_limit_configs].  A missing [id] or [window_minutes] is
    0, a missing string is empty: all are falsy in the source. *)
Record t := mk {
  id : Z; model_pattern : string; window_minutes : Z;
  reset_strategy : string; token_limit : option Z;
  request_limit : option Z; reset_anchor_timestamp : option string }.
End Config.

Module Status.
(** A row of [rate_limit_status]. *)
Record t := mk {
  config_id : Z; last_updated : Z; window_start : Z;
  used_tokens : Z; used_requests : Z; status_label : string;
  percentage : Z; remaining_tokens : Z; remaining_requests : Z;
  next_reset : Z }.
End Status.

Module Store.
(** The datastore.  [usage_snapshots] is kept newest first, which is the
    order of [order('collected_at', desc=True)]. *)
Record t := mk {
  usage_snapshots : list Snapshot.t;
  model_usage : list ModelUsage.t;
  daily_stats : list DailyStat.t;
  credential_usage_summary : option Summary.t;
  rate_limit_configs : list Config.t;
  rate_limit_status : list Status.t }.

Definition empty : t := mk [] [] [] None [] [].
End Store.

(** ** The delta engine ([main.py], [store_usage_data]) *)

Module Collector.

Definition usec_per_hour : Z := 3600 * 1000000.
Definition usec_per_day : Z := 24 * usec_per_hour.

(** [datetime.now(APP_TIMEZONE).date()], as a day number. *)
Definition local_day (tz_hours now : Z) : Z :=
  (now + tz_hours * usec_per_hour) / usec_per_day.

(** The five global increments of a tick. *)
Record Incs := mkIncs {
  inc_requests : Z; inc_success : Z; inc_failure : Z;
  inc_tokens : Z; inc_cost : Q }.

(** One element of [model_records] (lines 245-259). *)
Definition model_record (pricing : Pricing.table) (snapshot_id now : Z)
    (api_endpoint model_name : string) (model_data : Usage.ModelData)
  : ModelUsage.t :=
  let input_tok :=
    Zsum (map (fun d => Usage.input_tokens (Usage.tokens d))
              (Usage.details model_data)) in
  let output_tok :=
    Zsum (map (fun d => Usage.output_tokens (Usage.tokens d))
              (Usage.details model_data)) in
  let model_price := fst (Pricing.find_pricing_for_model model_name pricing) in
  let cost := Pricing.calculate_cost input_tok output_tok model_price in
  ModelUsage.mk snapshot_id now model_name cost
    (Usage.m_total_requests model_data) input_tok output_tok
    (Usage.m_total_tokens model_data) api_endpoint.

(** The double loop over [apis] and [models] (lines 243-259). *)
Definition model_records (pricing : Pricing.table) (snapshot_id now : Z)
    (usage : Usage.t) : list ModelUsage.t :=
  flat_map
    (fun api : string * Usage.ApiData =>
       map (fun m : string * Usage.ModelData =>
              model_record pricing snapshot_id now (fst api) (fst m) (snd m))
           (Usage.models (snd api)))
    (Usage.apis usage).

(** Global incremental deltas (lines 285-314). *)
Definition global_increments (usage : Usage.t) (total_cost cumulative_cost : Q)
    (prev_snap : option Snapshot.t) : Incs :=
  let current_requests := Usage.total_requests usage in
  let current_success := Usage.success_count usage in
  let current_failure := Usage.failure_count usage in
  let current_tokens := Usage.u_total_tokens usage in
  match prev_snap with
  | Some prev =>
      let inc_requests := current_requests - Snapshot.total_requests prev in
      let inc_success := current_success - Snapshot.success_count prev in
      let inc_failure := current_failure - Snapshot.failure_count prev in
      let inc_tokens := current_tokens - Snapshot.total_tokens prev in
      let inc_cost := (cumulative_cost - Snapshot.cumulative_cost_usd prev)%Q in
      if (inc_requests <? 0) || (inc_tokens <? 0)
      then mkIncs current_requests current_success current_failure
                  current_tokens total_cost
      else mkIncs inc_requests inc_success inc_failure inc_tokens inc_cost
  | None =>
      mkIncs current_requests current_success current_failure
             current_tokens total_cost
  end.

(** [f"{r.get('model_name')}|{ep}"] with [ep = r.get('api_endpoint') or 'unknown']. *)
Definition usage_key (r : ModelUsage.t) : string :=
  ModelUsage.model_name r ++ "|" ++ Py.str_or (ModelUsage.api_endpoint r) "unknown".

Definition usage_map (rows : list ModelUsage.t) : Dict.t ModelUsage.t :=
  Dict.of_list (map (fun r => (usage_key r, r)) rows).

(** [set(prev_usage_map.keys()) | set(curr_usage_map.keys())].  Python
    leaves the iteration order of a set unspecified; the model visits the
    previous keys first, then the new ones. *)
Definition all_keys (prev_usage_map curr_usage_map : Dict.t ModelUsage.t)
  : list string :=
  Dict.keys prev_usage_map ++
  filter (fun k => negb (Dict.mem k prev_usage_map)) (Dict.keys curr_usage_map).

(** The per-key delta after granular restart detection (lines 346-374). *)
Record KeyDelta := mkKeyDelta {
  d_req : Z; d_tok : Z; d_cost : Q; d_in : Z; d_out : Z; c_cost : Q }.

Definition field {A} (f : ModelUsage.t -> A) (dflt : A)
    (r : option ModelUsage.t) : A :=
  match r with Some x => f x | None => dflt end.

Definition key_delta (prev curr : option ModelUsage.t) : KeyDelta :=
  let p_req := field ModelUsage.request_count 0 prev in
  let p_tok := field ModelUsage.total_tokens 0 prev in
  let p_cost := field ModelUsage.estimated_cost_usd 0%Q prev in
  let p_in := field ModelUsage.input_tokens 0 prev in
  let p_out := field ModelUsage.output_tokens 0 prev in
  let c_req := field ModelUsage.request_count 0 curr in
  let c_tok := field ModelUsage.total_tokens 0 curr in
  let c_cost := field ModelUsage.estimated_cost_usd 0%Q curr in
  let c_in := field ModelUsage.input_tokens 0 curr in
  let c_out := field ModelUsage.output_tokens 0 curr in
  let d_req := c_req - p_req in
  let d_tok := c_tok - p_tok in
  if (d_req <? 0) || (d_tok <? 0)
  then mkKeyDelta c_req c_tok c_cost c_in c_out c_cost
  else mkKeyDelta d_req d_tok (c_cost - p_cost)%Q (c_in - p_in) (c_out - p_out)
                  c_cost.

(** The false-start test (lines 378-380). *)
Definition is_false_start (kd : KeyDelta) : bool :=
  Py.Qltb 10 (d_cost kd) && Py.Qltb (Qabs (d_cost kd - c_cost kd)) 0.1.

(** Adding one delta into [breakdown_deltas] (lines 402-424, 438-458). *)
Definition add_to_models (model_name : string) (req tok : Z) (cost : Q)
    (in_tok out_tok : Z) (ms : Dict.t BModel.t) : Dict.t BModel.t :=
  let e := Dict.get_default model_name BModel.zero ms in
  Dict.set model_name
    (BModel.mk (BModel.requests e + req) (BModel.tokens e + tok)
               (BModel.cost e + cost)%Q
               (BModel.input_tokens e + in_tok)
               (BModel.output_tokens e + out_tok)) ms.

Definition add_to_endpoints (endpoint model_name : string) (req tok : Z)
    (cost : Q) (es : Dict.t BEndpoint.t) : Dict.t BEndpoint.t :=
  let e := Dict.get_default endpoint BEndpoint.zero es in
  let m := Dict.get_default model_name BEpModel.zero (BEndpoint.models e) in
  Dict.set endpoint
    (BEndpoint.mk (BEndpoint.requests e + req) (BEndpoint.tokens e + tok)
       (BEndpoint.cost e + cost)%Q
       (Dict.set model_name
          (BEpModel.mk (BEpModel.requests m + req) (BEpModel.tokens m + tok)
                       (BEpModel.cost m + cost)%Q)
          (BEndpoint.models e))) es.

Definition add_delta (model_name endpoint : string) (req tok : Z) (cost : Q)
    (in_tok out_tok : Z) (b : Breakdown.t) : Breakdown.t :=
  Breakdown.mk
    (add_to_models model_name req tok cost in_tok out_tok (Breakdown.models b))
    (add_to_endpoints endpoint model_name req tok cost (Breakdown.endpoints b)).

(** One iteration of [for key in all_keys] (lines 345-424). *)
Definition delta_step (prev_usage_map curr_usage_map : Dict.t ModelUsage.t)
    (acc : Incs * Breakdown.t) (key : string) : Incs * Breakdown.t :=
  let (incs, breakdown_deltas) := acc in
  let kd := key_delta (Dict.get key prev_usage_map) (Dict.get key curr_usage_map) in
  if is_false_start kd then
    (mkIncs (inc_requests incs - d_req kd) (inc_success incs)
            (inc_failure incs) (inc_tokens incs - d_tok kd)
            (inc_cost incs - d_cost kd)%Q,
     breakdown_deltas)
  else if (0 <? d_req kd) || Py.Qltb 0 (d_cost kd) then
    let parts := Py.split "|" key in
    let model_name := nth 0 parts "" in
    let endpoint := nth 1 parts "" in
    (incs, add_delta model_name endpoint (d_req kd) (d_tok kd) (d_cost kd)
                     (d_in kd) (d_out kd) breakdown_deltas)
  else acc.

(** The [if prev_snap:] branch of the breakdown computation. *)
Definition granular_deltas (prev_rows model_records : list ModelUsage.t)
    (incs : Incs) : Incs * Breakdown.t :=
  let prev_usage_map := usage_map prev_rows in
  let curr_usage_map := usage_map model_records in
  fold_left (delta_step prev_usage_map curr_usage_map)
            (all_keys prev_usage_map curr_usage_map)
            (incs, Breakdown.empty).

(** The [else] branch: first snapshot, current values taken as deltas. *)
Definition first_step (b : Breakdown.t) (r : ModelUsage.t) : Breakdown.t :=
  add_delta (ModelUsage.model_name r)
            (Py.str_or (ModelUsage.api_endpoint r) "unknown")
            (ModelUsage.request_count r) (ModelUsage.total_tokens r)
            (ModelUsage.estimated_cost_usd r)
            (ModelUsage.input_tokens r) (ModelUsage.output_tokens r) b.

Definition sum_cost (ms : Dict.t BModel.t) : Q :=
  Qsum (map BModel.cost (Dict.values ms)).
Definition sum_tokens (ms : Dict.t BModel.t) : Z :=
  Zsum (map BModel.tokens (Dict.values ms)).
Definition sum_requests (ms : Dict.t BModel.t) : Z :=
  Zsum (map BModel.requests (Dict.values ms)).

(** Consistency check and global override (lines 461-484). *)
Definition consistency_override (has_prev : bool) (incs : Incs)
    (breakdown_deltas : Breakdown.t) : Incs :=
  let safe_inc_cost := sum_cost (Breakdown.models breakdown_deltas) in
  let safe_inc_tokens := sum_tokens (Breakdown.models breakdown_deltas) in
  let safe_inc_requests := sum_requests (Breakdown.models breakdown_deltas) in
  if has_prev then
    let scaled :=
      if 0 <? inc_requests incs then
        let ratio := (inject_Z safe_inc_requests / inject_Z (inc_requests incs))%Q in
        let ratio := Py.Qmax 0 (Py.Qmin 1 ratio) in
        if Py.Qltb ratio 0.99
        then (Py.int_of (inject_Z (inc_success incs) * ratio),
              Py.int_of (inject_Z (inc_failure incs) * ratio))
        else (inc_success incs, inc_failure incs)
      else (inc_success incs, inc_failure incs) in
    mkIncs safe_inc_requests (fst scaled) (snd scaled)
           safe_inc_tokens safe_inc_cost
  else incs.

(** Merging the deltas into the day's breakdown (lines 486-519). *)
Definition merge_models (deltas existing : Dict.t BModel.t) : Dict.t BModel.t :=
  fold_left
    (fun ex (kv : string * BModel.t) =>
       let data := snd kv in
       add_to_models (fst kv) (BModel.requests data) (BModel.tokens data)
         (BModel.cost data) (BModel.input_tokens data)
         (BModel.output_tokens data) ex)
    deltas existing.

Definition merge_nested (deltas existing : Dict.t BEpModel.t)
  : Dict.t BEpModel.t :=
  fold_left
    (fun ex (kv : string * BEpModel.t) =>
       let mData := snd kv in
       let e := Dict.get_default (fst kv) BEpModel.zero ex in
       Dict.set (fst kv)
         (BEpModel.mk (BEpModel.requests e + BEpModel.requests mData)
                      (BEpModel.tokens e + BEpModel.tokens mData)
                      (BEpModel.cost e + BEpModel.cost mData)%Q) ex)
    deltas existing.

Definition merge_endpoints (deltas existing : Dict.t BEndpoint.t)
  : Dict.t BEndpoint.t :=
  fold_left
    (fun ex (kv : string * BEndpoint.t) =>
       let data := snd kv in
       let e := Dict.get_default (fst kv) BEndpoint.zero ex in
       Dict.set (fst kv)
         (BEndpoint.mk (BEndpoint.requests e + BEndpoint.requests data)
                       (BEndpoint.tokens e + BEndpoint.tokens data)
                       (BEndpoint.cost e + BEndpoint.cost data)%Q
                       (merge_nested (BEndpoint.models data) (BEndpoint.models e)))
         ex)
    deltas existing.

Definition merge_breakdown (deltas existing : Breakdown.t) : Breakdown.t :=
  Breakdown.mk
    (merge_models (Breakdown.models deltas) (Breakdown.models existing))
    (merge_endpoints (Breakdown.endpoints deltas) (Breakdown.endpoints existing)).

(** Self-healing totals and the row to upsert (lines 522-548). *)
Definition daily_data (today : Z) (existing_daily : DailyStat.t) (incs : Incs)
    (existing_breakdown : Breakdown.t) : DailyStat.t :=
  let total_cost_from_breakdown := sum_cost (Breakdown.models existing_breakdown) in
  let total_tokens_from_breakdown := sum_tokens (Breakdown.models existing_breakdown) in
  let total_requests_from_breakdown := sum_requests (Breakdown.models existing_breakdown) in
  let final_cost :=
    if Py.Qltb 0 total_cost_from_breakdown then total_cost_from_breakdown
    else (DailyStat.estimated_cost_usd existing_daily + inc_cost incs)%Q in
  let final_tokens :=
    if 0 <? total_tokens_from_breakdown then total_tokens_from_breakdown
    else DailyStat.total_tokens existing_daily + inc_tokens incs in
  let final_requests :=
    if 0 <? total_requests_from_breakdown then total_requests_from_breakdown
    else DailyStat.total_requests existing_daily + inc_requests incs in
  DailyStat.mk today final_requests
    (DailyStat.success_count existing_daily + inc_success incs)
    (DailyStat.failure_count existing_daily + inc_failure incs)
    final_tokens final_cost existing_breakdown.

(** [select('*').eq('stat_date', today_iso)], first row. *)
Definition find_daily (today : Z) (rows : list DailyStat.t) : option DailyStat.t :=
  find (fun r => DailyStat.stat_date r =? today) rows.

(** [upsert(daily_data, on_conflict='stat_date')] *)
Fixpoint upsert_daily (d : DailyStat.t) (rows : list DailyStat.t)
  : list DailyStat.t :=
  match rows with
  | [] => [d]
  | r :: rest =>
      if DailyStat.stat_date r =? DailyStat.stat_date d then d :: rest
      else r :: upsert_daily d rest
  end.

Definition zero_daily (today : Z) : DailyStat.t :=
  DailyStat.mk today 0 0 0 0 0%Q Breakdown.empty.

(** Everything a tick computes before it writes the day's row. *)
Record Tick := mkTick {
  t_snapshot : Snapshot.t;
  t_records : list ModelUsage.t;
  t_has_prev : bool;
  t_existing : DailyStat.t;
  t_global : Incs;            (* after lines 285-314 *)
  t_filtered : Incs;          (* after the per-key loop *)
  t_deltas : Breakdown.t;     (* breakdown_deltas *)
  t_final : Incs;             (* after the consistency override *)
  t_daily : DailyStat.t }.

Section Tick.
(** [TIMEZONE_OFFSET_HOURS] and the result of [fetch_remote_pricing]. *)
Variable tz_hours : Z.
Variable remote_pricing : Pricing.table.

Definition tick (now : Z) (data : Usage.Doc) (usage : Usage.t)
    (st : Store.t) : Tick :=
  let pricing := Pricing.get_model_pricing remote_pricing in
  let last_cost_total :=
    match Store.usage_snapshots st with
    | s :: _ => Snapshot.cumulative_cost_usd s
    | [] => 0%Q
    end in
  let snapshot_id := Z.of_nat (List.length (Store.usage_snapshots st)) + 1 in
  let records := model_records pricing snapshot_id now usage in
  let total_cost := Qsum (map ModelUsage.estimated_cost_usd records) in
  let cumulative_cost := (last_cost_total + total_cost)%Q in
  let snapshot :=
    Snapshot.mk snapshot_id now data (Usage.total_requests usage)
      (Usage.success_count usage) (Usage.failure_count usage)
      (Usage.u_total_tokens usage) cumulative_cost in
  let prev_snap := hd_error (Store.usage_snapshots st) in
  let incs0 := global_increments usage total_cost cumulative_cost prev_snap in
  let today := local_day tz_hours now in
  let existing_daily :=
    match find_daily today (Store.daily_stats st) with
    | Some d => d
    | None => zero_daily today
    end in
  let granular :=
    match prev_snap with
    | Some prev =>
        granular_deltas
          (filter (fun r => ModelUsage.snapshot_id r =? Snapshot.id prev)
                  (Store.model_usage st))
          records incs0
    | None => (incs0, fold_left first_step records Breakdown.empty)
    end in
  let has_prev := match prev_snap with Some _ => true | None => false end in
  let incs2 := consistency_override has_prev (fst granular) (snd granular) in
  let existing_breakdown :=
    merge_breakdown (snd granular) (DailyStat.breakdown existing_daily) in
  mkTick snapshot records has_prev existing_daily incs0 (fst granular)
         (snd granular) incs2
         (daily_data today existing_daily incs2 existing_breakdown).

(** [store_usage_data]: the snapshot (newest first), its per-model rows
    and the day's row are written; a document without [usage] writes
    nothing. *)
Definition store_usage_data (now : Z) (data : Usage.Doc) (st : Store.t)
  : bool * Store.t :=
  match Usage.usage data with
  | None => (false, st)
  | Some usage =>
      let t := tick now data usage st in
      (true,
       Store.mk (t_snapshot t :: Store.usage_snapshots st)
                (Store.model_usage st ++ t_records t)
                (upsert_daily (t_daily t) (Store.daily_stats st))
                (Store.credential_usage_summary st)
                (Store.rate_limit_configs st)
                (Store.rate_limit_status st))
  end.

(** [run_full_sync_once], with the result of [fetch_usage_data] as an
    argument: [None] on a transport error or a non-200 answer. *)
Definition run_full_sync_once (now : Z) (fetched : option Usage.Doc)
    (st : Store.t) : Store.t :=
  match fetched with
  | Some data =>
      if Usage.nonempty data then snd (store_usage_data now data st) else st
  | None => st
  end.
End Tick.

End Collector.

(** ** The rate-limit engine ([rate_limiter.py]) *)

Module RateLimiter.

(** Per-model counters of one snapshot time, and the result of a usage
    computation. *)
Record Counters := mkCounters { total_tokens : Z; request_count : Z }.

Definition zero : Counters := mkCounters 0 0.

Definition usec_per_second : Z := 1000000.
Definition usec_per_minute : Z := 60 * usec_per_second.

(** [timedelta.total_seconds()] *)
Definition total_seconds (usec : Z) : Q := (inject_Z usec / 1000000)%Q.

(** [order('created_at', desc=True).limit(1)] and its ascending twin, on
    the selected timestamps. *)
Definition newest (ts : list Z) : option Z :=
  match ts with [] => None | t :: r => Some (fold_left Z.max r t) end.
Definition oldest (ts : list Z) : option Z :=
  match ts with [] => None | t :: r => Some (fold_left Z.min r t) end.

Section Engine.
(** [TIMEZONE_OFFSET_HOURS]. *)
Variable tz_hours : Z.
(** [ilike pattern name]: the datastore's [model_name ILIKE %pattern%]. *)
Variable ilike : string -> string -> bool.
(** [datetime.fromisoformat(s.replace('Z', '+00:00'))]; [None] stands
    for [ValueError]. *)
Variable fromisoformat : string -> option Z.

Definition matching (model_pattern : string) (rows : list ModelUsage.t)
  : list ModelUsage.t :=
  filter (fun r => ilike model_pattern (ModelUsage.model_name r)) rows.

(** [_build_snapshot_map] *)
Definition _build_snapshot_map (rows : list ModelUsage.t)
    (model_pattern : string) (snapshot_time : Z) : Dict.t Counters :=
  fold_left
    (fun snapshot_map rec =>
       let m_name := ModelUsage.model_name rec in
       let e := Dict.get_default m_name zero snapshot_map in
       Dict.set m_name
         (mkCounters (total_tokens e + ModelUsage.total_tokens rec)
                     (request_count e + ModelUsage.request_count rec))
         snapshot_map)
    (filter (fun r => ModelUsage.created_at r =? snapshot_time)
            (matching model_pattern rows))
    Dict.empty.

(** [_interpolate_snapshot_map]; the union of the key sets is visited
    baseline keys first. *)
Definition _interpolate_snapshot_map (baseline_map first_inner_map : Dict.t Counters)
    (ratio : Q) : Dict.t Counters :=
  fold_left
    (fun interpolated model_name =>
       let baseline_rec := Dict.get_default model_name zero baseline_map in
       let inner_rec := Dict.get_default model_name baseline_rec first_inner_map in
       let start_tokens := total_tokens baseline_rec in
       let end_tokens := total_tokens inner_rec in
       let start_requests := request_count baseline_rec in
       let end_requests := request_count inner_rec in
       let interp_tokens :=
         (inject_Z start_tokens + ratio * inject_Z (end_tokens - start_tokens))%Q in
       let interp_requests :=
         (inject_Z start_requests + ratio * inject_Z (end_requests - start_requests))%Q in
       Dict.set model_name
         (mkCounters (Py.round interp_tokens) (Py.round interp_requests))
         interpolated)
    (Dict.keys baseline_map ++
     filter (fun k => negb (Dict.mem k baseline_map)) (Dict.keys first_inner_map))
    Dict.empty.

(** The summation loop of [_calculate_delta_from_snapshots]. *)
Definition delta_of_maps (current_map baseline_map : Dict.t Counters) : Counters :=
  fold_left
    (fun acc (kv : string * Counters) =>
       let current_rec := snd kv in
       let baseline_rec := Dict.get_default (fst kv) zero baseline_map in
       mkCounters
         (total_tokens acc +
          Z.max 0 (total_tokens current_rec - total_tokens baseline_rec))
         (request_count acc +
          Z.max 0 (request_count current_rec - request_count baseline_rec)))
    current_map zero.

Definition _calculate_delta_from_snapshots (rows : list ModelUsage.t)
    (latest_time baseline_time : Z) (model_pattern : string)
    (baseline_override : option (Dict.t Counters)) : Counters :=
  let current_map := _build_snapshot_map rows model_pattern latest_time in
  let baseline_map :=
    match baseline_override with
    | Some m => m
    | None => _build_snapshot_map rows model_pattern baseline_time
    end in
  delta_of_maps current_map baseline_map.

Definition GAP_THRESHOLD : Q := 1800.

(** The interpolation ratio (lines 215-217). *)
Definition gap_ratio (since baseline_dt first_inner_dt : Z) : Q :=
  let gap_seconds := total_seconds (first_inner_dt - baseline_dt) in
  let ratio_seconds := total_seconds (since - baseline_dt) in
  let window_span := if Py.Qltb 0 gap_seconds then gap_seconds else 1%Q in
  Py.Qmax 0 (Py.Qmin 1 (ratio_seconds / window_span)).

(** [_calculate_usage] *)
Definition _calculate_usage (rows : list ModelUsage.t)
    (model_pattern : string) (since : Z) : Counters :=
  let times := map ModelUsage.created_at (matching model_pattern rows) in
  match newest times with
  | None => zero
  | Some latest_time =>
      if latest_time <? since then zero
      else
        let first_inner_snapshot_time :=
          oldest (filter (fun t => since <=? t) times) in
        let baseline_snapshot_time :=
          newest (filter (fun t => t <? since) times) in
        match baseline_snapshot_time with
        | None =>
            match first_inner_snapshot_time with
            | None => zero
            | Some first_inner =>
                _calculate_delta_from_snapshots rows latest_time first_inner
                  model_pattern None
            end
        | Some baseline_time =>
            match first_inner_snapshot_time with
            | Some first_inner =>
                let gap_seconds := total_seconds (first_inner - baseline_time) in
                if Py.Qltb GAP_THRESHOLD gap_seconds then
                  let ratio := gap_ratio since baseline_time first_inner in
                  let baseline_map :=
                    _build_snapshot_map rows model_pattern baseline_time in
                  let first_inner_map :=
                    _build_snapshot_map rows model_pattern first_inner in
                  let interpolated_map :=
                    _interpolate_snapshot_map baseline_map first_inner_map ratio in
                  _calculate_delta_from_snapshots rows latest_time baseline_time
                    model_pattern (Some interpolated_map)
                else
                  _calculate_delta_from_snapshots rows latest_time baseline_time
                    model_pattern None
            | None =>
                _calculate_delta_from_snapshots rows latest_time baseline_time
                  model_pattern None
            end
        end
  end.

(** [now.replace(hour=0, minute=0, second=0, microsecond=0)] in the
    fixed-offset zone. *)
Definition start_of_day (now : Z) : Z :=
  let offset := tz_hours * Collector.usec_per_hour in
  ((now + offset) / Collector.usec_per_day) * Collector.usec_per_day - offset.

(** [d.weekday()], Monday = 0; day 0 of the epoch was a Thursday. *)
Definition weekday (t : Z) : Z :=
  let offset := tz_hours * Collector.usec_per_hour in
  ((t + offset) / Collector.usec_per_day + 3) mod 7.

(** The natural window [(calculated_window_start, next_reset)] of a
    strategy (lines 74-89); [None] for an unsupported strategy. *)
Definition natural_window (now : Z) (reset_strategy : string)
    (window_minutes : Z) : option (Z * Z) :=
  if String.eqb reset_strategy "daily" then
    let calculated_window_start := start_of_day now in
    Some (calculated_window_start, calculated_window_start + Collector.usec_per_day)
  else if String.eqb reset_strategy "weekly" then
    let start_of_today := start_of_day now in
    let days_since_monday := weekday start_of_today in
    let calculated_window_start :=
      start_of_today - days_since_monday * Collector.usec_per_day in
    Some (calculated_window_start, calculated_window_start + 7 * Collector.usec_per_day)
  else if String.eqb reset_strategy "rolling" then
    Some (now - window_minutes * usec_per_minute, now + usec_per_minute)
  else None.

(** The manual-reset adjustment (lines 91-108). *)
Definition adjust_window_start (calculated_window_start : Z)
    (reset_anchor_str : option string) : Z :=
  match reset_anchor_str with
  | Some s =>
      if Py.truthy s then
        match fromisoformat s with
        | Some reset_anchor_dt =>
            if calculated_window_start <? reset_anchor_dt
            then reset_anchor_dt
            else calculated_window_start
        | None => calculated_window_start
        end
      else calculated_window_start
  | None => calculated_window_start
  end.

(** [all([config_id, model_pattern, window_minutes, reset_strategy])] *)
Definition complete (config : Config.t) : bool :=
  negb (Config.id config =? 0) && Py.truthy (Config.model_pattern config) &&
  negb (Config.window_minutes config =? 0) &&
  Py.truthy (Config.reset_strategy config).

(** The window a config is evaluated on: [(window_start, next_reset)];
    [None] when [_process_config] returns early. *)
Definition window_of (now : Z) (config : Config.t) : option (Z * Z) :=
  if complete config then
    match natural_window now (Config.reset_strategy config)
            (Config.window_minutes config) with
    | Some (calculated_window_start, next_reset) =>
        Some (adjust_window_start calculated_window_start
                (Config.reset_anchor_timestamp config), next_reset)
    | None => None
    end
  else None.

Definition clamp_percentage (p : Z) : Z := Z.max 0 (Z.min 100 p).

(** The payload built by [_update_status]; [stamp] is the clock reading
    stored as [last_updated]. *)
Definition status_row (stamp config_id used_tokens used_requests window_start
    next_reset : Z) (token_limit request_limit : option Z) : Status.t :=
  let has (l : option Z) :=
    match l with Some v => 0 <? v | None => false end in
  let lim (l : option Z) := match l with Some v => v | None => 0 end in
  if has token_limit then
    let token_limit := lim token_limit in
    let rem_tokens := Z.max 0 (token_limit - used_tokens) in
    let percentage :=
      Py.int_of ((inject_Z rem_tokens / inject_Z token_limit) * 100) in
    Status.mk config_id stamp window_start used_tokens used_requests
      (Py.fmt_commas used_tokens ++ "/" ++ Py.fmt_commas token_limit ++ " Tokens")
      (clamp_percentage percentage) rem_tokens 0 next_reset
  else if has request_limit then
    let request_limit := lim request_limit in
    let rem_requests := Z.max 0 (request_limit - used_requests) in
    let percentage :=
      Py.int_of ((inject_Z rem_requests / inject_Z request_limit) * 100) in
    Status.mk config_id stamp window_start used_tokens used_requests
      (Py.fmt_commas used_requests ++ "/" ++ Py.fmt_commas request_limit ++ " Requests")
      (clamp_percentage percentage) 0 rem_requests next_reset
  else
    Status.mk config_id stamp window_start used_tokens used_requests
      ("Used: " ++ Py.fmt_commas used_tokens ++ "T / " ++
       Py.fmt_commas used_requests ++ "R")
      (clamp_percentage 100) 0 0 next_reset.

(** [upsert(data, on_conflict='config_id')] *)
Fixpoint upsert_status (s : Status.t) (rows : list Status.t) : list Status.t :=
  match rows with
  | [] => [s]
  | r :: rest =>
      if Status.config_id r =? Status.config_id s then s :: rest
      else r :: upsert_status s rest
  end.

(** [_process_config]: the status row it upserts, if any.  One clock
    reading [now] serves the window and [last_updated]. *)
Definition _process_config (now : Z) (rows : list ModelUsage.t)
    (config : Config.t) : option Status.t :=
  match window_of now config with
  | Some (window_start, next_reset) =>
      let usage := _calculate_usage rows (Config.model_pattern config) window_start in
      Some (status_row now (Config.id config) (total_tokens usage)
              (request_count usage) window_start next_reset
              (Config.token_limit config) (Config.request_limit config))
  | None => None
  end.

(** [sync_limits]: every config in turn. *)
Definition sync_limits (now : Z) (st : Store.t) : Store.t :=
  Store.mk (Store.usage_snapshots st) (Store.model_usage st)
    (Store.daily_stats st) (Store.credential_usage_summary st)
    (Store.rate_limit_configs st)
    (fold_left
       (fun status config =>
          match _process_config now (Store.model_usage st) config with
          | Some s => upsert_status s status
          | None => status
          end)
       (Store.rate_limit_configs st) (Store.rate_limit_status st)).
End Engine.

End RateLimiter.

(** ** Credential and API-key aggregation ([credential_stats_sync.py]) *)

Module CredentialStatsSync.

(** A Python [set] of strings: a duplicate-free list. *)
Definition set_add (x : string) (s : list string) : list string :=
  if existsb (String.eqb x) s then s else s ++ [x].

Fixpoint insert_sorted (x : string) (l : list string) : list string :=
  match l with
  | [] => [x]
  | y :: r => if String.leb x y then x :: l else y :: insert_sorted x r
  end.

(** [sorted(s)] *)
Definition sorted (s : list string) : list string :=
  fold_right insert_sorted [] s.

(** [l.sort(key=..., reverse=True)]: descending and stable. *)
Section SortDesc.
Context {A : Type} (key : A -> Z).

Fixpoint insert_desc (x : A) (l : list A) : list A :=
  match l with
  | [] => [x]
  | y :: r => if key y <=? key x then x :: l else y :: insert_desc x r
  end.

Definition sort_desc (l : list A) : list A := fold_right insert_desc [] l.
End SortDesc.

(** [build_auth_index_map] *)
Definition info_of (f : AuthFile.t) : CredInfo.t :=
  CredInfo.mk (AuthFile.provider f) (AuthFile.email f) (AuthFile.name f)
    (AuthFile.label f)
    (match AuthFile.status f with Some s => s | None => "unknown" end)
    (AuthFile.account_type f) (AuthFile.auth_index f).

Definition build_auth_index_map (auth_files : list AuthFile.t)
  : Dict.t CredInfo.t * Dict.t CredInfo.t :=
  fold_left
    (fun (acc : Dict.t CredInfo.t * Dict.t CredInfo.t) f =>
       let info := info_of f in
       let by_auth_index :=
         if Py.truthy (AuthFile.auth_index f)
         then Dict.set (AuthFile.auth_index f) info (fst acc) else fst acc in
       let by_name :=
         if Py.truthy (AuthFile.name f)
         then Dict.set (AuthFile.name f) info (snd acc) else snd acc in
       (by_auth_index, by_name))
    auth_files (Dict.empty, Dict.empty).

(** The fallback of [resolve_credential]: provider and email inferred
    from the source string (lines 104-123). *)
Definition infer (auth_index source : string) : string * string :=
  let provider := "unknown" in
  let email := Py.str_or source (Py.str_or auth_index "unknown") in
  if Py.truthy source then
    let s := Py.lower source in
    if Py.startswith s "aizasy" || Py.contains "googleapis" s then
      ("gemini-api-key", Py.take 20 source ++ "...")
    else if Py.endswith s ".json" then
      match Py.split1 "-" (Py.replace ".json" "" s) with
      | [p0; p1] => (p0, Py.replace "_" "." p1)
      | _ => (provider, email)
      end
    else if Py.contains "@" source then ("oauth", source)
    else if Py.contains "=" source || Nat.ltb 40 (String.length source) then
      ("api-key", Py.take 20 source ++ "...")
    else (provider, email)
  else (provider, email).

Definition resolve_credential (auth_index source : string)
    (by_auth_index by_name : Dict.t CredInfo.t) : CredInfo.t :=
  match (if Py.truthy auth_index then Dict.get auth_index by_auth_index else None) with
  | Some info => info
  | None =>
      match (if Py.truthy source then Dict.get source by_name else None) with
      | Some info => info
      | None =>
          let pe := infer auth_index source in
          CredInfo.mk (fst pe) (snd pe) source (snd pe) "active" "inferred"
                      auth_index
      end
  end.

(** An entry of [cred_agg]. *)
Record CredAgg := mkCredAgg {
  c_total_requests : Z; c_success_count : Z; c_failure_count : Z;
  c_input_tokens : Z; c_output_tokens : Z; c_reasoning_tokens : Z;
  c_cached_tokens : Z; c_total_tokens : Z;
  c_models : Dict.t CredModel.t; c_api_keys : list string;
  c_info : option CredInfo.t }.

Definition cred_default : CredAgg :=
  mkCredAgg 0 0 0 0 0 0 0 0 Dict.empty [] None.

(** An entry of [api_key_agg]. *)
Record KeyAgg := mkKeyAgg {
  k_total_requests : Z; k_total_tokens : Z;
  k_success_count : Z; k_failure_count : Z;
  k_input_tokens : Z; k_output_tokens : Z;
  k_models : Dict.t KeyModel.t; k_credentials_used : list string }.

Definition key_default : KeyAgg := mkKeyAgg 0 0 0 0 0 0 Dict.empty [].

Definition b2z (b : bool) : Z := if b then 1 else 0.

(** The credential half of the loop body (lines 179-223). *)
Definition update_cred (info : CredInfo.t) (api_key_name model_name : string)
    (d : Usage.Detail) (cred : CredAgg) : CredAgg :=
  let failed := Usage.failed d in
  let tokens := Usage.tokens d in
  let in_tok := Usage.input_tokens tokens in
  let out_tok := Usage.output_tokens tokens in
  let reason_tok := Usage.reasoning_tokens tokens in
  let cache_tok := Usage.cached_tokens tokens in
  let tot_tok := Usage.total_tokens tokens in
  let m := Dict.get_default model_name CredModel.zero (c_models cred) in
  mkCredAgg
    (c_total_requests cred + 1)
    (if failed then c_success_count cred else c_success_count cred + 1)
    (if failed then c_failure_count cred + 1 else c_failure_count cred)
    (c_input_tokens cred + in_tok) (c_output_tokens cred + out_tok)
    (c_reasoning_tokens cred + reason_tok) (c_cached_tokens cred + cache_tok)
    (c_total_tokens cred + tot_tok)
    (Dict.set model_name
       (CredModel.mk (CredModel.requests m + 1)
          (CredModel.success m + b2z (negb failed))
          (CredModel.failure m + b2z failed)
          (CredModel.input_tokens m + in_tok)
          (CredModel.output_tokens m + out_tok)
          (CredModel.reasoning_tokens m + reason_tok)
          (CredModel.cached_tokens m + cache_tok)
          (CredModel.total_tokens m + tot_tok))
       (c_models cred))
    (set_add api_key_name (c_api_keys cred))
    (match c_info cred with Some i => Some i | None => Some info end).

(** The API-key half of the loop body (lines 225-240). *)
Definition update_key (cred_key model_name : string) (d : Usage.Detail)
    (ak : KeyAgg) : KeyAgg :=
  let failed := Usage.failed d in
  let tokens := Usage.tokens d in
  let tot_tok := Usage.total_tokens tokens in
  let ak_model := Dict.get_default model_name KeyModel.zero (k_models ak) in
  mkKeyAgg
    (k_total_requests ak + 1) (k_total_tokens ak + tot_tok)
    (if failed then k_success_count ak else k_success_count ak + 1)
    (if failed then k_failure_count ak + 1 else k_failure_count ak)
    (k_input_tokens ak + Usage.input_tokens tokens)
    (k_output_tokens ak + Usage.output_tokens tokens)
    (Dict.set model_name
       (KeyModel.mk (KeyModel.requests ak_model + 1)
          (KeyModel.tokens ak_model + tot_tok)
          (KeyModel.success ak_model + b2z (negb failed))
          (KeyModel.failure ak_model + b2z failed))
       (k_models ak))
    (set_add cred_key (k_credentials_used ak)).

Definition Agg : Type := Dict.t CredAgg * Dict.t KeyAgg.

Section Aggregate.
Variables by_auth_index by_name : Dict.t CredInfo.t.

(** One iteration of [for d in details]. *)
Definition detail_step (api_key_name model_name : string) (acc : Agg)
    (d : Usage.Detail) : Agg :=
  let auth_idx := Usage.auth_index d in
  let source := Usage.source d in
  let cred_key := Py.str_or auth_idx (Py.str_or source "unknown") in
  let cred := Dict.get_default cred_key cred_default (fst acc) in
  let info := resolve_credential auth_idx source by_auth_index by_name in
  let ak := Dict.get_default api_key_name key_default (snd acc) in
  (Dict.set cred_key (update_cred info api_key_name model_name d cred) (fst acc),
   Dict.set api_key_name (update_key cred_key model_name d ak) (snd acc)).

(** One iteration of [for model_name, model_data in ...]. *)
Definition model_step (api_key_name : string) (acc : Agg)
    (m : string * Usage.ModelData) : Agg :=
  fold_left (detail_step api_key_name (fst m)) (Usage.details (snd m)) acc.

(** One iteration of [for api_key_name, api_data in apis.items()];
    [api_key_agg[api_key_name]] creates the entry. *)
Definition api_step (acc : Agg) (a : string * Usage.ApiData) : Agg :=
  let ak := Dict.get_default (fst a) key_default (snd acc) in
  fold_left (model_step (fst a)) (Usage.models (snd a))
            (fst acc, Dict.set (fst a) ak (snd acc)).
End Aggregate.

Definition rate (success total : Z) : Q :=
  if 0 <? total
  then Py.round1 ((inject_Z success / inject_Z total) * 100)
  else 0%Q.

(** The emitted credential record (lines 244-272). *)
Definition emit_cred (kv : string * CredAgg) : CredStat.t :=
  let cred := snd kv in
  let g (f : CredInfo.t -> string) (dflt : string) :=
    match c_info cred with Some i => f i | None => dflt end in
  CredStat.mk (g CredInfo.auth_index (fst kv)) (g CredInfo.name "")
    (g CredInfo.provider "unknown") (g CredInfo.email "")
    (g CredInfo.label "") (g CredInfo.status "unknown")
    (g CredInfo.account_type "")
    (c_total_requests cred) (c_success_count cred) (c_failure_count cred)
    (rate (c_success_count cred) (c_total_requests cred))
    (c_input_tokens cred) (c_output_tokens cred) (c_reasoning_tokens cred)
    (c_cached_tokens cred) (c_total_tokens cred)
    (c_models cred) (sorted (c_api_keys cred)).

(** The emitted API-key record (lines 278-297). *)
Definition emit_key (kv : string * KeyAgg) : ApiKeyStat.t :=
  let ak := snd kv in
  ApiKeyStat.mk (fst kv) (k_total_requests ak) (k_total_tokens ak)
    (k_success_count ak) (k_failure_count ak)
    (rate (k_success_count ak) (k_total_requests ak))
    (k_input_tokens ak) (k_output_tokens ak)
    (k_models ak) (sorted (k_credentials_used ak)).

Definition apis_of (usage_data : Usage.Doc) : Dict.t Usage.ApiData :=
  match Usage.usage usage_data with
  | Some u => Usage.apis u
  | None => Dict.empty
  end.

(** The aggregation loop (lines 170-240). *)
Definition aggregate (usage_data : Usage.Doc) (auth_files : list AuthFile.t)
  : Agg :=
  let maps := build_auth_index_map auth_files in
  fold_left (api_step (fst maps) (snd maps)) (apis_of usage_data)
            (Dict.empty, Dict.empty).

(** [aggregate_stats] *)
Definition aggregate_stats (usage_data : Usage.Doc)
    (auth_files : list AuthFile.t) : list CredStat.t * list ApiKeyStat.t :=
  let agg := aggregate usage_data auth_files in
  (sort_desc CredStat.total_requests (map emit_cred (fst agg)),
   sort_desc ApiKeyStat.total_requests (map emit_key (snd agg))).

Record Stats := mkStats { credentials : Z; api_keys : Z; error : bool }.

(** [sync], with the results of [fetch_usage] and [fetch_auth_files] as
    arguments ([None]: transport error or non-200 answer). *)
Definition sync (now : Z) (fetched_usage : option Usage.Doc)
    (fetched_auth_files : option (list AuthFile.t)) (st : Store.t)
  : Stats * Store.t :=
  match fetched_usage with
  | None => (mkStats 0 0 true, st)
  | Some usage_data =>
      if Usage.nonempty usage_data then
        let auth_files :=
          match fetched_auth_files with Some l => l | None => [] end in
        let '(credential_stats, api_key_stats) :=
          aggregate_stats usage_data auth_files in
        let n_cred := Z.of_nat (List.length credential_stats) in
        let n_keys := Z.of_nat (List.length api_key_stats) in
        (mkStats n_cred n_keys false,
         Store.mk (Store.usage_snapshots st) (Store.model_usage st)
           (Store.daily_stats st)
           (Some (Summary.mk credential_stats api_key_stats n_cred n_keys now))
           (Store.rate_limit_configs st) (Store.rate_limit_status st))
      else (mkStats 0 0 true, st)
  end.

End CredentialStatsSync.

(** ** Price resolution as the specification words it *)

Module PricingSpec.
Import Pricing.

(** Exact lowercase match in the remote overlay, then exact match in the
    built-in table, then the first substring match in either direction
    against the non-default keys, then [fallback]. *)
Definition resolve_in_order (remote : table) (fallback : Price)
    (model_name : string) : Price :=
  let name := Py.lower model_name in
  match Dict.get name remote with
  | Some p => p
  | None =>
      match Dict.get name DEFAULT_PRICING with
      | Some p => p
      | None =>
          match first_substring_match name (get_model_pricing remote) with
          | Some p => p
          | None => fallback
          end
      end
  end.

(** The last step as the specification has it: input 0.15, output 0.60. *)
Definition price_of (remote : table) (model_name : string) : Price :=
  resolve_in_order remote (P 0.15 0.60) model_name.

(** The [_default] entry of the table the collector actually consults. *)
Definition default_entry (remote : table) : Price :=
  match Dict.get "_default" remote with
  | Some p => p
  | None => P 0.15 0.60
  end.
End PricingSpec.

(** ** Calendar helpers and concrete inputs *)

Module Time.
(** Day number of a Gregorian date (day 0 is 1970-01-01). *)
Definition days_from_civil (y m d : Z) : Z :=
  let y' := if m <=? 2 then y - 1 else y in
  let era := y' / 400 in
  let yoe := y' - era * 400 in
  let mp := (m + 9) mod 12 in
  let doy := (153 * mp + 2) / 5 + d - 1 in
  let doe := yoe * 365 + yoe / 4 - yoe / 100 + doy in
  era * 146097 + doe - 719468.

(** The instant of a wall-clock reading in a zone [offset_minutes] east of
    UTC, in microseconds. *)
Definition instant (y mo d h mi s offset_minutes : Z) : Z :=
  (((days_from_civil y mo d * 24 + h) * 60 + mi - offset_minutes) * 60 + s)
  * 1000000.

Definition digit (c : ascii) : option Z :=
  let n := nat_of_ascii c in
  if (Nat.leb 48 n && Nat.leb n 57)%bool then Some (Z.of_nat (n - 48)) else None.

Fixpoint number (s : string) (acc : Z) : option Z :=
  match s with
  | EmptyString => Some acc
  | String c r =>
      match digit c with
      | Some d => number r (acc * 10 + d)
      | None => None
      end
  end.

Definition num (s : string) (start len : nat) : option Z :=
  if Nat.eqb (String.length (substring start len s)) len
  then number (substring start len s) 0 else None.

Definition bind {A B} (x : option A) (f : A -> option B) : option B :=
  match x with Some a => f a | None => None end.

(** An instance of [fromisoformat] for the one shape the examples use:
    [YYYY-MM-DDTHH:MM:SS] followed by [Z] or by [+HH:MM] / [-HH:MM]. *)
Definition fromisoformat (s0 : string) : option Z :=
  let s := Py.replace "Z" "+00:00" s0 in
  if negb (Nat.eqb (String.length s) 25) then None else
  let sign := substring 19 1 s in
  if negb (String.eqb (substring 4 1 s) "-" && String.eqb (substring 7 1 s) "-" &&
           String.eqb (substring 10 1 s) "T" && String.eqb (substring 13 1 s) ":" &&
           String.eqb (substring 16 1 s) ":" && String.eqb (substring 22 1 s) ":" &&
           (String.eqb sign "+" || String.eqb sign "-"))
  then None else
  bind (num s 0 4) (fun y => bind (num s 5 2) (fun mo =>
  bind (num s 8 2) (fun d => bind (num s 11 2) (fun h =>
  bind (num s 14 2) (fun mi => bind (num s 17 2) (fun se =>
  bind (num s 20 2) (fun oh => bind (num s 23 2) (fun om =>
    let off := oh * 60 + om in
    Some (instant y mo d h mi se (if String.eqb sign "-" then - off else off)))))))))).

(** An instance of the datastore's [ILIKE %pattern%] for patterns without
    the wildcards [%] and [_]: case-insensitive containment. *)
Definition ilike (pattern name : string) : bool :=
  Py.contains (Py.lower pattern) (Py.lower name).
End Time.

(** ** Predicates used in the statements *)

(** Breakdown coherence of a day's row: each total is the sum of its
    per-model breakdown.  Costs are compared as rationals. *)
Definition coherent (d : DailyStat.t) : Prop :=
  let ms := Breakdown.models (DailyStat.breakdown d) in
  DailyStat.total_requests d = Collector.sum_requests ms /\
  DailyStat.total_tokens d = Collector.sum_tokens ms /\
  (DailyStat.estimated_cost_usd d == Collector.sum_cost ms)%Q.

(** [max(0.0, min(1.0, r))] *)
Definition clamp01 (r : Q) : Q := Py.Qmax 0 (Py.Qmin 1 r).

(** A status row without its [last_updated] stamp. *)
Definition without_stamp (s : Status.t) : Status.t :=
  Status.mk (Status.config_id s) 0 (Status.window_start s)
    (Status.used_tokens s) (Status.used_requests s) (Status.status_label s)
    (Status.percentage s) (Status.remaining_tokens s)
    (Status.remaining_requests s) (Status.next_reset s).

(** [select ... eq('config_id', id)], first row. *)
Definition lookup_status (id : Z) (table : list Status.t) : option Status.t :=
  find (fun r => Status.config_id r =? id) table.

(** A sequence of upserts, in order. *)
Definition upserts (rows table : list Status.t) : list Status.t :=
  fold_left (fun t s => RateLimiter.upsert_status s t) rows table.

(** The status rows one run of the engine upserts, in order. *)
Definition produced (tz_hours : Z) (ilike : string -> string -> bool)
    (fromisoformat : string -> option Z) (now : Z) (st : Store.t)
  : list Status.t :=
  flat_map
    (fun config =>
       match RateLimiter._process_config tz_hours ilike fromisoformat now
               (Store.model_usage st) config with
       | Some s => [s]
       | None => []
       end)
    (Store.rate_limit_configs st).

(** Consistency of an emitted credential record: outcomes add up to the
    requests, and every total is the sum of its per-model sub-counters. *)
Definition cred_consistent (c : CredStat.t) : Prop :=
  let ms := Dict.values (CredStat.models c) in
  CredStat.success_count c + CredStat.failure_count c = CredStat.total_requests c /\
  CredStat.total_requests c = Zsum (map CredModel.requests ms) /\
  CredStat.input_tokens c = Zsum (map CredModel.input_tokens ms) /\
  CredStat.output_tokens c = Zsum (map CredModel.output_tokens ms) /\
  CredStat.reasoning_tokens c = Zsum (map CredModel.reasoning_tokens ms) /\
  CredStat.cached_tokens c = Zsum (map CredModel.cached_tokens ms) /\
  CredStat.total_tokens c = Zsum (map CredModel.total_tokens ms).

(** Consistency of an emitted API-key record. *)
Definition key_consistent (k : ApiKeyStat.t) : Prop :=
  let ms := Dict.values (ApiKeyStat.models k) in
  ApiKeyStat.success_count k + ApiKeyStat.failure_count k = ApiKeyStat.total_requests k /\
  ApiKeyStat.total_requests k = Zsum (map KeyModel.requests ms) /\
  ApiKeyStat.total_tokens k = Zsum (map KeyModel.tokens ms).

Module Examples.
Definition det (i o : Z) : Usage.Detail :=
  Usage.mkDetail "0" "alice@example.com" false (Usage.mkTokens i o 0 0 (i + o)).

Definition one_model (total_requests total_tokens : Z) (d : Usage.Detail)
  : Usage.Doc :=
  Usage.mkDoc
    (Some (Usage.mk total_requests total_requests 0 total_tokens
             [("key1", Usage.mkApiData
                 [("gemini-2.5-flash",
                   Usage.mkModelData total_requests total_tokens [d])])]))
    [].

(** Snapshot S1: 1000 requests, 50 000 tokens on [gemini-2.5-flash]. *)
Definition S1 : Usage.Doc := one_model 1000 50000 (det 40000 10000).
(** Snapshot S2 after a proxy restart: the counters dropped. *)
Definition S2 : Usage.Doc := one_model 200 10000 (det 8000 2000).

Definition t1 : Z := Time.instant 2023 10 23 9 0 0 420.
Definition t2 : Z := Time.instant 2023 10 23 9 5 0 420.

Definition after_S1 : Store.t :=
  Collector.run_full_sync_once 7 [] t1 (Some S1) Store.empty.
Definition after_S2 : Store.t :=
  Collector.run_full_sync_once 7 [] t2 (Some S2) after_S1.

(** Rate-limit configs: a weekly one with a manual reset on Tuesday noon,
    and a rolling one over the last hour. *)
Definition weekly_anchored : Config.t :=
  Config.mk 1 "gemini" 10080 "weekly" (Some 100000) None
    (Some "2023-10-24T12:00:00+07:00").
Definition rolling_hour : Config.t :=
  Config.mk 2 "gemini" 60 "rolling" (Some 100000) None None.

Definition wednesday : Z := Time.instant 2023 10 25 10 0 0 420.
Definition monday : Z := Time.instant 2023 10 23 0 0 0 420.

Definition usage_row (at_time : Z) (tokens requests : Z) : ModelUsage.t :=
  ModelUsage.mk 1 at_time "gemini-2.5-pro" 0 requests 0 0 tokens "key1".

(** The data-gap scenario: a baseline on Saturday 23:00, the first row of
    the window on Monday 03:00, the latest row on Monday 09:00. *)
Definition gap_rows : list ModelUsage.t :=
  [ usage_row (Time.instant 2023 10 21 23 0 0 420) 1000 10;
    usage_row (Time.instant 2023 10 23 3 0 0 420) 5000 50;
    usage_row (Time.instant 2023 10 23 9 0 0 420) 6000 60 ].

(** Two rows fifty minutes apart, and two clock readings 200 s apart
    shortly after the second row. *)
Definition eight : Z := Time.instant 2023 10 23 8 0 0 420.
Definition rolling_rows : list ModelUsage.t :=
  [ usage_row eight 100 1;
    usage_row (eight + 50 * RateLimiter.usec_per_minute) 500 5 ].
Definition first_run : Z := eight + 3500 * RateLimiter.usec_per_second.
Definition second_run : Z := eight + 3700 * RateLimiter.usec_per_second.
Definition rolling_store : Store.t :=
  Store.mk [] rolling_rows [] None [rolling_hour] [].

Definition weekly_store : Store.t :=
  Store.mk [] gap_rows [] None [weekly_anchored] [].

(** Five requests by four credentials through two API keys, and a
    catalog that knows the first credential only. *)
Definition call (auth_index source : string) (failed : bool) (i o : Z)
  : Usage.Detail :=
  Usage.mkDetail auth_index source failed (Usage.mkTokens i o 0 0 (i + o)).
Definition mixed : Usage.Doc :=
  Usage.mkDoc
    (Some (Usage.mk 5 4 1 46
       [("key1", Usage.mkApiData
           [("gemini-2.5-flash",
             Usage.mkModelData 3 42
               [call "7" "gemini-alice_example.com.json" false 10 5;
                call "7" "gemini-alice_example.com.json" true 20 0;
                call "" "bob@example.com" false 3 4]);
            ("gpt-4o",
             Usage.mkModelData 1 2
               [call "" "AIzaSyA-0123456789abcdefghijklmnop" false 1 1])]);
        ("key2", Usage.mkApiData
           [("gpt-4o",
             Usage.mkModelData 1 2
               [call "" "gemini-carol_example.com.json" false 1 1])])]))
    [].
Definition catalog : list AuthFile.t :=
  [AuthFile.mk "7" "gemini" "alice@example.com"
     "gemini-alice_example.com.json" "Alice" (Some "active") "oauth"].

(** A document whose global counters are not reflected in [apis]. *)
Definition no_apis : Usage.Doc :=
  Usage.mkDoc (Some (Usage.mk 5 5 0 100 [])) [].

(** Global counters twice as large as the per-model ones. *)
Definition half_attributed : Usage.Doc :=
  Usage.mkDoc
    (Some (Usage.mk 1000 1000 0 50000
             [("key1", Usage.mkApiData
                 [("gemini-2.5-flash",
                   Usage.mkModelData 500 25000 [det 20000 5000])])]))
    [].
End Examples.

From Stdlib Require Import Permutation.

(** ** The remote price table and its cache ([main.py], [fetch_remote_pricing]) *)

Module RemotePricing.

(** One element of the [prices] array of the feed; a missing [id] is the
    empty string, a missing or null price is [None]. *)
Record Item := mkItem {
  id : string; input : option Q; output : option Q; vendor : option string }.

(** The two globals [remote_pricing_cache] and [remote_pricing_last_fetch]. *)
Record Cache := mkCache {
  remote_pricing_cache : Pricing.table; remote_pricing_last_fetch : Q }.

Definition initial : Cache := mkCache [] 0.

(** The key and value the dict comprehension builds for an item that
    passes its filter (lines 151-159). *)
Definition entry_of (item : Item) : list (string * Pricing.Price) :=
  if Py.truthy (id item) then
    match input item, output item with
    | Some i, Some o =>
        [(Py.lower (id item),
          Pricing.mkPrice i o
            (Some (match vendor item with Some v => v | None => "unknown" end)))]
    | _, _ => []
    end
  else [].

Definition pricing_of (prices : list Item) : Pricing.table :=
  Dict.of_list (flat_map entry_of prices).

(** The test [remote_pricing_cache and (time.time() - last_fetch) < 3600]. *)
Definition cache_fresh (now : Q) (c : Cache) : bool :=
  match remote_pricing_cache c with
  | [] => false
  | _ :: _ => Py.Qltb (now - remote_pricing_last_fetch c) 3600
  end.

(** [fetch_remote_pricing]: [now] is [time.time()], [response] the decoded
    [prices] array, [None] when the request, the status check or the
    decoding raised. *)
Definition fetch_remote_pricing (now : Q) (response : option (list Item))
    (c : Cache) : Pricing.table * Cache :=
  if cache_fresh now c then (remote_pricing_cache c, c)
  else
    match response with
    | Some prices =>
        match pricing_of prices with
        | [] => ([], c)
        | pricing => (pricing, mkCache pricing now)
        end
    | None => ([], c)
    end.

End RemotePricing.

(** ** Further predicates used in the statements *)

(** The test of the substring loop of [find_pricing_for_model]. *)
Definition substring_hit (pattern model_lower : string) : bool :=
  negb (String.eqb pattern "_default") &&
  (Py.contains pattern model_lower || Py.contains model_lower pattern).

(** A key as the price tables carry it: already lower-case. *)
Definition lowercase (s : string) : Prop := Py.lower s = s.

(** No [|] in a string. *)
Definition pipe_free (s : string) : Prop := Py.contains "|" s = false.

(** A per-model row with non-negative counters. *)
Definition row_nonneg (r : ModelUsage.t) : Prop :=
  0 <= ModelUsage.request_count r /\ 0 <= ModelUsage.total_tokens r.

(** The two decompositions of a breakdown account for the same requests and
    tokens. *)
Definition endpoints_agree (b : Breakdown.t) : Prop :=
  Zsum (map BEndpoint.requests (Dict.values (Breakdown.endpoints b))) =
    Collector.sum_requests (Breakdown.models b) /\
  Zsum (map BEndpoint.tokens (Dict.values (Breakdown.endpoints b))) =
    Collector.sum_tokens (Breakdown.models b).

(** Descending order of a key along a list. *)
Fixpoint descending {A} (key : A -> Z) (l : list A) : Prop :=
  match l with
  | [] => True
  | x :: r => (forall y, In y r -> key y <= key x) /\ descending key r
  end.

(** The number of [details] entries of a usage document. *)
Definition count_details (apis : Dict.t Usage.ApiData) : Z :=
  Zsum (map (fun a : string * Usage.ApiData =>
               Zsum (map (fun m : string * Usage.ModelData =>
                            Z.of_nat (List.length (Usage.details (snd m))))
                         (Usage.models (snd a))))
            apis).

(** The per-model counters of a usage document are non-negative. *)
Definition counters_nonneg (usage : Usage.t) : Prop :=
  Forall (fun a : string * Usage.ApiData =>
            Forall (fun m : string * Usage.ModelData =>
                      0 <= Usage.m_total_requests (snd m) /\
                      0 <= Usage.m_total_tokens (snd m))
                   (Usage.models (snd a)))
         (Usage.apis usage).

(** Non-negative prices throughout a table, and non-negative input and
    output tokens throughout the [details] of a document. *)
Definition prices_nonneg (t : Pricing.table) : Prop :=
  Forall (fun p => (0 <= Pricing.input p)%Q /\ (0 <= Pricing.output p)%Q)
         (Dict.values t).

Definition details_nonneg (usage : Usage.t) : Prop :=
  Forall (fun a : string * Usage.ApiData =>
            Forall (fun m : string * Usage.ModelData =>
                      Forall (fun d => 0 <= Usage.input_tokens (Usage.tokens d) /\
                                       0 <= Usage.output_tokens (Usage.tokens d))
                             (Usage.details (snd m)))
                   (Usage.models (snd a)))
         (Usage.apis usage).

(** * Properties *)

(** ** The model on the repository's scenarios *)

(** Fresh start: one snapshot of 1000 requests and 50 000 tokens on
    [gemini-2.5-flash] costs 40000 * 0.075 / 1e6 + 10000 * 0.30 / 1e6. *)
Example fresh_start :
  map (fun d => (DailyStat.total_requests d, DailyStat.total_tokens d,
                 Qred (DailyStat.estimated_cost_usd d)))
      (Store.daily_stats Examples.after_S1)
  = [(1000, 50000, Qred 0.006)].
Proof. vm_compute. reflexivity. Qed.

(** The four cases of [test_window_logic.py], with offset-aware datetimes. *)
Example window_logic :
  let start now anchor :=
    option_map fst
      (RateLimiter.window_of 7 Time.fromisoformat now
         (Config.mk 1 "gemini" 10080 "weekly" None None anchor)) in
  start Examples.wednesday None = Some Examples.monday /\
  start (Time.instant 2023 10 23 10 0 0 420) None = Some Examples.monday /\
  start Examples.wednesday (Some "2023-10-24T12:00:00+07:00")
    = Some (Time.instant 2023 10 24 12 0 0 420) /\
  start Examples.wednesday (Some "2023-10-22T12:00:00+07:00")
    = Some Examples.monday.
Proof. cbv zeta. repeat split; vm_compute; reflexivity. Qed.

(** Attribution: a catalogued credential, and three inferred ones. *)
Example attribution :
  map (fun c => (CredStat.provider c, CredStat.email c, CredStat.total_requests c,
                 CredStat.failure_count c))
      (fst (CredentialStatsSync.aggregate_stats Examples.mixed Examples.catalog))
  = [("gemini", "alice@example.com", 2, 1);
     ("oauth", "bob@example.com", 1, 0);
     ("gemini-api-key", "AIzaSyA-0123456789ab...", 1, 0);
     ("gemini", "carol.example.com", 1, 0)] /\
  map (fun k => (ApiKeyStat.api_key_name k, ApiKeyStat.total_requests k,
                 ApiKeyStat.credentials_used k))
      (snd (CredentialStatsSync.aggregate_stats Examples.mixed Examples.catalog))
  = [("key1", 4, ["7"; "AIzaSyA-0123456789abcdefghijklmnop"; "bob@example.com"]);
     ("key2", 1, ["gemini-carol_example.com.json"])].
Proof. split; vm_compute; reflexivity. Qed.

(** ** Arithmetic and dictionary facts *)

Lemma Qltb_lt (a b : Q) : Py.Qltb a b = true <-> (a < b)%Q.
Proof.
  unfold Py.Qltb. rewrite negb_true_iff.
  split; intro H.
  - apply Qnot_le_lt. intro Hle. apply Qle_bool_iff in Hle. congruence.
  - destruct (Qle_bool b a) eqn:E; [|reflexivity].
    apply Qle_bool_iff in E. exfalso. exact (Qlt_not_le _ _ H E).
Qed.


Lemma Zsum_shift (l : list Z) (a : Z) : fold_left Z.add l a = a + Zsum l.
Proof.
  unfold Zsum. revert a.
  induction l as [|x l IH]; intro a; simpl.
  - lia.
  - rewrite (IH (a + x)), (IH x). lia.
Qed.

Lemma Zsum_cons (x : Z) (l : list Z) : Zsum (x :: l) = x + Zsum l.
Proof. unfold Zsum at 1. simpl. apply Zsum_shift. Qed.

Lemma Qsum_shift (l : list Q) (a : Q) : (fold_left Qplus l a == a + Qsum l)%Q.
Proof.
  unfold Qsum. revert a.
  induction l as [|x l IH]; intro a; simpl.
  - ring.
  - rewrite (IH (a + x)%Q), (IH (0 + x)%Q). ring.
Qed.

Lemma Qsum_cons (x : Q) (l : list Q) : (Qsum (x :: l) == x + Qsum l)%Q.
Proof. unfold Qsum at 1. simpl. rewrite Qsum_shift. ring. Qed.

Section DictFacts.
Context {V : Type}.
Implicit Types (d : Dict.t V) (k : string) (v : V).

Lemma get_set_same k v d : Dict.get k (Dict.set k v d) = Some v.
Proof.
  induction d as [|[k' v'] d IH]; simpl.
  - now rewrite String.eqb_refl.
  - destruct (String.eqb k k') eqn:E; simpl; rewrite E; auto.
Qed.

Lemma get_set_other k k' v d :
  k <> k' -> Dict.get k (Dict.set k' v d) = Dict.get k d.
Proof.
  intro Hne. induction d as [|[k0 v0] d IH]; simpl.
  - apply String.eqb_neq in Hne. now rewrite Hne.
  - destruct (String.eqb k' k0) eqn:E; simpl.
    + apply String.eqb_eq in E. subst k0.
      apply String.eqb_neq in Hne. now rewrite Hne.
    + destruct (String.eqb k k0); auto.
Qed.

Lemma get_set k k' v d :
  Dict.get k (Dict.set k' v d) = if String.eqb k k' then Some v else Dict.get k d.
Proof.
  destruct (String.eqb k k') eqn:E.
  - apply String.eqb_eq in E. subst. apply get_set_same.
  - apply String.eqb_neq in E. now apply get_set_other.
Qed.

Lemma get_None_not_in k d : Dict.get k d = None <-> ~ In k (Dict.keys d).
Proof.
  induction d as [|[k' v'] d IH]; simpl.
  - tauto.
  - destruct (String.eqb k k') eqn:E.
    + apply String.eqb_eq in E. subst. split; [discriminate | tauto].
    + apply String.eqb_neq in E. rewrite IH. split; intros H; [|tauto].
      intros [H1|H1]; [congruence | tauto].
Qed.

(** Values of a dictionary after an assignment, seen through an additive
    measure [f]. *)
Lemma Zsum_set (f : V -> Z) k v d dflt :
  f dflt = 0 ->
  Zsum (map f (Dict.values (Dict.set k v d))) =
  Zsum (map f (Dict.values d)) - f (Dict.get_default k dflt d) + f v.
Proof.
  intro H0. unfold Dict.get_default, Dict.values.
  induction d as [|[k' v'] d IH]; simpl.
  - rewrite Zsum_cons. unfold Zsum. simpl. lia.
  - destruct (String.eqb k k') eqn:E; simpl.
    + rewrite !Zsum_cons. lia.
    + rewrite !Zsum_cons, IH. lia.
Qed.

Lemma Qsum_set (f : V -> Q) k v d dflt :
  (f dflt == 0)%Q ->
  (Qsum (map f (Dict.values (Dict.set k v d))) ==
   Qsum (map f (Dict.values d)) - f (Dict.get_default k dflt d) + f v)%Q.
Proof.
  intro H0. unfold Dict.get_default, Dict.values.
  induction d as [|[k' v'] d IH]; simpl.
  - rewrite Qsum_cons. unfold Qsum. simpl. rewrite H0. ring.
  - destruct (String.eqb k k') eqn:E; simpl.
    + rewrite !Qsum_cons. ring.
    + rewrite !Qsum_cons, IH. ring.
Qed.

Lemma Forall_values_set (P : V -> Prop) k v d :
  P v -> Forall P (Dict.values d) -> Forall P (Dict.values (Dict.set k v d)).
Proof.
  intros Hv. unfold Dict.values.
  induction d as [|[k' v'] d IH]; simpl; intro H.
  - constructor; auto.
  - inversion H; subst. destruct (String.eqb k k'); simpl; constructor; auto.
Qed.

Lemma get_default_Forall (P : V -> Prop) k dflt d :
  P dflt -> Forall P (Dict.values d) -> P (Dict.get_default k dflt d).
Proof.
  intros Hd. unfold Dict.get_default, Dict.values.
  induction d as [|[k' v'] d IH]; simpl; intro H; auto.
  inversion H; subst. destruct (String.eqb k k'); auto.
Qed.
End DictFacts.

(** ** The day's row after a tick *)

Lemma find_daily_upsert (d : DailyStat.t) (rows : list DailyStat.t) :
  Collector.find_daily (DailyStat.stat_date d) (Collector.upsert_daily d rows) = Some d.
Proof.
  unfold Collector.find_daily.
  induction rows as [|r rows IH]; simpl.
  - now rewrite Z.eqb_refl.
  - destruct (DailyStat.stat_date r =? DailyStat.stat_date d) eqn:E; simpl.
    + now rewrite Z.eqb_refl.
    + now rewrite E.
Qed.

Lemma sum_requests_add m req tok cost i o ms :
  Collector.sum_requests (Collector.add_to_models m req tok cost i o ms) =
  Collector.sum_requests ms + req.
Proof.
  unfold Collector.sum_requests, Collector.add_to_models.
  rewrite (Zsum_set BModel.requests _ _ _ BModel.zero) by reflexivity.
  simpl. lia.
Qed.

Lemma sum_tokens_add m req tok cost i o ms :
  Collector.sum_tokens (Collector.add_to_models m req tok cost i o ms) =
  Collector.sum_tokens ms + tok.
Proof.
  unfold Collector.sum_tokens, Collector.add_to_models.
  rewrite (Zsum_set BModel.tokens _ _ _ BModel.zero) by reflexivity.
  simpl. lia.
Qed.

Lemma sum_cost_add m req tok cost i o ms :
  (Collector.sum_cost (Collector.add_to_models m req tok cost i o ms) ==
   Collector.sum_cost ms + cost)%Q.
Proof.
  unfold Collector.sum_cost, Collector.add_to_models.
  rewrite (Qsum_set BModel.cost _ _ _ BModel.zero) by reflexivity.
  simpl. ring.
Qed.

Lemma sum_requests_merge deltas existing :
  Collector.sum_requests (Collector.merge_models deltas existing) =
  Collector.sum_requests existing + Collector.sum_requests deltas.
Proof.
  unfold Collector.merge_models. revert existing.
  induction deltas as [|[k v] deltas IH]; intro existing.
  - cbn [fold_left]. change (Collector.sum_requests []) with 0. lia.
  - cbn [fold_left fst snd]. rewrite IH, sum_requests_add.
    change (Collector.sum_requests ((k, v) :: deltas))
      with (Zsum (BModel.requests v :: map BModel.requests (Dict.values deltas))).
    rewrite Zsum_cons. unfold Collector.sum_requests. lia.
Qed.

Lemma sum_tokens_merge deltas existing :
  Collector.sum_tokens (Collector.merge_models deltas existing) =
  Collector.sum_tokens existing + Collector.sum_tokens deltas.
Proof.
  unfold Collector.merge_models. revert existing.
  induction deltas as [|[k v] deltas IH]; intro existing.
  - cbn [fold_left]. change (Collector.sum_tokens []) with 0. lia.
  - cbn [fold_left fst snd]. rewrite IH, sum_tokens_add.
    change (Collector.sum_tokens ((k, v) :: deltas))
      with (Zsum (BModel.tokens v :: map BModel.tokens (Dict.values deltas))).
    rewrite Zsum_cons. unfold Collector.sum_tokens. lia.
Qed.

Lemma sum_cost_merge deltas existing :
  (Collector.sum_cost (Collector.merge_models deltas existing) ==
   Collector.sum_cost existing + Collector.sum_cost deltas)%Q.
Proof.
  unfold Collector.merge_models. revert existing.
  induction deltas as [|[k v] deltas IH]; intro existing.
  - cbn [fold_left]. change (Collector.sum_cost []) with 0%Q. ring.
  - cbn [fold_left fst snd]. rewrite IH, sum_cost_add.
    change (Collector.sum_cost ((k, v) :: deltas))
      with (Qsum (BModel.cost v :: map BModel.cost (Dict.values deltas))).
    rewrite Qsum_cons. unfold Collector.sum_cost. ring.
Qed.

(** With a previous snapshot, the override makes the increments the sums of
    the breakdown deltas, so a coherent row stays coherent whichever branch
    of the self-healing step is taken. *)
Lemma daily_data_coherent today existing incs deltas :
  coherent existing ->
  Collector.inc_requests incs = Collector.sum_requests (Breakdown.models deltas) ->
  Collector.inc_tokens incs = Collector.sum_tokens (Breakdown.models deltas) ->
  (Collector.inc_cost incs == Collector.sum_cost (Breakdown.models deltas))%Q ->
  coherent (Collector.daily_data today existing incs
              (Collector.merge_breakdown deltas (DailyStat.breakdown existing))).
Proof.
  intros (Hr & Ht & Hc) Ir It Ic.
  unfold coherent, Collector.daily_data, Collector.merge_breakdown. simpl.
  rewrite !sum_requests_merge, !sum_tokens_merge.
  repeat split.
  - destruct (0 <? _); lia.
  - destruct (0 <? _); lia.
  - destruct (Py.Qltb 0 _); [reflexivity|].
    rewrite sum_cost_merge, Hc, Ic. reflexivity.
Qed.

Lemma zero_daily_coherent (today : Z) : coherent (Collector.zero_daily today).
Proof. repeat split. Qed.

Lemma override_with_prev incs deltas :
  let r := Collector.consistency_override true incs deltas in
  Collector.inc_requests r = Collector.sum_requests (Breakdown.models deltas) /\
  Collector.inc_tokens r = Collector.sum_tokens (Breakdown.models deltas) /\
  Collector.inc_cost r = Collector.sum_cost (Breakdown.models deltas).
Proof. unfold Collector.consistency_override. simpl. auto. Qed.

Lemma tick_coherent tz remote now data usage st :
  let t := Collector.tick tz remote now data usage st in
  Collector.t_has_prev t = true ->
  coherent (Collector.t_existing t) -> coherent (Collector.t_daily t).
Proof.
  unfold Collector.tick. cbn zeta.
  cbn [Collector.t_has_prev Collector.t_existing Collector.t_daily].
  intros Hp Hc. rewrite Hp.
  match goal with
  | |- coherent (Collector.daily_data _ _ (Collector.consistency_override true ?i ?dl) _) =>
      destruct (override_with_prev i dl) as (I1 & I2 & I3)
  end.
  apply daily_data_coherent; auto.
  cbn zeta in I3. rewrite I3. reflexivity.
Qed.

(** C1, as the code has it.  A tick that writes the day's row stores, for
    each of requests, tokens and cost, the sum over [breakdown.models] when
    that sum is positive, and the prior total plus the tick's increment when
    it is not; with a previous snapshot, a coherent prior row gives a
    coherent stored row. *)
Theorem C1_daily_totals_heal_or_accumulate :
  forall tz remote now data usage st,
    Usage.usage data = Some usage ->
    let t := Collector.tick tz remote now data usage st in
    let out := Collector.store_usage_data tz remote now data st in
    let d := Collector.t_daily t in
    let old := Collector.t_existing t in
    let inc := Collector.t_final t in
    let ms := Breakdown.models (DailyStat.breakdown d) in
    (fst out = true /\
     Collector.find_daily (Collector.local_day tz now) (Store.daily_stats (snd out))
       = Some d) /\
    DailyStat.total_requests d =
      (if 0 <? Collector.sum_requests ms then Collector.sum_requests ms
       else DailyStat.total_requests old + Collector.inc_requests inc) /\
    DailyStat.total_tokens d =
      (if 0 <? Collector.sum_tokens ms then Collector.sum_tokens ms
       else DailyStat.total_tokens old + Collector.inc_tokens inc) /\
    DailyStat.estimated_cost_usd d =
      (if Py.Qltb 0 (Collector.sum_cost ms) then Collector.sum_cost ms
       else (DailyStat.estimated_cost_usd old + Collector.inc_cost inc)%Q) /\
    (Collector.t_has_prev t = true -> coherent old -> coherent d) /\
    (Collector.t_has_prev t = true ->
     Collector.find_daily (Collector.local_day tz now) (Store.daily_stats st) = None ->
     coherent d).
Proof.
  intros tz remote now data usage st Hu t out d old inc ms.
  split; [split|split; [|split; [|split; [|split]]]].
  - unfold out, Collector.store_usage_data. now rewrite Hu.
  - unfold out, Collector.store_usage_data. rewrite Hu. simpl.
    change (Collector.local_day tz now) with (DailyStat.stat_date d).
    apply find_daily_upsert.
  - reflexivity.
  - reflexivity.
  - reflexivity.
  - apply tick_coherent.
  - intros Hp Hnone. apply tick_coherent; [exact Hp|].
    unfold Collector.tick. cbn zeta. cbn [Collector.t_existing].
    rewrite Hnone. apply zero_daily_coherent.
Qed.

Lemma C1_daily_totals_witness :
  DailyStat.total_requests
    (Collector.t_daily
       (Collector.tick 7 [] Examples.t1 Examples.S1
          (Usage.mk 1000 1000 0 50000
             [("key1", Usage.mkApiData
                 [("gemini-2.5-flash",
                   Usage.mkModelData 1000 50000 [Examples.det 40000 10000])])])
          Store.empty)) = 1000.
Proof.
  destruct (C1_daily_totals_heal_or_accumulate 7 [] Examples.t1 Examples.S1 _
              Store.empty eq_refl) as (_ & H & _).
  rewrite H. vm_compute. reflexivity.
Defined.

(** C1 as stated fails: on an empty store, a document that reports five
    requests globally and none under [apis] leaves a row with
    [total_requests = 5] over an empty breakdown. *)
Lemma C1_counterexample :
  exists d,
    Collector.store_usage_data 7 [] Examples.t1 Examples.no_apis Store.empty
      = (true, Store.mk
                 [Snapshot.mk 1 Examples.t1 Examples.no_apis 5 5 0 100 0%Q]
                 [] [d] None [] []) /\
    DailyStat.total_requests d = 5 /\
    Collector.sum_requests (Breakdown.models (DailyStat.breakdown d)) = 0 /\
    ~ coherent d.
Proof.
  eexists. split; [vm_compute; reflexivity|].
  split; [reflexivity|]. split; [reflexivity|].
  intros (H & _). vm_compute in H. discriminate.
Qed.

(** ** Global increments and restarts *)

(** C2.  With a previous snapshot the global increments are the differences
    of the counters, except that a negative difference of requests or of
    tokens makes the tick adopt the current cumulative values, with the cost
    of the new snapshot as [inc_cost]; and S1 (1000 requests) followed by S2
    (200 requests) leaves [total_requests = 1200] in the day's row. *)
Theorem C2_restart_adopts_current :
  (forall tz remote now data usage st prev rest,
      Store.usage_snapshots st = prev :: rest ->
      let t := Collector.tick tz remote now data usage st in
      let total_cost :=
        Qsum (map ModelUsage.estimated_cost_usd (Collector.t_records t)) in
      let cumulative_cost := Snapshot.cumulative_cost_usd (Collector.t_snapshot t) in
      let inc_requests := Usage.total_requests usage - Snapshot.total_requests prev in
      let inc_tokens := Usage.u_total_tokens usage - Snapshot.total_tokens prev in
      (inc_requests < 0 \/ inc_tokens < 0 ->
       Collector.t_global t =
         Collector.mkIncs (Usage.total_requests usage) (Usage.success_count usage)
           (Usage.failure_count usage) (Usage.u_total_tokens usage) total_cost) /\
      (0 <= inc_requests /\ 0 <= inc_tokens ->
       Collector.t_global t =
         Collector.mkIncs inc_requests
           (Usage.success_count usage - Snapshot.success_count prev)
           (Usage.failure_count usage - Snapshot.failure_count prev)
           inc_tokens
           (cumulative_cost - Snapshot.cumulative_cost_usd prev)%Q)) /\
  map DailyStat.total_requests (Store.daily_stats Examples.after_S1) = [1000] /\
  map DailyStat.total_requests (Store.daily_stats Examples.after_S2) = [1200].
Proof.
  split; [|split; vm_compute; reflexivity].
  intros tz remote now data usage st prev rest Hs t total_cost cumulative_cost
         inc_requests inc_tokens.
  subst t total_cost cumulative_cost.
  unfold Collector.tick. cbn zeta.
  cbn [Collector.t_global Collector.t_records Collector.t_snapshot
       Snapshot.cumulative_cost_usd].
  rewrite Hs. cbn [hd_error]. unfold Collector.global_increments.
  fold inc_requests inc_tokens.
  split.
  - intros H.
    assert (E : (inc_requests <? 0) || (inc_tokens <? 0) = true).
    { apply orb_true_iff. rewrite !Z.ltb_lt. exact H. }
    rewrite E. reflexivity.
  - intros [H1 H2].
    assert (E : (inc_requests <? 0) || (inc_tokens <? 0) = false).
    { apply orb_false_iff. rewrite !Z.ltb_ge. auto. }
    rewrite E. reflexivity.
Qed.

Lemma C2_restart_witness :
  Collector.inc_requests
    (Collector.t_global
       (Collector.tick 7 [] Examples.t2 Examples.S2
          (Usage.mk 200 200 0 10000
             [("key1", Usage.mkApiData
                 [("gemini-2.5-flash",
                   Usage.mkModelData 200 10000 [Examples.det 8000 2000])])])
          Examples.after_S1)) = 200.
Proof.
  destruct C2_restart_adopts_current as (H & _).
  destruct (H 7 [] Examples.t2 Examples.S2
              (Usage.mk 200 200 0 10000
                 [("key1", Usage.mkApiData
                     [("gemini-2.5-flash",
                       Usage.mkModelData 200 10000 [Examples.det 8000 2000])])])
              Examples.after_S1 _ _ eq_refl) as (Hneg & _).
  rewrite Hneg; [reflexivity|].
  left. vm_compute. reflexivity.
Defined.

(** ** The false-start filter *)


Section FalseStart.
Variables prev_usage_map curr_usage_map : Dict.t ModelUsage.t.

Let kd (key : string) : Collector.KeyDelta :=
  Collector.key_delta (Dict.get key prev_usage_map) (Dict.get key curr_usage_map).
Let step := Collector.delta_step prev_usage_map curr_usage_map.





End FalseStart.



(** ** The consistency override *)





(** ** Price resolution *)

Lemma get_merge {V} (a b : Dict.t V) (k : string) :
  NoDup (Dict.keys b) ->
  Dict.get k (Dict.merge a b) =
  match Dict.get k b with Some v => Some v | None => Dict.get k a end.
Proof.
  unfold Dict.merge. revert a.
  induction b as [|[k' v'] b IH]; intros a Hnd; [reflexivity|].
  inversion Hnd as [|? ? Hnotin Hnd']; subst.
  cbn [fold_left fst snd]. rewrite (IH _ Hnd'). cbn [Dict.get].
  rewrite get_set.
  destruct (String.eqb k k') eqn:E.
  - apply String.eqb_eq in E. subst k'.
    apply get_None_not_in in Hnotin. now rewrite Hnotin.
  - reflexivity.
Qed.

Lemma get_model_pricing_get (remote : Pricing.table) (k : string) :
  NoDup (Dict.keys remote) ->
  Dict.get k (Pricing.get_model_pricing remote) =
  match Dict.get k remote with
  | Some v => Some v
  | None => Dict.get k Pricing.DEFAULT_PRICING
  end.
Proof.
  intro Hnd. unfold Pricing.get_model_pricing.
  destruct remote as [|kv remote]; [reflexivity|].
  now apply get_merge.
Qed.

(** C7, as the code has it.  Prices are resolved in the stated order; the
    last resort is the [_default] entry of the merged table, which is
    0.15 / 0.60 whenever the remote overlay does not define [_default]. *)
Theorem C7_price_resolution_order :
  forall remote model_name,
    NoDup (Dict.keys remote) ->
    fst (Pricing.find_pricing_for_model model_name (Pricing.get_model_pricing remote))
      = PricingSpec.resolve_in_order remote (PricingSpec.default_entry remote) model_name /\
    (Dict.get "_default" remote = None ->
     fst (Pricing.find_pricing_for_model model_name (Pricing.get_model_pricing remote))
       = PricingSpec.price_of remote model_name).
Proof.
  intros remote model_name Hnd.
  assert (Hmain :
    fst (Pricing.find_pricing_for_model model_name (Pricing.get_model_pricing remote))
    = PricingSpec.resolve_in_order remote (PricingSpec.default_entry remote) model_name).
  { unfold Pricing.find_pricing_for_model, PricingSpec.resolve_in_order.
    rewrite (get_model_pricing_get _ _ Hnd).
    destruct (Dict.get (Py.lower model_name) remote) as [p|]; [reflexivity|].
    destruct (Dict.get (Py.lower model_name) Pricing.DEFAULT_PRICING) as [p|];
      [reflexivity|].
    destruct (Pricing.first_substring_match _ _) as [p|]; [reflexivity|].
    cbn [fst]. unfold Dict.get_default, PricingSpec.default_entry.
    rewrite (get_model_pricing_get _ _ Hnd).
    destruct (Dict.get "_default" remote); reflexivity. }
  split; [exact Hmain|].
  intro Hd. rewrite Hmain.
  unfold PricingSpec.price_of, PricingSpec.default_entry. now rewrite Hd.
Qed.

Lemma C7_price_resolution_witness :
  fst (Pricing.find_pricing_for_model "Gemini-2.5-Flash-8B"
         (Pricing.get_model_pricing [("gpt-5", Pricing.mkPrice 1.25 10 (Some "openai"))]))
  = Pricing.P 0.075 0.30.
Proof.
  destruct (C7_price_resolution_order
              [("gpt-5", Pricing.mkPrice 1.25 10 (Some "openai"))]
              "Gemini-2.5-Flash-8B") as (_ & H).
  - repeat constructor. simpl. tauto.
  - rewrite H; reflexivity.
Defined.

(** C7 as stated fails when the remote table carries an id [_default]: a
    name that matches nothing is then priced by the remote entry, not at
    0.15 / 0.60. *)
Lemma C7_counterexample :
  let remote := [("_default", Pricing.mkPrice 1 2 (Some "acme"))] in
  let found :=
    fst (Pricing.find_pricing_for_model "zzz" (Pricing.get_model_pricing remote)) in
  Dict.get "zzz" remote = None /\
  Dict.get "zzz" Pricing.DEFAULT_PRICING = None /\
  Pricing.first_substring_match "zzz" (Pricing.get_model_pricing remote) = None /\
  found = Pricing.mkPrice 1 2 (Some "acme") /\
  PricingSpec.price_of remote "zzz" = Pricing.P 0.15 0.60 /\
  found <> PricingSpec.price_of remote "zzz" /\
  ~ (Pricing.input found == 0.15)%Q.
Proof.
  cbv zeta. repeat split; try reflexivity.
  - vm_compute. discriminate.
  - vm_compute. discriminate.
Qed.

(** ** Rate-limit windows *)




(** ** Usage in a window: the data-gap interpolation *)

Lemma fold_max_in (r : list Z) (t : Z) : In (fold_left Z.max r t) (t :: r).
Proof.
  revert t. induction r as [|x r IH]; intro t; cbn [fold_left]; [now left|].
  destruct (IH (Z.max t x)) as [H|H].
  - destruct (Z.max_spec t x) as [[_ E]|[_ E]]; rewrite E in *;
      cbn [In]; tauto.
  - right. now right.
Qed.

Lemma fold_min_in (r : list Z) (t : Z) : In (fold_left Z.min r t) (t :: r).
Proof.
  revert t. induction r as [|x r IH]; intro t; cbn [fold_left]; [now left|].
  destruct (IH (Z.min t x)) as [H|H].
  - destruct (Z.min_spec t x) as [[_ E]|[_ E]]; rewrite E in *;
      cbn [In]; tauto.
  - right. now right.
Qed.

Lemma newest_in (ts : list Z) (t : Z) : RateLimiter.newest ts = Some t -> In t ts.
Proof.
  destruct ts as [|x r]; simpl; [discriminate|].
  intro H. injection H as <-. apply fold_max_in.
Qed.




Lemma fold_set_get {V} (g : string -> V) (ks : list string) (init : Dict.t V)
    (m : string) :
  (In m ks ->
   Dict.get m (fold_left (fun acc k => Dict.set k (g k) acc) ks init) = Some (g m)) /\
  (~ In m ks ->
   Dict.get m (fold_left (fun acc k => Dict.set k (g k) acc) ks init) = Dict.get m init).
Proof.
  revert init. induction ks as [|k ks IH]; intro init; cbn [fold_left].
  - split; [intros []|reflexivity].
  - destruct (IH (Dict.set k (g k) init)) as [IH1 IH2].
    destruct (in_dec string_dec m ks) as [Hin|Hnin].
    + split; [intros _; auto|]. intros H. exfalso. apply H. now right.
    + split.
      * intros [->|H]; [|contradiction].
        rewrite (IH2 Hnin). apply get_set_same.
      * intros H. rewrite (IH2 Hnin). apply get_set_other.
        intros ->. apply H. now left.
Qed.

(** Every model of either map gets the rounded linear interpolation of its
    two counters. *)
Lemma interpolate_get (baseline_map first_inner_map : Dict.t RateLimiter.Counters)
    (ratio : Q) (m : string) :
  In m (Dict.keys baseline_map) \/ In m (Dict.keys first_inner_map) ->
  let b := Dict.get_default m RateLimiter.zero baseline_map in
  let f := Dict.get_default m b first_inner_map in
  Dict.get m (RateLimiter._interpolate_snapshot_map baseline_map first_inner_map ratio)
  = Some (RateLimiter.mkCounters
            (Py.round (inject_Z (RateLimiter.total_tokens b) +
                       ratio * inject_Z (RateLimiter.total_tokens f -
                                         RateLimiter.total_tokens b)))
            (Py.round (inject_Z (RateLimiter.request_count b) +
                       ratio * inject_Z (RateLimiter.request_count f -
                                         RateLimiter.request_count b)))).
Proof.
  intros H b f. unfold RateLimiter._interpolate_snapshot_map.
  match goal with
  | |- Dict.get m (fold_left ?F ?ks ?init) = _ =>
      destruct (fold_set_get
        (fun model_name =>
           let baseline_rec := Dict.get_default model_name RateLimiter.zero baseline_map in
           let inner_rec := Dict.get_default model_name baseline_rec first_inner_map in
           RateLimiter.mkCounters
             (Py.round (inject_Z (RateLimiter.total_tokens baseline_rec) +
                        ratio * inject_Z (RateLimiter.total_tokens inner_rec -
                                          RateLimiter.total_tokens baseline_rec)))
             (Py.round (inject_Z (RateLimiter.request_count baseline_rec) +
                        ratio * inject_Z (RateLimiter.request_count inner_rec -
                                          RateLimiter.request_count baseline_rec))))
        ks init m) as [Hin _]
  end.
  apply Hin. apply in_or_app.
  destruct (in_dec string_dec m (Dict.keys baseline_map)) as [Hb|Hb]; [now left|].
  right. destruct H as [H|H]; [contradiction|].
  apply filter_In. split; [exact H|].
  unfold Dict.mem. apply get_None_not_in in Hb. now rewrite Hb.
Qed.




(** ** Two runs of the rate-limit engine *)

Lemma upsert_settled (s : Status.t) (table : list Status.t) :
  lookup_status (Status.config_id s) table = Some s ->
  RateLimiter.upsert_status s table = table.
Proof.
  unfold lookup_status.
  induction table as [|r table IH]; simpl; [discriminate|].
  destruct (Status.config_id r =? Status.config_id s); intro H.
  - now injection H as ->.
  - now rewrite IH.
Qed.

Lemma lookup_upsert_same (s : Status.t) (table : list Status.t) :
  lookup_status (Status.config_id s) (RateLimiter.upsert_status s table) = Some s.
Proof.
  unfold lookup_status.
  induction table as [|r table IH]; simpl.
  - now rewrite Z.eqb_refl.
  - destruct (Status.config_id r =? Status.config_id s) eqn:E; simpl.
    + now rewrite Z.eqb_refl.
    + now rewrite E.
Qed.

Lemma lookup_upsert_other (s : Status.t) (id : Z) (table : list Status.t) :
  Status.config_id s <> id ->
  lookup_status id (RateLimiter.upsert_status s table) = lookup_status id table.
Proof.
  intro Hne. unfold lookup_status.
  induction table as [|r table IH]; simpl.
  - apply Z.eqb_neq in Hne. now rewrite Hne.
  - destruct (Status.config_id r =? Status.config_id s) eqn:E; simpl.
    + apply Z.eqb_eq in E. rewrite E.
      apply Z.eqb_neq in Hne. now rewrite Hne.
    + destruct (Status.config_id r =? id); auto.
Qed.

Lemma lookup_upserts_other (rows : list Status.t) (id : Z) (table : list Status.t) :
  (forall s, In s rows -> Status.config_id s <> id) ->
  lookup_status id (upserts rows table) = lookup_status id table.
Proof.
  unfold upserts. revert table.
  induction rows as [|s rows IH]; intros table H; [reflexivity|].
  cbn [fold_left]. rewrite IH.
  - apply lookup_upsert_other. apply H. now left.
  - intros s' Hs'. apply H. now right.
Qed.

Lemma upserts_settle (rows table : list Status.t) :
  NoDup (map Status.config_id rows) ->
  forall s, In s rows ->
    lookup_status (Status.config_id s) (upserts rows table) = Some s.
Proof.
  unfold upserts. revert table.
  induction rows as [|r rows IH]; intros table Hnd s Hin; [destruct Hin|].
  inversion Hnd as [|? ? Hnotin Hnd']; subst. cbn [fold_left].
  destruct Hin as [->|Hin].
  - fold (upserts rows (RateLimiter.upsert_status s table)).
    rewrite lookup_upserts_other; [apply lookup_upsert_same|].
    intros s' Hs' E. apply Hnotin. rewrite <- E. now apply in_map.
  - now apply IH.
Qed.

Lemma upserts_fixed (rows table : list Status.t) :
  (forall s, In s rows -> lookup_status (Status.config_id s) table = Some s) ->
  upserts rows table = table.
Proof.
  unfold upserts.
  induction rows as [|r rows IH]; intro H; [reflexivity|].
  cbn [fold_left]. rewrite upsert_settled by (apply H; now left).
  apply IH. intros s Hs. apply H. now right.
Qed.

(** Upserting the same rows a second time changes nothing. *)
Lemma upserts_idempotent (rows table : list Status.t) :
  NoDup (map Status.config_id rows) ->
  upserts rows (upserts rows table) = upserts rows table.
Proof.
  intro Hnd. apply upserts_fixed. intros s Hs. now apply upserts_settle.
Qed.

Lemma upsert_without_stamp (s : Status.t) (table : list Status.t) :
  map without_stamp (RateLimiter.upsert_status s table) =
  RateLimiter.upsert_status (without_stamp s) (map without_stamp table).
Proof.
  induction table as [|r table IH]; [reflexivity|].
  cbn [RateLimiter.upsert_status map]. cbn [without_stamp Status.config_id].
  destruct (Status.config_id r =? Status.config_id s); cbn [map]; [reflexivity|].
  now rewrite IH.
Qed.

Lemma upserts_without_stamp (rows table : list Status.t) :
  map without_stamp (upserts rows table) =
  upserts (map without_stamp rows) (map without_stamp table).
Proof.
  unfold upserts. revert table.
  induction rows as [|s rows IH]; intro table; [reflexivity|].
  cbn [fold_left map]. now rewrite IH, upsert_without_stamp.
Qed.

Lemma status_row_id stamp config_id used_tokens used_requests window_start
    next_reset token_limit request_limit :
  Status.config_id
    (RateLimiter.status_row stamp config_id used_tokens used_requests
       window_start next_reset token_limit request_limit) = config_id.
Proof.
  unfold RateLimiter.status_row.
  destruct token_limit as [v|]; [destruct (0 <? v)|];
    (destruct request_limit as [w|]; [destruct (0 <? w)|]); reflexivity.
Qed.

Lemma status_row_stamp stamp stamp' config_id used_tokens used_requests
    window_start next_reset token_limit request_limit :
  without_stamp
    (RateLimiter.status_row stamp config_id used_tokens used_requests
       window_start next_reset token_limit request_limit) =
  without_stamp
    (RateLimiter.status_row stamp' config_id used_tokens used_requests
       window_start next_reset token_limit request_limit).
Proof.
  unfold RateLimiter.status_row.
  destruct token_limit as [v|]; [destruct (0 <? v)|];
    (destruct request_limit as [w|]; [destruct (0 <? w)|]); reflexivity.
Qed.

Section TwoRuns.
Variable tz_hours : Z.
Variable ilike : string -> string -> bool.
Variable fromisoformat : string -> option Z.

Let process := RateLimiter._process_config tz_hours ilike fromisoformat.
Let sync := RateLimiter.sync_limits tz_hours ilike fromisoformat.
Let window := RateLimiter.window_of tz_hours fromisoformat.
Let rows_of := produced tz_hours ilike fromisoformat.

Lemma sync_status now st :
  Store.rate_limit_status (sync now st) = upserts (rows_of now st) (Store.rate_limit_status st).
Proof.
  unfold sync, RateLimiter.sync_limits, rows_of, produced, upserts.
  cbn [Store.rate_limit_status].
  generalize (Store.rate_limit_status st) as table.
  induction (Store.rate_limit_configs st) as [|c cs IH]; intro table;
    [reflexivity|].
  cbn [fold_left flat_map]. rewrite fold_left_app, IH.
  destruct (RateLimiter._process_config _ _ _ _ _ c); reflexivity.
Qed.

Lemma process_id now rows c s :
  process now rows c = Some s -> Status.config_id s = Config.id c.
Proof.
  unfold process, RateLimiter._process_config.
  destruct (RateLimiter.window_of _ _ _ _) as [[ws nr]|]; [|discriminate].
  intro H. injection H as <-. apply status_row_id.
Qed.

Lemma produced_ids_NoDup now st :
  NoDup (map Config.id (Store.rate_limit_configs st)) ->
  NoDup (map Status.config_id (rows_of now st)).
Proof.
  unfold rows_of, produced.
  induction (Store.rate_limit_configs st) as [|c cs IH]; intro Hnd;
    [constructor|].
  inversion Hnd as [|? ? Hnotin Hnd']; subst. cbn [flat_map].
  destruct (RateLimiter._process_config _ _ _ _ _ c) as [s|] eqn:E;
    cbn [app map]; [|auto].
  constructor; [|auto].
  intro Hin. apply Hnotin.
  rewrite (process_id _ _ _ _ E) in Hin.
  apply in_map_iff in Hin. destruct Hin as (s' & Hid & Hs').
  apply in_flat_map in Hs'. destruct Hs' as (c' & Hc' & Hs').
  destruct (RateLimiter._process_config _ _ _ _ _ c') as [s''|] eqn:E';
    [|destruct Hs'].
  destruct Hs' as [->|[]].
  rewrite <- Hid, (process_id _ _ _ _ E'). now apply in_map.
Qed.

Lemma process_same_window now1 now2 rows c :
  window now1 c = window now2 c ->
  option_map without_stamp (process now1 rows c) =
  option_map without_stamp (process now2 rows c).
Proof.
  unfold window, process, RateLimiter._process_config. intros ->.
  destruct (RateLimiter.window_of _ _ _ _) as [[ws nr]|]; [|reflexivity].
  cbn [option_map]. f_equal. apply status_row_stamp.
Qed.

Lemma produced_same_window now1 now2 st :
  (forall c, In c (Store.rate_limit_configs st) -> window now1 c = window now2 c) ->
  map without_stamp (rows_of now1 st) = map without_stamp (rows_of now2 st).
Proof.
  unfold rows_of, produced.
  induction (Store.rate_limit_configs st) as [|c cs IH]; intro H;
    [reflexivity|].
  cbn [flat_map]. rewrite !map_app. f_equal.
  - pose proof (process_same_window now1 now2 (Store.model_usage st) c
                  (H c (or_introl eq_refl))) as E.
    unfold process in E.
    destruct (RateLimiter._process_config _ _ _ now1 _ c),
             (RateLimiter._process_config _ _ _ now2 _ c);
      cbn [option_map] in E; try discriminate; [|reflexivity].
    cbn [map].
    exact (f_equal (fun o => match o with Some x => [x] | None => [] end) E).
  - apply IH. intros c' Hc'. apply H. now right.
Qed.

Lemma NoDup_ids_without_stamp (rows : list Status.t) :
  map Status.config_id (map without_stamp rows) = map Status.config_id rows.
Proof. rewrite map_map. reflexivity. Qed.

(** Two runs over the same rows and configs. *)
Lemma two_runs now1 now2 st :
  NoDup (map Config.id (Store.rate_limit_configs st)) ->
  (forall c, In c (Store.rate_limit_configs st) -> window now1 c = window now2 c) ->
  map without_stamp (Store.rate_limit_status (sync now2 (sync now1 st))) =
  map without_stamp (Store.rate_limit_status (sync now1 st)).
Proof.
  intros Hnd Hw.
  rewrite (sync_status now2 (sync now1 st)).
  assert (E : rows_of now2 (sync now1 st) = rows_of now2 st) by reflexivity.
  rewrite E, (sync_status now1 st), !upserts_without_stamp.
  rewrite <- (produced_same_window now1 now2 st Hw).
  apply upserts_idempotent.
  rewrite NoDup_ids_without_stamp. now apply produced_ids_NoDup.
Qed.

Lemma two_runs_same_clock now st :
  NoDup (map Config.id (Store.rate_limit_configs st)) ->
  sync now (sync now st) = sync now st.
Proof.
  intro Hnd.
  pose proof (sync_status now (sync now st)) as E2.
  assert (E : rows_of now (sync now st) = rows_of now st) by reflexivity.
  rewrite E, (sync_status now st), upserts_idempotent in E2
    by now apply produced_ids_NoDup.
  rewrite <- (sync_status now st) in E2.
  unfold sync, RateLimiter.sync_limits in *.
  cbn [Store.rate_limit_status Store.usage_snapshots Store.model_usage
       Store.daily_stats Store.credential_usage_summary
       Store.rate_limit_configs] in *.
  now rewrite E2.
Qed.
End TwoRuns.

(** C8, as the code has it.  A run reads the clock: it stamps
    [last_updated] and derives the window from it.  Two runs over the same
    rows and configs (with distinct config ids) therefore agree on every
    field but [last_updated] when each config has the same window at both
    clock readings, and agree entirely when the clock readings are equal;
    the engine itself changes neither the rows nor the configs. *)
Theorem C8_two_runs_same_window :
  forall tz_hours ilike fromisoformat now1 now2 st,
    let sync := RateLimiter.sync_limits tz_hours ilike fromisoformat in
    NoDup (map Config.id (Store.rate_limit_configs st)) ->
    (forall c, In c (Store.rate_limit_configs st) ->
       RateLimiter.window_of tz_hours fromisoformat now1 c =
       RateLimiter.window_of tz_hours fromisoformat now2 c) ->
    Store.model_usage (sync now1 st) = Store.model_usage st /\
    Store.rate_limit_configs (sync now1 st) = Store.rate_limit_configs st /\
    map without_stamp (Store.rate_limit_status (sync now2 (sync now1 st))) =
      map without_stamp (Store.rate_limit_status (sync now1 st)) /\
    (now1 = now2 -> sync now2 (sync now1 st) = sync now1 st).
Proof.
  intros tz ilike fromiso now1 now2 st sync Hnd Hw.
  split; [reflexivity|]. split; [reflexivity|]. split.
  - now apply two_runs.
  - intros <-. now apply two_runs_same_clock.
Qed.

Lemma C8_two_runs_witness :
  map without_stamp
    (Store.rate_limit_status
       (RateLimiter.sync_limits 7 Time.ilike Time.fromisoformat
          (Examples.wednesday + 200 * RateLimiter.usec_per_second)
          (RateLimiter.sync_limits 7 Time.ilike Time.fromisoformat
             Examples.wednesday Examples.weekly_store))) =
  map without_stamp
    (Store.rate_limit_status
       (RateLimiter.sync_limits 7 Time.ilike Time.fromisoformat
          Examples.wednesday Examples.weekly_store)).
Proof.
  destruct (C8_two_runs_same_window 7 Time.ilike Time.fromisoformat
              Examples.wednesday
              (Examples.wednesday + 200 * RateLimiter.usec_per_second)
              Examples.weekly_store) as (_ & _ & H & _).
  - repeat constructor. simpl. tauto.
  - intros c [<-|[]]. vm_compute. reflexivity.
  - exact H.
Defined.

(** C8 as stated fails: with no new rows, a rolling one-hour config run at
    two clock readings 200 s apart reports 400 used tokens, then 387; the
    window start and [last_updated] differ as well. *)
Lemma C8_counterexample :
  let sync := RateLimiter.sync_limits 7 Time.ilike Time.fromisoformat in
  let st1 := sync Examples.first_run Examples.rolling_store in
  let st2 := sync Examples.second_run st1 in
  Store.model_usage st2 = Store.model_usage Examples.rolling_store /\
  map Status.used_tokens (Store.rate_limit_status st1) = [400] /\
  map Status.used_tokens (Store.rate_limit_status st2) = [387] /\
  map Status.last_updated (Store.rate_limit_status st1) = [Examples.first_run] /\
  map Status.last_updated (Store.rate_limit_status st2) = [Examples.second_run] /\
  Store.rate_limit_status st2 <> Store.rate_limit_status st1.
Proof.
  cbv zeta. repeat split; try (vm_compute; reflexivity).
  vm_compute. discriminate.
Qed.

(** ** Fetch failures *)

(** C9.  When the usage fetch yields nothing, the tick leaves the store as
    it was (no snapshot, per-model row or day row), and so does the
    credential sync; when only the auth-files fetch fails, the credential
    sync aggregates against an empty catalog and writes the summary row. *)
Theorem C9_fetch_failures :
  (forall tz_hours remote now st,
      Collector.run_full_sync_once tz_hours remote now None st = st) /\
  (forall now auth st,
      CredentialStatsSync.sync now None auth st =
        (CredentialStatsSync.mkStats 0 0 true, st)) /\
  (forall now data st,
      Usage.nonempty data = true ->
      let out := CredentialStatsSync.sync now (Some data) None st in
      let stats := CredentialStatsSync.aggregate_stats data [] in
      out = CredentialStatsSync.sync now (Some data) (Some []) st /\
      CredentialStatsSync.error (fst out) = false /\
      Store.credential_usage_summary (snd out) =
        Some (Summary.mk (fst stats) (snd stats)
                (Z.of_nat (List.length (fst stats)))
                (Z.of_nat (List.length (snd stats))) now)).
Proof.
  split; [reflexivity|]. split; [reflexivity|].
  intros now data st Hne out stats. subst out stats.
  unfold CredentialStatsSync.sync. rewrite Hne.
  destruct (CredentialStatsSync.aggregate_stats data []) as [cs ks].
  repeat split.
Qed.

Lemma C9_fetch_failures_witness :
  CredentialStatsSync.error
    (fst (CredentialStatsSync.sync Examples.t1 (Some Examples.S1) None Store.empty))
  = false.
Proof.
  destruct C9_fetch_failures as (_ & _ & H).
  destruct (H Examples.t1 Examples.S1 Store.empty) as (_ & E & _).
  - reflexivity.
  - exact E.
Defined.

(** ** Consistency of the aggregated records *)

Section AggregateInvariant.
Import CredentialStatsSync.

(** The invariant on the accumulators, before emission. *)
Let cred_ok (c : CredAgg) : Prop :=
  let ms := Dict.values (c_models c) in
  c_success_count c + c_failure_count c = c_total_requests c /\
  c_total_requests c = Zsum (map CredModel.requests ms) /\
  c_input_tokens c = Zsum (map CredModel.input_tokens ms) /\
  c_output_tokens c = Zsum (map CredModel.output_tokens ms) /\
  c_reasoning_tokens c = Zsum (map CredModel.reasoning_tokens ms) /\
  c_cached_tokens c = Zsum (map CredModel.cached_tokens ms) /\
  c_total_tokens c = Zsum (map CredModel.total_tokens ms).

Let key_ok (k : KeyAgg) : Prop :=
  let ms := Dict.values (k_models k) in
  k_success_count k + k_failure_count k = k_total_requests k /\
  k_total_requests k = Zsum (map KeyModel.requests ms) /\
  k_total_tokens k = Zsum (map KeyModel.tokens ms).

Let agg_ok (a : Agg) : Prop :=
  Forall cred_ok (Dict.values (fst a)) /\ Forall key_ok (Dict.values (snd a)).

Lemma cred_default_ok : cred_ok cred_default.
Proof. repeat split. Qed.

Lemma key_default_ok : key_ok key_default.
Proof. repeat split. Qed.

Lemma update_cred_ok info api_key_name model_name d cred :
  cred_ok cred -> cred_ok (update_cred info api_key_name model_name d cred).
Proof.
  intros (H1 & H2 & H3 & H4 & H5 & H6 & H7).
  unfold cred_ok, update_cred.
  cbn [c_models c_success_count c_failure_count c_total_requests
       c_input_tokens c_output_tokens c_reasoning_tokens c_cached_tokens
       c_total_tokens].
  rewrite (Zsum_set CredModel.requests _ _ _ CredModel.zero),
          (Zsum_set CredModel.input_tokens _ _ _ CredModel.zero),
          (Zsum_set CredModel.output_tokens _ _ _ CredModel.zero),
          (Zsum_set CredModel.reasoning_tokens _ _ _ CredModel.zero),
          (Zsum_set CredModel.cached_tokens _ _ _ CredModel.zero),
          (Zsum_set CredModel.total_tokens _ _ _ CredModel.zero)
    by reflexivity.
  cbn [CredModel.requests CredModel.input_tokens CredModel.output_tokens
       CredModel.reasoning_tokens CredModel.cached_tokens
       CredModel.total_tokens].
  destruct (Usage.failed d); repeat split; lia.
Qed.

Lemma update_key_ok cred_key model_name d ak :
  key_ok ak -> key_ok (update_key cred_key model_name d ak).
Proof.
  intros (H1 & H2 & H3).
  unfold key_ok, update_key.
  cbn [k_models k_success_count k_failure_count k_total_requests k_total_tokens].
  rewrite (Zsum_set KeyModel.requests _ _ _ KeyModel.zero),
          (Zsum_set KeyModel.tokens _ _ _ KeyModel.zero) by reflexivity.
  cbn [KeyModel.requests KeyModel.tokens].
  destruct (Usage.failed d); repeat split; lia.
Qed.

Variables by_auth_index by_name : Dict.t CredInfo.t.

Lemma detail_step_ok api_key_name model_name acc d :
  agg_ok acc ->
  agg_ok (detail_step by_auth_index by_name api_key_name model_name acc d).
Proof.
  intros [Hc Hk]. unfold agg_ok, detail_step. cbn [fst snd]. split.
  - apply Forall_values_set; [|exact Hc].
    apply update_cred_ok.
    apply get_default_Forall; [exact cred_default_ok | exact Hc].
  - apply Forall_values_set; [|exact Hk].
    apply update_key_ok.
    apply get_default_Forall; [exact key_default_ok | exact Hk].
Qed.

Lemma model_step_ok api_key_name acc m :
  agg_ok acc -> agg_ok (model_step by_auth_index by_name api_key_name acc m).
Proof.
  unfold model_step. revert acc.
  induction (Usage.details (snd m)) as [|d ds IH]; intros acc H; [exact H|].
  cbn [fold_left]. apply IH. now apply detail_step_ok.
Qed.

Lemma api_step_ok acc a :
  agg_ok acc -> agg_ok (api_step by_auth_index by_name acc a).
Proof.
  intros [Hc Hk]. unfold api_step.
  assert (H0 : agg_ok (fst acc,
                       Dict.set (fst a)
                         (Dict.get_default (fst a) key_default (snd acc)) (snd acc))).
  { split; [exact Hc|]. cbn [snd].
    apply Forall_values_set; [|exact Hk].
    apply get_default_Forall; [exact key_default_ok | exact Hk]. }
  revert H0. generalize (fst acc,
                         Dict.set (fst a)
                           (Dict.get_default (fst a) key_default (snd acc)) (snd acc)).
  induction (Usage.models (snd a)) as [|m ms IH]; intros acc' H; [exact H|].
  cbn [fold_left]. apply IH. now apply model_step_ok.
Qed.

Lemma fold_api_step_ok apis acc :
  agg_ok acc -> agg_ok (fold_left (api_step by_auth_index by_name) apis acc).
Proof.
  revert acc. induction apis as [|a apis IH]; intros acc H; [exact H|].
  cbn [fold_left]. apply IH. now apply api_step_ok.
Qed.

Lemma emit_cred_ok kv : cred_ok (snd kv) -> cred_consistent (emit_cred kv).
Proof. intro H. exact H. Qed.

Lemma emit_key_ok kv : key_ok (snd kv) -> key_consistent (emit_key kv).
Proof. intro H. exact H. Qed.

Lemma Forall_emit {A B} (P : A -> Prop) (Q : B -> Prop) (f : string * A -> B)
    (d : Dict.t A) :
  (forall kv, P (snd kv) -> Q (f kv)) ->
  Forall P (Dict.values d) -> Forall Q (map f d).
Proof.
  intro Hf. unfold Dict.values.
  induction d as [|kv d IH]; cbn [map]; intro H; constructor;
    inversion H; subst; auto.
Qed.

Lemma aggregate_ok_with apis :
  let agg := fold_left (api_step by_auth_index by_name) apis
                       (Dict.empty, Dict.empty) in
  Forall cred_consistent (map emit_cred (fst agg)) /\
  Forall key_consistent (map emit_key (snd agg)).
Proof.
  intro agg.
  assert (H : agg_ok agg).
  { apply fold_api_step_ok. split; constructor. }
  destruct H as [Hc Hk]. split.
  - exact (Forall_emit _ _ _ _ emit_cred_ok Hc).
  - exact (Forall_emit _ _ _ _ emit_key_ok Hk).
Qed.
End AggregateInvariant.

Lemma Forall_insert_desc {A} (key : A -> Z) (P : A -> Prop) (x : A) (l : list A) :
  P x -> Forall P l -> Forall P (CredentialStatsSync.insert_desc key x l).
Proof.
  intro Hx. induction l as [|y l IH]; cbn [CredentialStatsSync.insert_desc];
    intro H.
  - constructor; auto.
  - destruct (key y <=? key x); [constructor; auto|].
    inversion H; subst. constructor; auto.
Qed.

Lemma Forall_sort_desc {A} (key : A -> Z) (P : A -> Prop) (l : list A) :
  Forall P l -> Forall P (CredentialStatsSync.sort_desc key l).
Proof.
  unfold CredentialStatsSync.sort_desc.
  induction l as [|x l IH]; cbn [fold_right]; intro H; [constructor|].
  inversion H; subst. apply Forall_insert_desc; auto.
Qed.

(** C10.  Every credential record and every API-key record that
    [aggregate_stats] emits has [success_count + failure_count =
    total_requests], has [total_requests] equal to the sum of the requests
    of its per-model sub-counters, and has each token total equal to the sum
    of that field over its per-model sub-counters. *)
Theorem C10_aggregates_consistent :
  forall usage_data auth_files,
    Forall cred_consistent
      (fst (CredentialStatsSync.aggregate_stats usage_data auth_files)) /\
    Forall key_consistent
      (snd (CredentialStatsSync.aggregate_stats usage_data auth_files)).
Proof.
  intros usage_data auth_files.
  unfold CredentialStatsSync.aggregate_stats, CredentialStatsSync.aggregate.
  cbn [fst snd].
  destruct (aggregate_ok_with
              (fst (CredentialStatsSync.build_auth_index_map auth_files))
              (snd (CredentialStatsSync.build_auth_index_map auth_files))
              (CredentialStatsSync.apis_of usage_data)) as [Hc Hk].
  split; apply Forall_sort_desc; assumption.
Qed.

(** * Further properties of the code *)

(** ** Pricing *)

Lemma lower_ascii_idem (c : ascii) :
  Py.lower_ascii (Py.lower_ascii c) = Py.lower_ascii c.
Proof.
  destruct c as [[] [] [] [] [] [] [] []]; vm_compute; reflexivity.
Qed.

Lemma lower_idem (s : string) : Py.lower (Py.lower s) = Py.lower s.
Proof.
  induction s as [|c s IH]; [reflexivity|].
  cbn [Py.lower]. now rewrite lower_ascii_idem, IH.
Qed.

(** Price resolution does not depend on the case of the model name: the
    name and its lower-case form resolve to the same entry and flag. *)
Lemma find_pricing_case_insensitive :
  forall model_name pricing,
    Pricing.find_pricing_for_model (Py.lower model_name) pricing =
    Pricing.find_pricing_for_model model_name pricing.
Proof.
  intros. unfold Pricing.find_pricing_for_model. now rewrite lower_idem.
Qed.

Lemma get_set_not_None {V} (k k' : string) (v : V) (d : Dict.t V) :
  Dict.get k d <> None -> Dict.get k (Dict.set k' v d) <> None.
Proof.
  intro H. rewrite get_set. destruct (String.eqb k k'); [discriminate|exact H].
Qed.

Lemma get_merge_not_None {V} (a b : Dict.t V) (k : string) :
  Dict.get k a <> None -> Dict.get k (Dict.merge a b) <> None.
Proof.
  unfold Dict.merge. revert a.
  induction b as [|[k' v'] b IH]; intros a H; [exact H|].
  cbn [fold_left fst snd]. apply IH. now apply get_set_not_None.
Qed.

Lemma get_merge_absent {V} (a b : Dict.t V) (k : string) :
  Dict.get k b = None -> Dict.get k (Dict.merge a b) = Dict.get k a.
Proof.
  unfold Dict.merge. revert a.
  induction b as [|[k' v'] b IH]; intros a H; [reflexivity|].
  cbn [fold_left fst snd]. cbn [Dict.get] in H.
  destruct (String.eqb k k') eqn:E; [discriminate|].
  rewrite (IH _ H). apply get_set_other. now apply String.eqb_neq.
Qed.

(** The built-in table stays usable under any remote overlay: a built-in
    model keeps an entry in the merged table, with its built-in price unless
    the overlay names that very key; in particular the merged table always
    has a [_default] entry. *)
Theorem X_builtin_keys_survive_overlay :
  forall remote k p,
    Dict.get k Pricing.DEFAULT_PRICING = Some p ->
    Dict.get k (Pricing.get_model_pricing remote) <> None /\
    (Dict.get k remote = None ->
     Dict.get k (Pricing.get_model_pricing remote) = Some p) /\
    Dict.get "_default" (Pricing.get_model_pricing remote) <> None.
Proof.
  intros remote k p Hk. unfold Pricing.get_model_pricing.
  destruct remote as [|kv remote].
  - rewrite Hk. repeat split; discriminate.
  - split; [|split].
    + apply get_merge_not_None. rewrite Hk. discriminate.
    + intro H. now rewrite get_merge_absent.
    + apply get_merge_not_None. discriminate.
Qed.

Lemma X_builtin_keys_survive_overlay_witness :
  Dict.get "gpt-4o" (Pricing.get_model_pricing
                       [("gpt-5", Pricing.mkPrice 1.25 10 (Some "openai"))])
  = Some (Pricing.P 2.50 10.00).
Proof.
  destruct (X_builtin_keys_survive_overlay
              [("gpt-5", Pricing.mkPrice 1.25 10 (Some "openai"))]
              "gpt-4o" (Pricing.P 2.50 10.00) eq_refl) as (_ & H & _).
  apply H. reflexivity.
Defined.

Lemma first_substring_match_app (ml : string) (pre post : Pricing.table) :
  (forall kp, In kp pre -> substring_hit (fst kp) ml = false) ->
  Pricing.first_substring_match ml (pre ++ post)%list =
  Pricing.first_substring_match ml post.
Proof.
  induction pre as [|[k p] pre IH]; intro H; [reflexivity|].
  cbn [app Pricing.first_substring_match].
  pose proof (H (k, p) (or_introl eq_refl)) as Hk.
  unfold substring_hit in Hk. cbn [fst] in Hk. rewrite Hk.
  apply IH. intros kp Hin. apply H. now right.
Qed.

(** Without an exact match, the price is that of the first key, in table
    order, that contains the lower-cased name or is contained in it; later
    and longer matching keys are not considered. *)
Theorem X_first_substring_key_wins :
  forall model_name pre k p post,
    let model_lower := Py.lower model_name in
    Dict.get model_lower (pre ++ (k, p) :: post)%list = None ->
    (forall kp, In kp pre -> substring_hit (fst kp) model_lower = false) ->
    substring_hit k model_lower = true ->
    Pricing.find_pricing_for_model model_name (pre ++ (k, p) :: post)%list = (p, true).
Proof.
  intros model_name pre k p post ml Hget Hpre Hk.
  unfold Pricing.find_pricing_for_model. fold ml. rewrite Hget.
  rewrite (first_substring_match_app ml pre _ Hpre).
  cbn [Pricing.first_substring_match].
  unfold substring_hit in Hk. now rewrite Hk.
Qed.

Lemma X_first_substring_key_wins_witness :
  Pricing.find_pricing_for_model "GPT-4o-mini-2024-07-18" Pricing.DEFAULT_PRICING
  = (Pricing.P 2.50 10.00, true).
Proof.
  apply (X_first_substring_key_wins "GPT-4o-mini-2024-07-18" []
           "gpt-4o" (Pricing.P 2.50 10.00) (tl Pricing.DEFAULT_PRICING)).
  - reflexivity.
  - intros kp [].
  - reflexivity.
Defined.

Lemma inject_Z_sub (x y : Z) : inject_Z (x - y) = (inject_Z x - inject_Z y)%Q.
Proof. unfold Z.sub. now rewrite inject_Z_plus, inject_Z_opp. Qed.



(** ** The remote price cache *)

(** Within an hour of the last successful fetch, a non-empty cache is
    served as it is: the response plays no part and the cache is not
    touched. *)
Theorem X_remote_cache_served_within_ttl :
  forall now response c,
    RemotePricing.remote_pricing_cache c <> [] ->
    (now - RemotePricing.remote_pricing_last_fetch c < 3600)%Q ->
    RemotePricing.fetch_remote_pricing now response c =
      (RemotePricing.remote_pricing_cache c, c).
Proof.
  intros now response c Hne Hlt.
  unfold RemotePricing.fetch_remote_pricing, RemotePricing.cache_fresh.
  destruct (RemotePricing.remote_pricing_cache c) as [|kv t]; [congruence|].
  apply Qltb_lt in Hlt. now rewrite Hlt.
Qed.

Lemma X_remote_cache_served_within_ttl_witness :
  RemotePricing.fetch_remote_pricing 1000 None
    (RemotePricing.mkCache [("gpt-5", Pricing.mkPrice 1.25 10 (Some "openai"))] 100)
  = ([("gpt-5", Pricing.mkPrice 1.25 10 (Some "openai"))],
     RemotePricing.mkCache [("gpt-5", Pricing.mkPrice 1.25 10 (Some "openai"))] 100).
Proof.
  apply (X_remote_cache_served_within_ttl 1000 None
           (RemotePricing.mkCache
              [("gpt-5", Pricing.mkPrice 1.25 10 (Some "openai"))] 100)).
  - discriminate.
  - vm_compute. reflexivity.
Defined.

(** Once the cache is an hour old (or empty), a failed fetch or a feed
    without a usable item yields the empty overlay, so prices come from the
    built-in table alone: the stale cache is kept but not served. *)
Theorem X_remote_failure_falls_back_to_builtin :
  forall now response c,
    RemotePricing.cache_fresh now c = false ->
    (response = None \/
     exists prices, response = Some prices /\
                    flat_map RemotePricing.entry_of prices = []) ->
    RemotePricing.fetch_remote_pricing now response c = ([], c) /\
    Pricing.get_model_pricing
      (fst (RemotePricing.fetch_remote_pricing now response c))
      = Pricing.DEFAULT_PRICING.
Proof.
  intros now response c Hf H.
  assert (E : RemotePricing.fetch_remote_pricing now response c = ([], c)).
  { unfold RemotePricing.fetch_remote_pricing. rewrite Hf.
    destruct H as [->|(prices & -> & Hp)]; [reflexivity|].
    unfold RemotePricing.pricing_of. now rewrite Hp. }
  split; [exact E|]. now rewrite E.
Qed.

Lemma X_remote_failure_witness :
  RemotePricing.fetch_remote_pricing 5000
    (Some [RemotePricing.mkItem "gpt-5" None (Some 10%Q) None])
    (RemotePricing.mkCache [("gpt-5", Pricing.mkPrice 1.25 10 (Some "openai"))] 100)
  = ([], RemotePricing.mkCache
           [("gpt-5", Pricing.mkPrice 1.25 10 (Some "openai"))] 100).
Proof.
  apply (X_remote_failure_falls_back_to_builtin 5000
           (Some [RemotePricing.mkItem "gpt-5" None (Some 10%Q) None])
           (RemotePricing.mkCache
              [("gpt-5", Pricing.mkPrice 1.25 10 (Some "openai"))] 100)).
  - vm_compute. reflexivity.
  - right. eexists. split; reflexivity.
Defined.

Lemma keys_set {V} (k : string) (v : V) (d : Dict.t V) :
  Dict.keys (Dict.set k v d) =
  if Dict.mem k d then Dict.keys d else (Dict.keys d ++ [k])%list.
Proof.
  unfold Dict.mem, Dict.keys.
  induction d as [|[k' v'] d IH]; [reflexivity|].
  cbn [Dict.set Dict.get]. destruct (String.eqb k k') eqn:E.
  - apply String.eqb_eq in E. now subst.
  - cbn [map fst]. rewrite IH. destruct (Dict.get k d); reflexivity.
Qed.

Lemma NoDup_keys_set {V} (k : string) (v : V) (d : Dict.t V) :
  NoDup (Dict.keys d) -> NoDup (Dict.keys (Dict.set k v d)).
Proof.
  intro H. rewrite keys_set. unfold Dict.mem.
  destruct (Dict.get k d) eqn:E; [exact H|].
  apply get_None_not_in in E.
  apply NoDup_app; [exact H | repeat constructor; intros [] | ].
  intros x Hx [<-|[]]. contradiction.
Qed.

Lemma Forall_keys_set {V} (P : string -> Prop) (k : string) (v : V) (d : Dict.t V) :
  P k -> Forall P (Dict.keys d) -> Forall P (Dict.keys (Dict.set k v d)).
Proof.
  intros Hk H. rewrite keys_set. destruct (Dict.mem k d); [exact H|].
  apply Forall_app. split; [exact H | constructor; auto].
Qed.

Lemma of_list_keys {V} (P : string -> Prop) (l : list (string * V)) (init : Dict.t V) :
  NoDup (Dict.keys init) -> Forall P (Dict.keys init) ->
  Forall (fun kv => P (fst kv)) l ->
  NoDup (Dict.keys (Dict.merge init l)) /\ Forall P (Dict.keys (Dict.merge init l)).
Proof.
  unfold Dict.merge. revert init.
  induction l as [|[k v] l IH]; intros init Hn Hp Hl; [auto|].
  inversion Hl; subst. cbn [fold_left fst snd].
  apply IH; auto using NoDup_keys_set, Forall_keys_set.
Qed.

Lemma entry_keys_lowercase (prices : list RemotePricing.Item) :
  Forall (fun kv => lowercase (fst kv)) (flat_map RemotePricing.entry_of prices).
Proof.
  induction prices as [|it prices IH]; [constructor|].
  cbn [flat_map]. apply Forall_app. split; [|exact IH].
  unfold RemotePricing.entry_of.
  destruct (Py.truthy _); [|constructor].
  destruct (RemotePricing.input it), (RemotePricing.output it); constructor;
    try constructor.
  apply lower_idem.
Qed.

(** The overlay handed to [get_model_pricing] and the cache kept for the
    next call always have pairwise distinct, lower-case keys, whatever the
    feed contains. *)
Theorem X_remote_keys_distinct_lowercase :
  forall now response c,
    let wf (t : Pricing.table) :=
      NoDup (Dict.keys t) /\ Forall lowercase (Dict.keys t) in
    wf (RemotePricing.remote_pricing_cache c) ->
    wf (fst (RemotePricing.fetch_remote_pricing now response c)) /\
    wf (RemotePricing.remote_pricing_cache
          (snd (RemotePricing.fetch_remote_pricing now response c))).
Proof.
  intros now response c wf Hc.
  assert (Hnil : wf []) by (split; constructor).
  assert (Hp : forall prices, wf (RemotePricing.pricing_of prices)).
  { intro prices. unfold wf, RemotePricing.pricing_of, Dict.of_list.
    apply of_list_keys; try constructor. apply entry_keys_lowercase. }
  unfold RemotePricing.fetch_remote_pricing.
  destruct (RemotePricing.cache_fresh now c); [auto|].
  destruct response as [prices|]; [|auto].
  specialize (Hp prices).
  destruct (RemotePricing.pricing_of prices) as [|kv t]; cbn [fst snd]; auto.
Qed.

Lemma X_remote_keys_witness :
  NoDup (Dict.keys
           (fst (RemotePricing.fetch_remote_pricing 0
                   (Some [RemotePricing.mkItem "GPT-5" (Some 1.25%Q) (Some 10%Q) None;
                          RemotePricing.mkItem "gpt-5" (Some 2%Q) (Some 12%Q) None])
                   RemotePricing.initial))).
Proof.
  destruct (X_remote_keys_distinct_lowercase 0
              (Some [RemotePricing.mkItem "GPT-5" (Some 1.25%Q) (Some 10%Q) None;
                     RemotePricing.mkItem "gpt-5" (Some 2%Q) (Some 12%Q) None])
              RemotePricing.initial) as ((H & _) & _).
  - split; constructor.
  - exact H.
Defined.

(** ** The delta engine *)

Lemma prefix_pipe (c : ascii) (r : string) :
  String.prefix "|" (String c r) = Ascii.eqb c "|".
Proof.
  cbn [String.prefix].
  destruct (ascii_dec "|" c) as [<-|Hne].
  - rewrite Ascii.eqb_refl. now destruct r.
  - symmetry. apply Ascii.eqb_neq. congruence.
Qed.

Lemma split_pipe_free (s : string) : pipe_free s -> Py.split "|" s = [s].
Proof.
  unfold pipe_free. induction s as [|c r IH]; [reflexivity|].
  cbn [Py.contains Py.split]. rewrite prefix_pipe.
  destruct (Ascii.eqb c "|"); [discriminate|].
  cbn [orb]. intro H. now rewrite (IH H).
Qed.

Lemma split_at_pipe (a b : string) :
  pipe_free a -> Py.split "|" (a ++ String "|" b) = a :: Py.split "|" b.
Proof.
  unfold pipe_free. induction a as [|c r IH].
  - intros _. reflexivity.
  - cbn [Py.contains]. rewrite prefix_pipe.
    change (String c r ++ String "|" b) with (String c (r ++ String "|" b)).
    cbn [Py.split].
    destruct (Ascii.eqb c "|"); [discriminate|].
    cbn [orb]. intro H. now rewrite (IH H).
Qed.

(** The key of a row decodes to the row's model and endpoint when neither
    contains the separator [|]: the breakdown is then attributed to the
    right model and endpoint. *)
Theorem X_usage_key_round_trip :
  forall r,
    let endpoint := Py.str_or (ModelUsage.api_endpoint r) "unknown" in
    pipe_free (ModelUsage.model_name r) ->
    pipe_free endpoint ->
    Py.split "|" (Collector.usage_key r) = [ModelUsage.model_name r; endpoint].
Proof.
  intros r endpoint Hm He. unfold Collector.usage_key. fold endpoint.
  change ("|" ++ endpoint) with (String "|" endpoint).
  rewrite split_at_pipe by exact Hm. now rewrite split_pipe_free.
Qed.

Lemma X_usage_key_round_trip_witness :
  Py.split "|"
    (Collector.usage_key
       (ModelUsage.mk 1 0 "gemini-2.5-flash" 0 10 0 0 100 ""))
  = ["gemini-2.5-flash"; "unknown"].
Proof.
  apply (X_usage_key_round_trip
           (ModelUsage.mk 1 0 "gemini-2.5-flash" 0 10 0 0 100 ""));
    reflexivity.
Defined.

Lemma key_delta_fields_nonneg prev curr :
  0 <= Collector.field ModelUsage.request_count 0 curr ->
  0 <= Collector.field ModelUsage.total_tokens 0 curr ->
  0 <= Collector.d_req (Collector.key_delta prev curr) /\
  0 <= Collector.d_tok (Collector.key_delta prev curr).
Proof.
  intros Hr Ht. unfold Collector.key_delta.
  destruct ((_ <? 0) || (_ <? 0)) eqn:E;
    cbn [Collector.d_req Collector.d_tok]; [now split|].
  apply orb_false_iff in E. destruct E as [E1 E2].
  apply Z.ltb_ge in E1, E2. auto.
Qed.

(** A per-key delta of requests or tokens is never negative when the
    current row has non-negative counters: a drop is replaced by the current
    value, a vanished key by zero. *)
Theorem X_key_delta_nonnegative :
  forall prev curr,
    (forall r, curr = Some r -> row_nonneg r) ->
    0 <= Collector.d_req (Collector.key_delta prev curr) /\
    0 <= Collector.d_tok (Collector.key_delta prev curr).
Proof.
  intros prev curr H.
  destruct curr as [r|].
  - destruct (H r eq_refl) as [Hr Ht]. now apply key_delta_fields_nonneg.
  - apply key_delta_fields_nonneg; cbn [Collector.field]; lia.
Qed.

Lemma X_key_delta_nonnegative_witness :
  0 <= Collector.d_req
         (Collector.key_delta
            (Some (ModelUsage.mk 1 0 "gpt-4o" 0 1000 0 0 50000 "key1"))
            (Some (ModelUsage.mk 2 0 "gpt-4o" 0 200 0 0 10000 "key1"))).
Proof.
  apply (X_key_delta_nonnegative
           (Some (ModelUsage.mk 1 0 "gpt-4o" 0 1000 0 0 50000 "key1"))
           (Some (ModelUsage.mk 2 0 "gpt-4o" 0 200 0 0 10000 "key1"))).
  intros r H. injection H as <-. split; vm_compute; discriminate.
Defined.

Lemma get_merge_In {V} (a b : Dict.t V) (k : string) (v : V) :
  Dict.get k (Dict.merge a b) = Some v -> In (k, v) b \/ Dict.get k a = Some v.
Proof.
  unfold Dict.merge. revert a.
  induction b as [|[k' v'] b IH]; intros a H; [now right|].
  cbn [fold_left fst snd] in H. destruct (IH _ H) as [Hin|Hget].
  - left. now right.
  - rewrite get_set in Hget. destruct (String.eqb k k') eqn:E.
    + apply String.eqb_eq in E. injection Hget as ->. subst. left. now left.
    + now right.
Qed.

Lemma usage_map_get (rows : list ModelUsage.t) (k : string) (r : ModelUsage.t) :
  Dict.get k (Collector.usage_map rows) = Some r -> In r rows.
Proof.
  unfold Collector.usage_map, Dict.of_list. intro H.
  apply get_merge_In in H. destruct H as [H|H]; [|discriminate].
  apply in_map_iff in H. destruct H as (x & E & Hx). now injection E as _ <-.
Qed.

Lemma model_records_nonneg pricing snapshot_id now usage :
  counters_nonneg usage ->
  Forall row_nonneg (Collector.model_records pricing snapshot_id now usage).
Proof.
  unfold counters_nonneg, Collector.model_records.
  induction (Usage.apis usage) as [|a apis IH]; intro H; [constructor|].
  inversion H as [|? ? Ha Hrest]; subst. cbn [flat_map].
  apply Forall_app. split; [|now apply IH].
  clear IH H Hrest.
  induction (Usage.models (snd a)) as [|m ms IHm]; [constructor|].
  inversion Ha; subst. constructor; [|now apply IHm]. assumption.
Qed.

Section BreakdownGrowth.
Variables prev_usage_map curr_usage_map : Dict.t ModelUsage.t.
Hypothesis curr_nonneg :
  forall k r, Dict.get k curr_usage_map = Some r -> row_nonneg r.

Let step := Collector.delta_step prev_usage_map curr_usage_map.

Lemma step_sums_nonneg incs b key :
  0 <= Collector.sum_requests (Breakdown.models b) /\
  0 <= Collector.sum_tokens (Breakdown.models b) ->
  0 <= Collector.sum_requests (Breakdown.models (snd (step (incs, b) key))) /\
  0 <= Collector.sum_tokens (Breakdown.models (snd (step (incs, b) key))).
Proof.
  intros [Hr Ht]. unfold step, Collector.delta_step.
  destruct (key_delta_fields_nonneg (Dict.get key prev_usage_map)
              (Dict.get key curr_usage_map)) as [Dr Dt].
  { destruct (Dict.get key curr_usage_map) as [r|] eqn:E;
      cbn [Collector.field]; [|lia]. exact (proj1 (curr_nonneg key r E)). }
  { destruct (Dict.get key curr_usage_map) as [r|] eqn:E;
      cbn [Collector.field]; [|lia]. exact (proj2 (curr_nonneg key r E)). }
  destruct (Collector.is_false_start _); [now split|].
  destruct ((0 <? _) || _); [|now split].
  cbn [snd Collector.add_delta Breakdown.models].
  rewrite sum_requests_add, sum_tokens_add. lia.
Qed.

Lemma loop_sums_nonneg keys incs b :
  0 <= Collector.sum_requests (Breakdown.models b) /\
  0 <= Collector.sum_tokens (Breakdown.models b) ->
  0 <= Collector.sum_requests (Breakdown.models (snd (fold_left step keys (incs, b)))) /\
  0 <= Collector.sum_tokens (Breakdown.models (snd (fold_left step keys (incs, b)))).
Proof.
  revert incs b. induction keys as [|k keys IH]; intros incs b H; [exact H|].
  cbn [fold_left]. pose proof (step_sums_nonneg incs b k H) as Hs.
  destruct (step (incs, b) k) as [i1 b1]. now apply IH.
Qed.
End BreakdownGrowth.

Lemma first_loop_sums_nonneg records b :
  Forall row_nonneg records ->
  0 <= Collector.sum_requests (Breakdown.models b) /\
  0 <= Collector.sum_tokens (Breakdown.models b) ->
  0 <= Collector.sum_requests
         (Breakdown.models (fold_left Collector.first_step records b)) /\
  0 <= Collector.sum_tokens
         (Breakdown.models (fold_left Collector.first_step records b)).
Proof.
  revert b. induction records as [|r records IH]; intros b Hr H; [exact H|].
  inversion Hr as [|? ? [R1 R2] Hrest]; subst. cbn [fold_left].
  apply IH; [exact Hrest|].
  unfold Collector.first_step, Collector.add_delta. cbn [Breakdown.models].
  rewrite sum_requests_add, sum_tokens_add. lia.
Qed.

Lemma tick_deltas_nonneg tz remote now data usage st :
  counters_nonneg usage ->
  let t := Collector.tick tz remote now data usage st in
  0 <= Collector.sum_requests (Breakdown.models (Collector.t_deltas t)) /\
  0 <= Collector.sum_tokens (Breakdown.models (Collector.t_deltas t)).
Proof.
  intros Hu t. subst t. unfold Collector.tick. cbn zeta.
  cbn [Collector.t_deltas].
  pose proof (model_records_nonneg (Pricing.get_model_pricing remote)
                (Z.of_nat (List.length (Store.usage_snapshots st)) + 1) now usage Hu)
    as Hrec.
  assert (H0 : 0 <= Collector.sum_requests (Breakdown.models Breakdown.empty) /\
               0 <= Collector.sum_tokens (Breakdown.models Breakdown.empty)).
  { split; vm_compute; discriminate. }
  destruct (hd_error (Store.usage_snapshots st)) as [prev|].
  - unfold Collector.granular_deltas. apply loop_sums_nonneg; [|exact H0].
    intros k r Hk. apply usage_map_get in Hk.
    rewrite Forall_forall in Hrec. now apply Hrec.
  - cbn [snd]. now apply first_loop_sums_nonneg.
Qed.

(** When the per-model counters of the document are non-negative, a tick
    never lowers the requests or the tokens that the day's breakdown
    accounts for, restart or not. *)
Theorem X_breakdown_never_shrinks :
  forall tz remote now data usage st,
    counters_nonneg usage ->
    let t := Collector.tick tz remote now data usage st in
    let before := Breakdown.models (DailyStat.breakdown (Collector.t_existing t)) in
    let after := Breakdown.models (DailyStat.breakdown (Collector.t_daily t)) in
    Collector.sum_requests before <= Collector.sum_requests after /\
    Collector.sum_tokens before <= Collector.sum_tokens after.
Proof.
  intros tz remote now data usage st Hu t before after.
  destruct (tick_deltas_nonneg tz remote now data usage st Hu) as [Dr Dt].
  fold t in Dr, Dt.
  assert (E : after = Collector.merge_models
                        (Breakdown.models (Collector.t_deltas t)) before)
    by reflexivity.
  rewrite E, sum_requests_merge, sum_tokens_merge. lia.
Qed.

Lemma X_breakdown_never_shrinks_witness :
  let t := Collector.tick 7 [] Examples.t2 Examples.S2
             (Usage.mk 200 200 0 10000
                [("key1", Usage.mkApiData
                    [("gemini-2.5-flash",
                      Usage.mkModelData 200 10000 [Examples.det 8000 2000])])])
             Examples.after_S1 in
  Collector.sum_requests
    (Breakdown.models (DailyStat.breakdown (Collector.t_existing t))) <=
  Collector.sum_requests
    (Breakdown.models (DailyStat.breakdown (Collector.t_daily t))).
Proof.
  cbv zeta.
  apply (X_breakdown_never_shrinks 7 [] Examples.t2 Examples.S2
           (Usage.mk 200 200 0 10000
              [("key1", Usage.mkApiData
                  [("gemini-2.5-flash",
                    Usage.mkModelData 200 10000 [Examples.det 8000 2000])])])
           Examples.after_S1).
  repeat constructor; vm_compute; discriminate.
Defined.

Lemma endpoint_requests_add endpoint model_name req tok cost es :
  Zsum (map BEndpoint.requests
          (Dict.values (Collector.add_to_endpoints endpoint model_name req tok cost es)))
  = Zsum (map BEndpoint.requests (Dict.values es)) + req.
Proof.
  unfold Collector.add_to_endpoints.
  rewrite (Zsum_set BEndpoint.requests _ _ _ BEndpoint.zero) by reflexivity.
  cbn [BEndpoint.requests]. lia.
Qed.

Lemma endpoint_tokens_add endpoint model_name req tok cost es :
  Zsum (map BEndpoint.tokens
          (Dict.values (Collector.add_to_endpoints endpoint model_name req tok cost es)))
  = Zsum (map BEndpoint.tokens (Dict.values es)) + tok.
Proof.
  unfold Collector.add_to_endpoints.
  rewrite (Zsum_set BEndpoint.tokens _ _ _ BEndpoint.zero) by reflexivity.
  cbn [BEndpoint.tokens]. lia.
Qed.

Lemma add_delta_agree model_name endpoint req tok cost in_tok out_tok b :
  endpoints_agree b ->
  endpoints_agree (Collector.add_delta model_name endpoint req tok cost in_tok out_tok b).
Proof.
  intros [Hr Ht]. unfold endpoints_agree, Collector.add_delta.
  cbn [Breakdown.models Breakdown.endpoints].
  rewrite endpoint_requests_add, endpoint_tokens_add,
          sum_requests_add, sum_tokens_add. lia.
Qed.

Lemma loop_agree prev_usage_map curr_usage_map keys incs b :
  endpoints_agree b ->
  endpoints_agree
    (snd (fold_left (Collector.delta_step prev_usage_map curr_usage_map) keys (incs, b))).
Proof.
  revert incs b. induction keys as [|k keys IH]; intros incs b H; [exact H|].
  cbn [fold_left].
  assert (Hs : endpoints_agree
                 (snd (Collector.delta_step prev_usage_map curr_usage_map (incs, b) k))).
  { unfold Collector.delta_step.
    destruct (Collector.is_false_start _); [exact H|].
    destruct ((0 <? _) || _); [|exact H].
    cbn [snd]. now apply add_delta_agree. }
  destruct (Collector.delta_step _ _ (incs, b) k) as [i1 b1]. now apply IH.
Qed.

Lemma first_loop_agree records b :
  endpoints_agree b ->
  endpoints_agree (fold_left Collector.first_step records b).
Proof.
  revert b. induction records as [|r records IH]; intros b H; [exact H|].
  cbn [fold_left]. apply IH. unfold Collector.first_step.
  now apply add_delta_agree.
Qed.

Lemma endpoint_requests_merge deltas existing :
  Zsum (map BEndpoint.requests (Dict.values (Collector.merge_endpoints deltas existing)))
  = Zsum (map BEndpoint.requests (Dict.values existing)) +
    Zsum (map BEndpoint.requests (Dict.values deltas)).
Proof.
  unfold Collector.merge_endpoints. revert existing.
  induction deltas as [|[k v] deltas IH]; intro existing.
  - cbn [fold_left]. change (Zsum (map BEndpoint.requests (Dict.values []))) with 0.
    lia.
  - cbn [fold_left fst snd]. rewrite IH.
    rewrite (Zsum_set BEndpoint.requests _ _ _ BEndpoint.zero) by reflexivity.
    cbn [BEndpoint.requests].
    change (Dict.values ((k, v) :: deltas)) with (v :: Dict.values deltas).
    cbn [map]. rewrite Zsum_cons. lia.
Qed.

Lemma endpoint_tokens_merge deltas existing :
  Zsum (map BEndpoint.tokens (Dict.values (Collector.merge_endpoints deltas existing)))
  = Zsum (map BEndpoint.tokens (Dict.values existing)) +
    Zsum (map BEndpoint.tokens (Dict.values deltas)).
Proof.
  unfold Collector.merge_endpoints. revert existing.
  induction deltas as [|[k v] deltas IH]; intro existing.
  - cbn [fold_left]. change (Zsum (map BEndpoint.tokens (Dict.values []))) with 0.
    lia.
  - cbn [fold_left fst snd]. rewrite IH.
    rewrite (Zsum_set BEndpoint.tokens _ _ _ BEndpoint.zero) by reflexivity.
    cbn [BEndpoint.tokens].
    change (Dict.values ((k, v) :: deltas)) with (v :: Dict.values deltas).
    cbn [map]. rewrite Zsum_cons. lia.
Qed.

(** The breakdown by endpoint and the breakdown by model account for the
    same requests and tokens: this holds of the deltas of every tick, and
    the merge keeps it on the day's row. *)
Theorem X_endpoints_and_models_agree :
  forall tz remote now data usage st,
    let t := Collector.tick tz remote now data usage st in
    endpoints_agree (Collector.t_deltas t) /\
    (endpoints_agree (DailyStat.breakdown (Collector.t_existing t)) ->
     endpoints_agree (DailyStat.breakdown (Collector.t_daily t))).
Proof.
  intros tz remote now data usage st t.
  assert (H0 : endpoints_agree Breakdown.empty) by (split; reflexivity).
  assert (Hd : endpoints_agree (Collector.t_deltas t)).
  { subst t. unfold Collector.tick. cbn zeta. cbn [Collector.t_deltas].
    destruct (hd_error (Store.usage_snapshots st)) as [prev|].
    - unfold Collector.granular_deltas. now apply loop_agree.
    - cbn [snd]. now apply first_loop_agree. }
  split; [exact Hd|].
  intros [Er Et]. destruct Hd as [Dr Dt].
  assert (E : DailyStat.breakdown (Collector.t_daily t) =
              Collector.merge_breakdown (Collector.t_deltas t)
                (DailyStat.breakdown (Collector.t_existing t))) by reflexivity.
  rewrite E. unfold endpoints_agree, Collector.merge_breakdown.
  cbn [Breakdown.models Breakdown.endpoints].
  rewrite endpoint_requests_merge, endpoint_tokens_merge,
          sum_requests_merge, sum_tokens_merge. lia.
Qed.

Lemma X_endpoints_and_models_agree_witness :
  endpoints_agree
    (DailyStat.breakdown
       (Collector.t_daily
          (Collector.tick 7 [] Examples.t1 Examples.S1
             (Usage.mk 1000 1000 0 50000
                [("key1", Usage.mkApiData
                    [("gemini-2.5-flash",
                      Usage.mkModelData 1000 50000 [Examples.det 40000 10000])])])
             Store.empty))).
Proof.
  apply (X_endpoints_and_models_agree 7 [] Examples.t1 Examples.S1
           (Usage.mk 1000 1000 0 50000
              [("key1", Usage.mkApiData
                  [("gemini-2.5-flash",
                    Usage.mkModelData 1000 50000 [Examples.det 40000 10000])])])
           Store.empty).
  split; reflexivity.
Defined.

Lemma find_daily_upsert_other (d : DailyStat.t) (day : Z) (rows : list DailyStat.t) :
  day <> DailyStat.stat_date d ->
  Collector.find_daily day (Collector.upsert_daily d rows) =
  Collector.find_daily day rows.
Proof.
  intro Hne. unfold Collector.find_daily.
  assert (Ed : (DailyStat.stat_date d =? day) = false)
    by (apply Z.eqb_neq; congruence).
  induction rows as [|r rows IH]; cbn [Collector.upsert_daily find].
  - now rewrite Ed.
  - destruct (DailyStat.stat_date r =? DailyStat.stat_date d) eqn:E;
      cbn [find].
    + apply Z.eqb_eq in E. rewrite Ed, E, Ed. reflexivity.
    + destruct (DailyStat.stat_date r =? day); [reflexivity|exact IH].
Qed.

(** [store_usage_data] only appends: earlier snapshots and per-model rows
    stay as they are, and of the day rows only today's is written; the rows
    of every other date, the credential summary and the rate-limit tables
    are left untouched. *)
Theorem X_store_appends_and_writes_today_only :
  forall tz remote now data st,
    let st' := snd (Collector.store_usage_data tz remote now data st) in
    (exists added, Store.usage_snapshots st' = (added ++ Store.usage_snapshots st)%list /\
                   (List.length added <= 1)%nat) /\
    (exists added, Store.model_usage st' = (Store.model_usage st ++ added)%list) /\
    (forall day, day <> Collector.local_day tz now ->
       Collector.find_daily day (Store.daily_stats st') =
       Collector.find_daily day (Store.daily_stats st)) /\
    Store.credential_usage_summary st' = Store.credential_usage_summary st /\
    Store.rate_limit_configs st' = Store.rate_limit_configs st /\
    Store.rate_limit_status st' = Store.rate_limit_status st.
Proof.
  intros tz remote now data st st'. subst st'.
  unfold Collector.store_usage_data.
  destruct (Usage.usage data) as [usage|]; cbn [snd].
  - cbn [Store.usage_snapshots Store.model_usage Store.daily_stats
         Store.credential_usage_summary Store.rate_limit_configs
         Store.rate_limit_status].
    split; [exists [Collector.t_snapshot (Collector.tick tz remote now data usage st)];
            split; [reflexivity|cbn; lia]|].
    split; [eexists; reflexivity|].
    split; [|auto].
    intros day Hne. now apply find_daily_upsert_other.
  - split; [exists []; split; [reflexivity|cbn; lia]|].
    split; [exists []; now rewrite app_nil_r|]. auto.
Qed.


Lemma clamp01_bounds (r : Q) : (0 <= clamp01 r <= 1)%Q.
Proof.
  unfold clamp01, Py.Qmax, Py.Qmin.
  destruct (Py.Qltb r 1) eqn:E1.
  - apply Qltb_lt in E1.
    destruct (Py.Qltb 0 r) eqn:E2; [apply Qltb_lt in E2|]; lra.
  - destruct (Py.Qltb 0 1); lra.
Qed.

Lemma int_of_floor (q : Q) : (0 <= q)%Q -> Py.int_of q = Qfloor q.
Proof.
  intro H. unfold Py.int_of. destruct q as [n d]. cbn [Qnum Qden Qfloor].
  apply Z.quot_div_nonneg; [|lia].
  unfold Qle in H. cbn in H. lia.
Qed.

Lemma scaled_count_bounds (n : Z) (r : Q) :
  0 <= n -> (0 <= r <= 1)%Q -> 0 <= Py.int_of (inject_Z n * r) <= n.
Proof.
  intros Hn [H0 H1].
  assert (Hq : (0 <= inject_Z n)%Q) by (rewrite <- (Zle_Qle 0); exact Hn).
  assert (Hlo : (0 <= inject_Z n * r)%Q) by (apply Qmult_le_0_compat; assumption).
  assert (Hhi : (inject_Z n * r <= inject_Z n)%Q).
  { nra. }
  rewrite (int_of_floor _ Hlo). split.
  - change 0 with (Qfloor 0). now apply Qfloor_resp_le.
  - rewrite <- (Qfloor_Z n) at 2. now apply Qfloor_resp_le.
Qed.

(** The override never raises a non-negative success or failure increment
    and never makes it negative: scaling multiplies by a ratio in [0,1] and
    truncates. *)
Theorem X_override_scaling_bounds :
  forall has_prev incs breakdown_deltas,
    0 <= Collector.inc_success incs ->
    0 <= Collector.inc_failure incs ->
    let r := Collector.consistency_override has_prev incs breakdown_deltas in
    0 <= Collector.inc_success r <= Collector.inc_success incs /\
    0 <= Collector.inc_failure r <= Collector.inc_failure incs.
Proof.
  intros has_prev incs b Hs Hf r. subst r.
  unfold Collector.consistency_override.
  destruct has_prev; [|lia].
  cbn [Collector.inc_success Collector.inc_failure].
  destruct (0 <? Collector.inc_requests incs); cbn [fst snd]; [|lia].
  match goal with
  | |- context [Py.Qltb (Py.Qmax 0 (Py.Qmin 1 ?q)) _] =>
      change (Py.Qmax 0 (Py.Qmin 1 q)) with (clamp01 q);
      pose proof (clamp01_bounds q) as Hc
  end.
  destruct (Py.Qltb _ 0.99); cbn [fst snd]; [|lia].
  split; now apply scaled_count_bounds.
Qed.

Lemma X_override_scaling_witness :
  let r := Collector.consistency_override true
             (Collector.mkIncs 100 90 10 5000 1)
             (Breakdown.mk [("gpt-4o", BModel.mk 29 1000 0 0 0)] []) in
  0 <= Collector.inc_success r <= 90.
Proof.
  cbv zeta.
  apply (X_override_scaling_bounds true (Collector.mkIncs 100 90 10 5000 1)
           (Breakdown.mk [("gpt-4o", BModel.mk 29 1000 0 0 0)] []));
    vm_compute; discriminate.
Defined.

(** ** The rate-limit engine *)

Lemma delta_of_maps_nonneg (current_map baseline_map : Dict.t RateLimiter.Counters) :
  0 <= RateLimiter.total_tokens (RateLimiter.delta_of_maps current_map baseline_map) /\
  0 <= RateLimiter.request_count (RateLimiter.delta_of_maps current_map baseline_map).
Proof.
  unfold RateLimiter.delta_of_maps.
  match goal with
  | |- context [fold_left ?F current_map RateLimiter.zero] => set (f := F)
  end.
  assert (H : forall m acc,
             0 <= RateLimiter.total_tokens acc /\ 0 <= RateLimiter.request_count acc ->
             0 <= RateLimiter.total_tokens (fold_left f m acc) /\
             0 <= RateLimiter.request_count (fold_left f m acc)).
  { induction m as [|kv m IH]; intros acc Hacc; [exact Hacc|].
    cbn [fold_left]. apply IH. subst f.
    cbn [RateLimiter.total_tokens RateLimiter.request_count]. lia. }
  apply H. split; reflexivity.
Qed.

(** The usage of a window is never negative, whatever the rows contain:
    every branch returns zero or a sum of deltas floored at zero. *)
Theorem X_usage_never_negative :
  forall ilike rows model_pattern since,
    let used := RateLimiter._calculate_usage ilike rows model_pattern since in
    0 <= RateLimiter.total_tokens used /\ 0 <= RateLimiter.request_count used.
Proof.
  intros ilike rows pattern since used. subst used.
  assert (Hz : 0 <= RateLimiter.total_tokens RateLimiter.zero /\
               0 <= RateLimiter.request_count RateLimiter.zero)
    by (split; reflexivity).
  unfold RateLimiter._calculate_usage,
         RateLimiter._calculate_delta_from_snapshots.
  destruct (RateLimiter.newest _) as [latest|]; [|exact Hz].
  destruct (latest <? since); [exact Hz|].
  destruct (RateLimiter.newest (filter _ _)) as [baseline|];
    destruct (RateLimiter.oldest (filter _ _)) as [first_inner|];
    try exact Hz; try apply delta_of_maps_nonneg.
  destruct (Py.Qltb _ _); apply delta_of_maps_nonneg.
Qed.

(** When every row that matches the pattern was written before the window
    started (in particular when none matches), the usage is zero. *)
Theorem X_usage_zero_without_rows_in_window :
  forall ilike rows model_pattern since,
    (forall r, In r rows -> ilike model_pattern (ModelUsage.model_name r) = true ->
               ModelUsage.created_at r < since) ->
    RateLimiter._calculate_usage ilike rows model_pattern since = RateLimiter.zero.
Proof.
  intros ilike rows pattern since H.
  unfold RateLimiter._calculate_usage.
  destruct (RateLimiter.newest _) as [latest|] eqn:E; [|reflexivity].
  apply newest_in in E. apply in_map_iff in E.
  destruct E as (r & <- & Hr). unfold RateLimiter.matching in Hr.
  apply filter_In in Hr. destruct Hr as [Hin Hm].
  specialize (H r Hin Hm). apply Z.ltb_lt in H. now rewrite H.
Qed.

Lemma X_usage_zero_witness :
  RateLimiter._calculate_usage Time.ilike Examples.gap_rows "gemini"
    (Time.instant 2023 10 24 0 0 0 420) = RateLimiter.zero.
Proof.
  apply (X_usage_zero_without_rows_in_window Time.ilike Examples.gap_rows
           "gemini" (Time.instant 2023 10 24 0 0 0 420)).
  intros r [<-|[<-|[<-|[]]]] _; vm_compute; reflexivity.
Defined.

Lemma percentage_bounds (p : Z) : 0 <= RateLimiter.clamp_percentage p <= 100.
Proof. unfold RateLimiter.clamp_percentage. lia. Qed.

Lemma int_of_zero_ratio (l : Z) : Py.int_of (inject_Z 0 / inject_Z l * 100) = 0.
Proof. unfold Py.int_of. destruct l; reflexivity. Qed.

Lemma int_of_full_ratio (l : Z) :
  0 < l -> Py.int_of (inject_Z l / inject_Z l * 100) = 100.
Proof.
  intro H.
  assert (Hq : (0 < inject_Z l)%Q) by (rewrite <- (Zlt_Qlt 0); exact H).
  assert (E : (inject_Z l / inject_Z l * 100 == inject_Z 100)%Q).
  { field. lra. }
  rewrite int_of_floor by (rewrite E; discriminate).
  rewrite E. apply Qfloor_Z.
Qed.

(** The status row of a config with a positive token limit: the percentage
    lies in [0,100] and the remaining tokens in [0, limit]; usage at or
    above the limit gives 0 remaining and 0 %, no usage gives 100 %. *)
Theorem X_status_token_bounds :
  forall stamp config_id used_tokens used_requests window_start next_reset
         limit request_limit,
    0 < limit ->
    let row := RateLimiter.status_row stamp config_id used_tokens used_requests
                 window_start next_reset (Some limit) request_limit in
    0 <= Status.percentage row <= 100 /\
    0 <= Status.remaining_tokens row <= Z.max limit (limit - used_tokens) /\
    Status.remaining_requests row = 0 /\
    (0 <= used_tokens -> Status.remaining_tokens row <= limit) /\
    (limit <= used_tokens ->
     Status.remaining_tokens row = 0 /\ Status.percentage row = 0) /\
    (used_tokens = 0 ->
     Status.remaining_tokens row = limit /\ Status.percentage row = 100).
Proof.
  intros stamp config_id used_tokens used_requests window_start next_reset
         limit request_limit Hl row.
  subst row. unfold RateLimiter.status_row.
  apply Z.ltb_lt in Hl. rewrite Hl. apply Z.ltb_lt in Hl.
  cbn [Status.percentage Status.remaining_tokens Status.remaining_requests].
  split; [apply percentage_bounds|].
  split; [lia|]. split; [reflexivity|]. split; [lia|]. split.
  - intro H. rewrite Z.max_l by lia. split; [reflexivity|].
    now rewrite int_of_zero_ratio.
  - intros ->. rewrite Z.sub_0_r, Z.max_r by lia. split; [reflexivity|].
    now rewrite (int_of_full_ratio limit Hl).
Qed.

Lemma X_status_token_bounds_witness :
  Status.percentage
    (RateLimiter.status_row 0 1 2500 10 0 0 (Some 1000) None) = 0.
Proof.
  destruct (X_status_token_bounds 0 1 2500 10 0 0 1000 None)
    as (_ & _ & _ & _ & H & _).
  - reflexivity.
  - apply H. vm_compute. discriminate.
Defined.

(** A status row always carries a percentage in [0,100] and non-negative
    remaining counters, with or without limits. *)
Theorem X_status_percentage_in_range :
  forall stamp config_id used_tokens used_requests window_start next_reset
         token_limit request_limit,
    let row := RateLimiter.status_row stamp config_id used_tokens used_requests
                 window_start next_reset token_limit request_limit in
    0 <= Status.percentage row <= 100 /\
    0 <= Status.remaining_tokens row /\
    0 <= Status.remaining_requests row.
Proof.
  intros. subst row. unfold RateLimiter.status_row.
  destruct token_limit as [v|]; [destruct (0 <? v)|];
    (destruct request_limit as [w|]; [destruct (0 <? w)|]);
    cbn [Status.percentage Status.remaining_tokens Status.remaining_requests];
    (split; [apply percentage_bounds|lia]).
Qed.

(** ** Windows *)

Lemma usec_per_day_value : Collector.usec_per_day = 86400000000.
Proof. reflexivity. Qed.

Lemma start_of_day_spec tz now :
  let s := RateLimiter.start_of_day tz now in
  s <= now < s + Collector.usec_per_day /\
  (s + tz * Collector.usec_per_hour) / Collector.usec_per_day =
    (now + tz * Collector.usec_per_hour) / Collector.usec_per_day /\
  s + tz * Collector.usec_per_hour =
    ((now + tz * Collector.usec_per_hour) / Collector.usec_per_day)
    * Collector.usec_per_day.
Proof.
  unfold RateLimiter.start_of_day. cbn zeta.
  rewrite usec_per_day_value.
  set (x := now + tz * Collector.usec_per_hour).
  pose proof (Z.div_mod x 86400000000 ltac:(lia)) as Hdm.
  pose proof (Z.mod_pos_bound x 86400000000 ltac:(lia)) as Hb.
  split; [lia|]. split; [|lia].
  replace (x / 86400000000 * 86400000000 - tz * Collector.usec_per_hour +
           tz * Collector.usec_per_hour) with (x / 86400000000 * 86400000000) by lia.
  apply Z.div_mul. lia.
Qed.

(** The natural window of [daily] and of [weekly] contains the clock
    reading and lasts one day, respectively seven; the weekly window starts
    on a Monday at local midnight.  The [rolling] window ends at the clock
    reading. *)
Theorem X_natural_window_contains_now :
  forall tz now window_minutes,
    (exists s, RateLimiter.natural_window tz now "daily" window_minutes
                 = Some (s, s + Collector.usec_per_day) /\
               s <= now < s + Collector.usec_per_day /\
               RateLimiter.start_of_day tz s = s) /\
    (exists s, RateLimiter.natural_window tz now "weekly" window_minutes
                 = Some (s, s + 7 * Collector.usec_per_day) /\
               s <= now < s + 7 * Collector.usec_per_day /\
               RateLimiter.weekday tz s = 0 /\
               RateLimiter.start_of_day tz s = s) /\
    RateLimiter.natural_window tz now "rolling" window_minutes
      = Some (now - window_minutes * RateLimiter.usec_per_minute,
              now + RateLimiter.usec_per_minute).
Proof.
  intros tz now window_minutes.
  destruct (start_of_day_spec tz now) as (Hin & Hq & Hs).
  cbn zeta in Hin, Hq, Hs.
  set (sod := RateLimiter.start_of_day tz now) in *.
  set (off := tz * Collector.usec_per_hour) in *.
  set (q := (now + off) / Collector.usec_per_day) in *.
  assert (Hfix : forall k, RateLimiter.start_of_day tz (k * Collector.usec_per_day - off)
                           = k * Collector.usec_per_day - off).
  { intro k. unfold RateLimiter.start_of_day. fold off.
    replace (k * Collector.usec_per_day - off + off)
      with (k * Collector.usec_per_day) by lia.
    rewrite Z.div_mul by (rewrite usec_per_day_value; lia). reflexivity. }
  split; [|split; [|reflexivity]].
  - exists sod. split; [reflexivity|]. split; [exact Hin|].
    replace sod with (q * Collector.usec_per_day - off) by lia. apply Hfix.
  - unfold RateLimiter.natural_window. cbn [String.eqb Ascii.eqb Bool.eqb].
    fold sod.
    set (wd := RateLimiter.weekday tz sod).
    assert (Hwd : wd = (q + 3) mod 7).
    { unfold wd, RateLimiter.weekday. fold off. now rewrite Hq. }
    pose proof (Z.mod_pos_bound (q + 3) 7 ltac:(lia)) as Hb.
    pose proof (Z.div_mod (q + 3) 7 ltac:(lia)) as Hdm.
    exists (sod - wd * Collector.usec_per_day).
    split; [reflexivity|].
    rewrite usec_per_day_value in *.
    split; [lia|].
    assert (Es : sod - wd * 86400000000 = (q - wd) * 86400000000 - off) by lia.
    split.
    + unfold RateLimiter.weekday. fold off. rewrite usec_per_day_value.
      replace (sod - wd * 86400000000 + off) with ((q - wd) * 86400000000) by lia.
      rewrite Z.div_mul by lia.
      replace (q - wd + 3) with (7 * ((q + 3) / 7)) by lia.
      rewrite Z.mul_comm. apply Z.mod_mul. lia.
    + rewrite Es. rewrite <- usec_per_day_value. apply Hfix.
Qed.

Lemma weekly_start_formula tz now m :
  RateLimiter.natural_window tz now "weekly" m =
  let q := (now + tz * Collector.usec_per_hour) / Collector.usec_per_day in
  let s := (7 * ((q + 3) / 7) - 3) * Collector.usec_per_day
           - tz * Collector.usec_per_hour in
  Some (s, s + 7 * Collector.usec_per_day).
Proof.
  destruct (start_of_day_spec tz now) as (_ & Hq & Hs). cbn zeta in Hq, Hs.
  unfold RateLimiter.natural_window. cbn [String.eqb Ascii.eqb Bool.eqb].
  cbn zeta. unfold RateLimiter.weekday. rewrite Hq.
  set (q := (now + tz * Collector.usec_per_hour) / Collector.usec_per_day) in *.
  pose proof (Z.div_mod (q + 3) 7 ltac:(lia)) as Hdm.
  assert (E : RateLimiter.start_of_day tz now -
              (q + 3) mod 7 * Collector.usec_per_day =
              (7 * ((q + 3) / 7) - 3) * Collector.usec_per_day
              - tz * Collector.usec_per_hour).
  { rewrite usec_per_day_value in *. lia. }
  now rewrite E.
Qed.

(** Window monotonicity of [weekly]: every clock reading inside a week's
    window has that same window, and seven days later the window has moved
    by exactly seven days. *)
Theorem X_weekly_window_constant_then_jumps :
  forall tz now window_minutes s next,
    RateLimiter.natural_window tz now "weekly" window_minutes = Some (s, next) ->
    (forall now', s <= now' < next ->
       RateLimiter.natural_window tz now' "weekly" window_minutes = Some (s, next)) /\
    RateLimiter.natural_window tz (now + 7 * Collector.usec_per_day) "weekly"
      window_minutes
      = Some (s + 7 * Collector.usec_per_day, next + 7 * Collector.usec_per_day).
Proof.
  intros tz now m s next H.
  rewrite weekly_start_formula in H. cbv zeta in H.
  pose proof (f_equal (fun o => match o with Some (a, _) => a | None => 0 end) H)
    as Hs.
  pose proof (f_equal (fun o => match o with Some (_, b) => b | None => 0 end) H)
    as Hn.
  cbv beta iota in Hs, Hn. clear H.
  assert (Hpos : 0 < Collector.usec_per_day) by reflexivity.
  set (D := Collector.usec_per_day) in *.
  set (off := tz * Collector.usec_per_hour) in *.
  set (q := (now + off) / D) in *.
  split.
  - intros now' Hin. rewrite weekly_start_formula. cbv zeta. fold D off.
    set (q' := (now' + off) / D).
    assert (Hk : (q' + 3) / 7 = (q + 3) / 7).
    { assert (Hlo : 7 * ((q + 3) / 7) - 3 <= q').
      { apply Z.div_le_lower_bound; [exact Hpos|lia]. }
      assert (Hhi : q' < 7 * ((q + 3) / 7) - 3 + 7).
      { apply Z.div_lt_upper_bound; [exact Hpos|lia]. }
      symmetry. apply (Z.div_unique (q' + 3) 7 ((q + 3) / 7)
                         (q' + 3 - 7 * ((q + 3) / 7))); lia. }
    rewrite Hk. now rewrite <- Hs, <- Hn.
  - rewrite weekly_start_formula. cbv zeta. fold D off.
    replace (now + 7 * D + off) with (now + off + 7 * D) by lia.
    rewrite Z.div_add by lia. fold q.
    replace (q + 7 + 3) with (q + 3 + 1 * 7) by lia.
    rewrite Z.div_add by lia.
    f_equal. f_equal; lia.
Qed.

Lemma X_weekly_window_witness :
  RateLimiter.natural_window 7 (Time.instant 2023 10 29 23 59 59 420) "weekly" 1
  = Some (Examples.monday, Examples.monday + 7 * Collector.usec_per_day).
Proof.
  destruct (X_weekly_window_constant_then_jumps 7 Examples.wednesday 1
              Examples.monday (Examples.monday + 7 * Collector.usec_per_day))
    as (H & _).
  - vm_compute. reflexivity.
  - apply H. split; vm_compute; [discriminate|reflexivity].
Defined.

(** The manual reset can only move the window start later, and an absent,
    empty or unparseable anchor leaves the natural window start. *)
Theorem X_anchor_never_earlier_and_falls_back :
  forall fromisoformat calculated anchor,
    calculated <= RateLimiter.adjust_window_start fromisoformat calculated anchor /\
    (anchor = None \/ anchor = Some "" \/
     (exists s, anchor = Some s /\ fromisoformat s = None) ->
     RateLimiter.adjust_window_start fromisoformat calculated anchor = calculated).
Proof.
  intros fromiso calculated anchor. unfold RateLimiter.adjust_window_start.
  split.
  - destruct anchor as [s|]; [|lia].
    destruct (Py.truthy s); [|lia].
    destruct (fromiso s) as [a|]; [|lia].
    destruct (calculated <? a) eqn:E; [|lia].
    apply Z.ltb_lt in E. lia.
  - intros [->|[->|(s & -> & Hp)]]; [reflexivity|reflexivity|].
    rewrite Hp. now destruct (Py.truthy s).
Qed.

Lemma X_anchor_falls_back_witness :
  RateLimiter.adjust_window_start Time.fromisoformat Examples.monday
    (Some "yesterday") = Examples.monday.
Proof.
  apply (X_anchor_never_earlier_and_falls_back Time.fromisoformat
           Examples.monday (Some "yesterday")).
  right. right. exists "yesterday". split; reflexivity.
Defined.

(** ** The status table *)

Lemma upsert_status_ids (s : Status.t) (table : list Status.t) :
  map Status.config_id (RateLimiter.upsert_status s table) =
  if existsb (fun r => Status.config_id r =? Status.config_id s) table
  then map Status.config_id table
  else (map Status.config_id table ++ [Status.config_id s])%list.
Proof.
  induction table as [|r table IH]; [reflexivity|].
  cbn [RateLimiter.upsert_status existsb].
  destruct (Status.config_id r =? Status.config_id s) eqn:E; cbn [orb map].
  - apply Z.eqb_eq in E. now rewrite E.
  - rewrite IH. now destruct (existsb _ table).
Qed.

Lemma upsert_status_NoDup (s : Status.t) (table : list Status.t) :
  NoDup (map Status.config_id table) ->
  NoDup (map Status.config_id (RateLimiter.upsert_status s table)).
Proof.
  intro H. rewrite upsert_status_ids.
  destruct (existsb _ table) eqn:E; [exact H|].
  apply NoDup_app; [exact H | repeat constructor; intros [] | ].
  intros x Hx [<-|[]].
  apply in_map_iff in Hx. destruct Hx as (r & Hid & Hr).
  assert (Ht : existsb (fun r => Status.config_id r =? Status.config_id s) table = true).
  { apply existsb_exists. exists r. split; [exact Hr|]. now apply Z.eqb_eq. }
  congruence.
Qed.

Lemma upserts_NoDup (rows table : list Status.t) :
  NoDup (map Status.config_id table) ->
  NoDup (map Status.config_id (upserts rows table)).
Proof.
  unfold upserts. revert table.
  induction rows as [|s rows IH]; intros table H; [exact H|].
  cbn [fold_left]. apply IH. now apply upsert_status_NoDup.
Qed.

Lemma produced_In tz ilike fromiso now st c s :
  In c (Store.rate_limit_configs st) ->
  RateLimiter._process_config tz ilike fromiso now (Store.model_usage st) c = Some s ->
  In s (produced tz ilike fromiso now st).
Proof.
  intros Hc Hs. unfold produced. apply in_flat_map.
  exists c. split; [exact Hc|]. rewrite Hs. now left.
Qed.

(** One run of the engine keeps one status row per config id, and, config
    ids being distinct, leaves for every config it processes exactly the
    row it has just computed, whatever row was there before. *)
Theorem X_sync_limits_writes_each_config :
  forall tz ilike fromisoformat now st,
    let st' := RateLimiter.sync_limits tz ilike fromisoformat now st in
    (NoDup (map Status.config_id (Store.rate_limit_status st)) ->
     NoDup (map Status.config_id (Store.rate_limit_status st'))) /\
    (NoDup (map Config.id (Store.rate_limit_configs st)) ->
     forall c row,
       In c (Store.rate_limit_configs st) ->
       RateLimiter._process_config tz ilike fromisoformat now
         (Store.model_usage st) c = Some row ->
       lookup_status (Config.id c) (Store.rate_limit_status st') = Some row).
Proof.
  intros tz ilike fromiso now st st'. subst st'.
  rewrite sync_status. split.
  - apply upserts_NoDup.
  - intros Hnd c row Hc Hrow.
    rewrite <- (process_id tz ilike fromiso now (Store.model_usage st) c row Hrow).
    apply upserts_settle.
    + now apply produced_ids_NoDup.
    + now apply (produced_In tz ilike fromiso now st c row).
Qed.

Lemma X_sync_limits_writes_witness :
  option_map Status.used_tokens
    (lookup_status 2
       (Store.rate_limit_status
          (RateLimiter.sync_limits 7 Time.ilike Time.fromisoformat
             Examples.first_run Examples.rolling_store))) = Some 400.
Proof.
  destruct (X_sync_limits_writes_each_config 7 Time.ilike Time.fromisoformat
              Examples.first_run Examples.rolling_store) as (_ & H).
  pose proof (H ltac:(repeat constructor; simpl; tauto) Examples.rolling_hour
                _ (or_introl eq_refl) eq_refl) as E.
  change (Config.id Examples.rolling_hour) with 2 in E.
  rewrite E. vm_compute. reflexivity.
Defined.

(** ** Snapshot maps and interpolation *)

Lemma build_snapshot_map_fold (sel : list ModelUsage.t) (init : Dict.t RateLimiter.Counters) :
  let f := fun (snapshot_map : Dict.t RateLimiter.Counters) (rec : ModelUsage.t) =>
             let m_name := ModelUsage.model_name rec in
             let e := Dict.get_default m_name RateLimiter.zero snapshot_map in
             Dict.set m_name
               (RateLimiter.mkCounters
                  (RateLimiter.total_tokens e + ModelUsage.total_tokens rec)
                  (RateLimiter.request_count e + ModelUsage.request_count rec))
               snapshot_map in
  NoDup (Dict.keys init) ->
  NoDup (Dict.keys (fold_left f sel init)) /\
  Zsum (map RateLimiter.total_tokens (Dict.values (fold_left f sel init))) =
    Zsum (map RateLimiter.total_tokens (Dict.values init)) +
    Zsum (map ModelUsage.total_tokens sel) /\
  Zsum (map RateLimiter.request_count (Dict.values (fold_left f sel init))) =
    Zsum (map RateLimiter.request_count (Dict.values init)) +
    Zsum (map ModelUsage.request_count sel) /\
  (forall k, In k (Dict.keys (fold_left f sel init)) ->
             In k (Dict.keys init) \/ In k (map ModelUsage.model_name sel)).
Proof.
  intro f. revert init.
  induction sel as [|r sel IH]; intros init Hnd.
  - cbn [fold_left map]. change (Zsum []) with 0.
    repeat split; auto; lia.
  - cbn [fold_left map]. rewrite !Zsum_cons.
    destruct (IH (f init r)) as (I1 & I2 & I3 & I4).
    { unfold f. now apply NoDup_keys_set. }
    split; [exact I1|]. split; [|split].
    + rewrite I2. unfold f.
      rewrite (Zsum_set RateLimiter.total_tokens _ _ _ RateLimiter.zero)
        by reflexivity.
      cbn [RateLimiter.total_tokens]. lia.
    + rewrite I3. unfold f.
      rewrite (Zsum_set RateLimiter.request_count _ _ _ RateLimiter.zero)
        by reflexivity.
      cbn [RateLimiter.request_count]. lia.
    + intros k Hk. destruct (I4 k Hk) as [H|H]; [|right; now right].
      unfold f in H. rewrite keys_set in H.
      destruct (Dict.mem _ init); [now left|].
      apply in_app_or in H. destruct H as [H|[<-|[]]]; [now left|].
      right. now left.
Qed.

(** The per-model map of a snapshot time loses nothing: its keys are
    distinct model names of the selected rows, and its tokens and requests
    add up to those of the rows that match the pattern at that time. *)
Theorem X_snapshot_map_conserves_counters :
  forall ilike rows model_pattern snapshot_time,
    let selected :=
      filter (fun r => ModelUsage.created_at r =? snapshot_time)
             (RateLimiter.matching ilike model_pattern rows) in
    let m := RateLimiter._build_snapshot_map ilike rows model_pattern snapshot_time in
    NoDup (Dict.keys m) /\
    (forall k, In k (Dict.keys m) -> In k (map ModelUsage.model_name selected)) /\
    Zsum (map RateLimiter.total_tokens (Dict.values m)) =
      Zsum (map ModelUsage.total_tokens selected) /\
    Zsum (map RateLimiter.request_count (Dict.values m)) =
      Zsum (map ModelUsage.request_count selected).
Proof.
  intros ilike rows pattern time selected m. subst m.
  unfold RateLimiter._build_snapshot_map. fold selected.
  destruct (build_snapshot_map_fold selected Dict.empty) as (H1 & H2 & H3 & H4).
  { constructor. }
  cbv zeta in H1, H2, H3, H4.
  split; [exact H1|]. split; [|split].
  - intros k Hk. destruct (H4 k Hk) as [[]|H]. exact H.
  - rewrite H2. change (Zsum (map RateLimiter.total_tokens (Dict.values Dict.empty)))
      with 0. lia.
  - rewrite H3. change (Zsum (map RateLimiter.request_count (Dict.values Dict.empty)))
      with 0. lia.
Qed.

Lemma round_between (a b : Z) (q : Q) :
  (inject_Z a <= q <= inject_Z b)%Q -> a <= Py.round q <= b.
Proof.
  intros [Ha Hb].
  assert (Hfa : a <= Qfloor q).
  { rewrite <- (Qfloor_Z a). now apply Qfloor_resp_le. }
  assert (Hfb : Qfloor q <= b).
  { rewrite <- (Qfloor_Z b). now apply Qfloor_resp_le. }
  assert (Hstep : (inject_Z (Qfloor q) < q)%Q -> Qfloor q + 1 <= b).
  { intro Hlt. assert (Hfl : (inject_Z (Qfloor q) < inject_Z b)%Q) by lra.
    rewrite <- Zlt_Qlt in Hfl. lia. }
  unfold Py.round.
  destruct (q - inject_Z (Qfloor q) ?= 1 # 2)%Q eqn:E.
  - apply Qeq_alt in E. destruct (Z.even (Qfloor q)); [lia|].
    split; [lia|]. apply Hstep. lra.
  - lia.
  - apply Qgt_alt in E. split; [lia|]. apply Hstep. lra.
Qed.

Lemma gap_ratio_bounds (since baseline first_inner : Z) :
  (0 <= RateLimiter.gap_ratio since baseline first_inner <= 1)%Q.
Proof. unfold RateLimiter.gap_ratio. apply clamp01_bounds. Qed.

(** Across a data gap, the synthetic baseline of a model whose counters did
    not drop between the baseline and the first row of the window lies
    between the two: the interpolated usage is at least the usage since the
    first inner row and at most the usage since the baseline. *)
Theorem X_interpolation_between_snapshots :
  forall baseline_map first_inner_map since baseline first_inner m b f,
    Dict.get m baseline_map = Some b ->
    Dict.get m first_inner_map = Some f ->
    RateLimiter.total_tokens b <= RateLimiter.total_tokens f ->
    RateLimiter.request_count b <= RateLimiter.request_count f ->
    exists synth,
      Dict.get m (RateLimiter._interpolate_snapshot_map baseline_map first_inner_map
                    (RateLimiter.gap_ratio since baseline first_inner)) = Some synth /\
      RateLimiter.total_tokens b <= RateLimiter.total_tokens synth
        <= RateLimiter.total_tokens f /\
      RateLimiter.request_count b <= RateLimiter.request_count synth
        <= RateLimiter.request_count f.
Proof.
  intros bm fm since baseline first_inner m b f Hb Hf Ht Hr.
  pose proof (gap_ratio_bounds since baseline first_inner) as [R0 R1].
  set (ratio := RateLimiter.gap_ratio since baseline first_inner) in *.
  assert (Hin : In m (Dict.keys bm) \/ In m (Dict.keys fm)).
  { left. destruct (in_dec string_dec m (Dict.keys bm)) as [H|H]; [exact H|].
    apply get_None_not_in in H. congruence. }
  pose proof (interpolate_get bm fm ratio m Hin) as E. cbv zeta in E.
  unfold Dict.get_default in E. rewrite Hb, Hf in E.
  eexists. split; [exact E|].
  cbn [RateLimiter.total_tokens RateLimiter.request_count].
  assert (Hq : forall x y, x <= y ->
             (inject_Z x <= inject_Z x + ratio * inject_Z (y - x) <= inject_Z y)%Q).
  { intros x y Hxy. rewrite inject_Z_sub.
    assert (Hd : (0 <= inject_Z y - inject_Z x)%Q).
    { rewrite Zle_Qle in Hxy. lra. }
    split; nra. }
  split; apply round_between; apply Hq; assumption.
Qed.

Lemma X_interpolation_between_witness :
  exists synth,
    Dict.get "gemini-2.5-pro"
      (RateLimiter._interpolate_snapshot_map
         [("gemini-2.5-pro", RateLimiter.mkCounters 1000 10)]
         [("gemini-2.5-pro", RateLimiter.mkCounters 5000 50)]
         (RateLimiter.gap_ratio Examples.monday
            (Time.instant 2023 10 21 23 0 0 420)
            (Time.instant 2023 10 23 3 0 0 420))) = Some synth /\
    1000 <= RateLimiter.total_tokens synth <= 5000.
Proof.
  destruct (X_interpolation_between_snapshots
              [("gemini-2.5-pro", RateLimiter.mkCounters 1000 10)]
              [("gemini-2.5-pro", RateLimiter.mkCounters 5000 50)]
              Examples.monday
              (Time.instant 2023 10 21 23 0 0 420)
              (Time.instant 2023 10 23 3 0 0 420)
              "gemini-2.5-pro" (RateLimiter.mkCounters 1000 10)
              (RateLimiter.mkCounters 5000 50))
    as (synth & E & Ht & _).
  - reflexivity.
  - reflexivity.
  - vm_compute. discriminate.
  - vm_compute. discriminate.
  - exists synth. split; [exact E|exact Ht].
Defined.

(** ** Credential and API-key aggregation *)

Lemma insert_desc_perm {A} (key : A -> Z) (x : A) (l : list A) :
  Permutation (CredentialStatsSync.insert_desc key x l) (x :: l).
Proof.
  induction l as [|y l IH]; cbn [CredentialStatsSync.insert_desc]; [reflexivity|].
  destruct (key y <=? key x); [reflexivity|].
  rewrite IH. apply perm_swap.
Qed.

Lemma sort_desc_perm {A} (key : A -> Z) (l : list A) :
  Permutation (CredentialStatsSync.sort_desc key l) l.
Proof.
  unfold CredentialStatsSync.sort_desc.
  induction l as [|x l IH]; cbn [fold_right]; [reflexivity|].
  rewrite insert_desc_perm. now constructor.
Qed.

Lemma insert_desc_descending {A} (key : A -> Z) (x : A) (l : list A) :
  descending key l -> descending key (CredentialStatsSync.insert_desc key x l).
Proof.
  induction l as [|y l IH]; cbn [CredentialStatsSync.insert_desc descending].
  - intros _. split; [intros ? []|exact I].
  - intros [Hy Hl]. destruct (key y <=? key x) eqn:E.
    + apply Z.leb_le in E. cbn [descending]. split; [|split; assumption].
      intros z [<-|Hz]; [exact E|]. specialize (Hy z Hz). lia.
    + apply Z.leb_gt in E. cbn [descending]. split; [|now apply IH].
      intros z Hz.
      apply (Permutation_in _ (insert_desc_perm key x l)) in Hz.
      destruct Hz as [<-|Hz]; [lia|now apply Hy].
Qed.

Lemma sort_desc_descending {A} (key : A -> Z) (l : list A) :
  descending key (CredentialStatsSync.sort_desc key l).
Proof.
  unfold CredentialStatsSync.sort_desc.
  induction l as [|x l IH]; cbn [fold_right]; [exact I|].
  now apply insert_desc_descending.
Qed.

(** Both emitted sequences are in descending order of [total_requests],
    and each is a rearrangement of the aggregated entries: sorting drops
    and duplicates nothing. *)
Theorem X_emitted_sequences_sorted :
  forall usage_data auth_files,
    let agg := CredentialStatsSync.aggregate usage_data auth_files in
    let out := CredentialStatsSync.aggregate_stats usage_data auth_files in
    descending CredStat.total_requests (fst out) /\
    descending ApiKeyStat.total_requests (snd out) /\
    Permutation (fst out) (map CredentialStatsSync.emit_cred (fst agg)) /\
    Permutation (snd out) (map CredentialStatsSync.emit_key (snd agg)).
Proof.
  intros usage_data auth_files agg out. subst out agg.
  unfold CredentialStatsSync.aggregate_stats. cbn [fst snd].
  repeat split; try apply sort_desc_descending; apply sort_desc_perm.
Qed.

Lemma Zsum_perm (l l' : list Z) : Permutation l l' -> Zsum l = Zsum l'.
Proof.
  induction 1 as [|x l l' _ IH|x y l|l l' l'' _ IH1 _ IH2].
  - reflexivity.
  - rewrite !Zsum_cons. lia.
  - rewrite !Zsum_cons. lia.
  - congruence.
Qed.

Section Conservation.
Import CredentialStatsSync.
Variables by_auth_index by_name : Dict.t CredInfo.t.

Let creds_total (a : Agg) : Z := Zsum (map c_total_requests (Dict.values (fst a))).
Let keys_total (a : Agg) : Z := Zsum (map k_total_requests (Dict.values (snd a))).

Lemma detail_step_totals api_key_name model_name acc d :
  creds_total (detail_step by_auth_index by_name api_key_name model_name acc d)
    = creds_total acc + 1 /\
  keys_total (detail_step by_auth_index by_name api_key_name model_name acc d)
    = keys_total acc + 1.
Proof.
  unfold creds_total, keys_total, detail_step. cbn [fst snd].
  rewrite (Zsum_set c_total_requests _ _ _ cred_default) by reflexivity.
  rewrite (Zsum_set k_total_requests _ _ _ key_default) by reflexivity.
  unfold update_cred, update_key.
  cbn [c_total_requests k_total_requests]. lia.
Qed.

Lemma model_step_totals api_key_name acc m :
  let n := Z.of_nat (List.length (Usage.details (snd m))) in
  creds_total (model_step by_auth_index by_name api_key_name acc m)
    = creds_total acc + n /\
  keys_total (model_step by_auth_index by_name api_key_name acc m)
    = keys_total acc + n.
Proof.
  unfold model_step. revert acc.
  induction (Usage.details (snd m)) as [|d ds IH]; intro acc.
  - cbn. lia.
  - cbn [fold_left List.length].
    destruct (IH (detail_step by_auth_index by_name api_key_name (fst m) acc d))
      as [I1 I2].
    destruct (detail_step_totals api_key_name (fst m) acc d) as [D1 D2].
    cbn zeta in I1, I2. rewrite I1, I2, D1, D2. lia.
Qed.

Lemma models_fold_totals api_key_name ms acc :
  let n := Zsum (map (fun m : string * Usage.ModelData =>
                        Z.of_nat (List.length (Usage.details (snd m)))) ms) in
  creds_total (fold_left (model_step by_auth_index by_name api_key_name) ms acc)
    = creds_total acc + n /\
  keys_total (fold_left (model_step by_auth_index by_name api_key_name) ms acc)
    = keys_total acc + n.
Proof.
  revert acc. induction ms as [|m ms IH]; intro acc.
  - cbn. change (Zsum []) with 0. lia.
  - cbn [fold_left map]. rewrite Zsum_cons.
    destruct (IH (model_step by_auth_index by_name api_key_name acc m)) as [I1 I2].
    destruct (model_step_totals api_key_name acc m) as [M1 M2].
    cbn zeta in I1, I2, M1, M2. rewrite I1, I2, M1, M2. lia.
Qed.

Lemma api_step_totals acc a :
  let n := Zsum (map (fun m : string * Usage.ModelData =>
                        Z.of_nat (List.length (Usage.details (snd m))))
                     (Usage.models (snd a))) in
  creds_total (api_step by_auth_index by_name acc a) = creds_total acc + n /\
  keys_total (api_step by_auth_index by_name acc a) = keys_total acc + n.
Proof.
  unfold api_step.
  destruct (models_fold_totals (fst a) (Usage.models (snd a))
              (fst acc, Dict.set (fst a)
                          (Dict.get_default (fst a) key_default (snd acc)) (snd acc)))
    as [I1 I2].
  cbn zeta in I1, I2. cbn zeta. rewrite I1, I2.
  unfold creds_total, keys_total. cbn [fst snd].
  rewrite (Zsum_set k_total_requests _ _ _ key_default) by reflexivity. lia.
Qed.

Lemma apis_fold_totals apis acc :
  creds_total (fold_left (api_step by_auth_index by_name) apis acc)
    = creds_total acc + count_details apis /\
  keys_total (fold_left (api_step by_auth_index by_name) apis acc)
    = keys_total acc + count_details apis.
Proof.
  unfold count_details. revert acc. induction apis as [|a apis IH]; intro acc.
  - cbn. change (Zsum []) with 0. lia.
  - cbn [fold_left map]. rewrite Zsum_cons.
    destruct (IH (api_step by_auth_index by_name acc a)) as [I1 I2].
    destruct (api_step_totals acc a) as [A1 A2].
    cbn zeta in A1, A2. rewrite I1, I2, A1, A2. lia.
Qed.
End Conservation.

(** Every entry of [details] is counted once for a credential and once for
    an API key: the [total_requests] of the emitted credential records and
    those of the emitted API-key records both add up to the number of
    [details] entries of the document. *)
Theorem X_every_request_attributed_once :
  forall usage_data auth_files,
    let out := CredentialStatsSync.aggregate_stats usage_data auth_files in
    let n := count_details (CredentialStatsSync.apis_of usage_data) in
    Zsum (map CredStat.total_requests (fst out)) = n /\
    Zsum (map ApiKeyStat.total_requests (snd out)) = n.
Proof.
  intros usage_data auth_files out n. subst out n.
  unfold CredentialStatsSync.aggregate_stats, CredentialStatsSync.aggregate.
  cbn [fst snd].
  destruct (apis_fold_totals
              (fst (CredentialStatsSync.build_auth_index_map auth_files))
              (snd (CredentialStatsSync.build_auth_index_map auth_files))
              (CredentialStatsSync.apis_of usage_data) (Dict.empty, Dict.empty))
    as [Hc Hk].
  cbn [fst snd] in Hc, Hk.
  split.
  - rewrite (Zsum_perm _ _ (Permutation_map _ (sort_desc_perm _ _))).
    rewrite map_map. unfold Dict.values in Hc. rewrite map_map in Hc.
    cbn [CredentialStatsSync.emit_cred CredStat.total_requests].
    rewrite Hc. change (Zsum (map _ (Dict.values Dict.empty))) with 0. reflexivity.
  - rewrite (Zsum_perm _ _ (Permutation_map _ (sort_desc_perm _ _))).
    rewrite map_map. unfold Dict.values in Hk. rewrite map_map in Hk.
    cbn [CredentialStatsSync.emit_key ApiKeyStat.total_requests].
    rewrite Hk. reflexivity.
Qed.

Lemma In_keys_set {V} (x k : string) (v : V) (d : Dict.t V) :
  In x (Dict.keys (Dict.set k v d)) <-> x = k \/ In x (Dict.keys d).
Proof.
  rewrite keys_set. unfold Dict.mem.
  destruct (Dict.get k d) eqn:E.
  - split; [now right|]. intros [->|H]; [|exact H].
    destruct (in_dec string_dec k (Dict.keys d)) as [Hin|Hnin]; [exact Hin|].
    apply get_None_not_in in Hnin. congruence.
  - rewrite in_app_iff. cbn [In]. split.
    + intros [H|[<-|[]]]; auto.
    + intros [->|H]; auto.
Qed.

Section KeyCoverage.
Import CredentialStatsSync.
Variables by_auth_index by_name : Dict.t CredInfo.t.

Lemma detail_step_keys api_key_name model_name acc d x :
  In x (Dict.keys (snd (detail_step by_auth_index by_name api_key_name model_name acc d)))
  <-> x = api_key_name \/ In x (Dict.keys (snd acc)).
Proof. unfold detail_step. cbn [snd]. apply In_keys_set. Qed.

Lemma model_step_keys api_key_name acc m x :
  In api_key_name (Dict.keys (snd acc)) ->
  (In x (Dict.keys (snd (model_step by_auth_index by_name api_key_name acc m)))
   <-> In x (Dict.keys (snd acc))).
Proof.
  unfold model_step. revert acc.
  induction (Usage.details (snd m)) as [|d ds IH]; intros acc Hk; [reflexivity|].
  cbn [fold_left]. rewrite IH.
  - rewrite detail_step_keys. split; [intros [->|H]; assumption|now right].
  - apply detail_step_keys. now left.
Qed.

Lemma models_fold_keys api_key_name ms acc x :
  In api_key_name (Dict.keys (snd acc)) ->
  (In x (Dict.keys (snd (fold_left (model_step by_auth_index by_name api_key_name)
                                   ms acc)))
   <-> In x (Dict.keys (snd acc))).
Proof.
  revert acc. induction ms as [|m ms IH]; intros acc Hk; [reflexivity|].
  cbn [fold_left]. rewrite IH.
  - now apply model_step_keys.
  - now apply model_step_keys.
Qed.

Lemma api_step_keys acc a x :
  In x (Dict.keys (snd (api_step by_auth_index by_name acc a)))
  <-> x = fst a \/ In x (Dict.keys (snd acc)).
Proof.
  unfold api_step. rewrite models_fold_keys.
  - cbn [snd]. apply In_keys_set.
  - cbn [snd]. apply In_keys_set. now left.
Qed.

Lemma apis_fold_keys apis acc x :
  In x (Dict.keys (snd (fold_left (api_step by_auth_index by_name) apis acc)))
  <-> In x (Dict.keys apis) \/ In x (Dict.keys (snd acc)).
Proof.
  revert acc. induction apis as [|a apis IH]; intro acc.
  - cbn. tauto.
  - cbn [fold_left]. rewrite IH, api_step_keys.
    unfold Dict.keys at 3. cbn [map In]. fold (Dict.keys apis).
    split; intros H; intuition (subst; auto).
Qed.

Lemma apis_fold_keys_NoDup apis acc :
  NoDup (Dict.keys (snd acc)) ->
  NoDup (Dict.keys (snd (fold_left (api_step by_auth_index by_name) apis acc))).
Proof.
  revert acc. induction apis as [|a apis IH]; intros acc H; [exact H|].
  cbn [fold_left]. apply IH. unfold api_step.
  assert (H0 : NoDup (Dict.keys (snd (fst acc,
                 Dict.set (fst a) (Dict.get_default (fst a) key_default (snd acc))
                          (snd acc))))).
  { cbn [snd]. now apply NoDup_keys_set. }
  revert H0. generalize (fst acc,
                 Dict.set (fst a) (Dict.get_default (fst a) key_default (snd acc))
                          (snd acc)).
  induction (Usage.models (snd a)) as [|m ms IHm]; intros acc' H'; [exact H'|].
  cbn [fold_left]. apply IHm. unfold model_step.
  revert H'. generalize acc'.
  induction (Usage.details (snd m)) as [|d ds IHd]; intros acc'' H''; [exact H''|].
  cbn [fold_left]. apply IHd. unfold detail_step. cbn [snd].
  now apply NoDup_keys_set.
Qed.
End KeyCoverage.

(** The emitted API-key records are exactly the API keys of the document,
    one record each: a key without any request still gets its record, and
    no record is made up. *)
Theorem X_one_record_per_api_key :
  forall usage_data auth_files,
    let names :=
      map ApiKeyStat.api_key_name
          (snd (CredentialStatsSync.aggregate_stats usage_data auth_files)) in
    NoDup names /\
    forall name,
      In name names <-> In name (Dict.keys (CredentialStatsSync.apis_of usage_data)).
Proof.
  intros usage_data auth_files names. subst names.
  unfold CredentialStatsSync.aggregate_stats, CredentialStatsSync.aggregate.
  cbn [fst snd].
  set (acc := fold_left _ _ _).
  assert (P : Permutation
                (map ApiKeyStat.api_key_name
                   (CredentialStatsSync.sort_desc ApiKeyStat.total_requests
                      (map CredentialStatsSync.emit_key (snd acc))))
                (Dict.keys (snd acc))).
  { rewrite (Permutation_map _ (sort_desc_perm _ _)).
    rewrite map_map. reflexivity. }
  split.
  - apply (Permutation_NoDup (Permutation_sym P)).
    subst acc. apply apis_fold_keys_NoDup. constructor.
  - intro name. split; intro H.
    + apply (Permutation_in _ P) in H. subst acc.
      apply apis_fold_keys in H. destruct H as [H|[]]. exact H.
    + apply (Permutation_in _ (Permutation_sym P)). subst acc.
      apply apis_fold_keys. now left.
Qed.

Lemma by_auth_index_get (auth_files : list AuthFile.t)
    (acc : Dict.t CredInfo.t * Dict.t CredInfo.t) (idx : string) :
  let step := fun (acc : Dict.t CredInfo.t * Dict.t CredInfo.t) f =>
    let info := CredentialStatsSync.info_of f in
    let by_auth_index :=
      if Py.truthy (AuthFile.auth_index f)
      then Dict.set (AuthFile.auth_index f) info (fst acc) else fst acc in
    let by_name :=
      if Py.truthy (AuthFile.name f)
      then Dict.set (AuthFile.name f) info (snd acc) else snd acc in
    (by_auth_index, by_name) in
  idx <> "" ->
  (Dict.get idx (fst (fold_left step auth_files acc)) = Dict.get idx (fst acc) /\
   forall f, In f auth_files -> AuthFile.auth_index f <> idx) \/
  (exists f, In f auth_files /\ AuthFile.auth_index f = idx /\
             Dict.get idx (fst (fold_left step auth_files acc))
               = Some (CredentialStatsSync.info_of f)).
Proof.
  intros step Hne. revert acc.
  induction auth_files as [|f files IH]; intro acc.
  - left. split; [reflexivity|intros ? []].
  - cbn [fold_left]. destruct (IH (step acc f)) as [[E Hnone]|(g & Hg & Hi & E)].
    + destruct (string_dec (AuthFile.auth_index f) idx) as [Hf|Hf].
      * right. exists f. split; [now left|]. split; [exact Hf|].
        rewrite E. unfold step. cbn [fst]. rewrite Hf.
        assert (Ht : Py.truthy idx = true).
        { unfold Py.truthy. apply negb_true_iff. now apply String.eqb_neq. }
        rewrite Ht. apply get_set_same.
      * left. split.
        -- rewrite E. unfold step. cbn [fst].
           destruct (Py.truthy (AuthFile.auth_index f)); [|reflexivity].
           apply get_set_other. congruence.
        -- intros g [<-|Hg]; [exact Hf|now apply Hnone].
    + right. exists g. split; [now right|]. now split.
Qed.

(** A request whose [auth_index] occurs in the catalog is attributed to a
    catalog entry with that very [auth_index], whatever its [source] says;
    the record then carries the catalog's provider and email. *)
Theorem X_catalogued_auth_index_resolves_to_catalog :
  forall auth_files auth_index source file,
    auth_index <> "" ->
    In file auth_files ->
    AuthFile.auth_index file = auth_index ->
    let maps := CredentialStatsSync.build_auth_index_map auth_files in
    exists f,
      In f auth_files /\ AuthFile.auth_index f = auth_index /\
      CredentialStatsSync.resolve_credential auth_index source (fst maps) (snd maps)
        = CredentialStatsSync.info_of f.
Proof.
  intros auth_files idx source file Hne Hin Hidx maps. subst maps.
  unfold CredentialStatsSync.build_auth_index_map.
  destruct (by_auth_index_get auth_files (Dict.empty, Dict.empty) idx Hne)
    as [[_ Hnone]|(f & Hf & Hi & E)].
  - exfalso. exact (Hnone file Hin Hidx).
  - exists f. split; [exact Hf|]. split; [exact Hi|].
    unfold CredentialStatsSync.resolve_credential.
    assert (Ht : Py.truthy idx = true).
    { unfold Py.truthy. apply negb_true_iff. now apply String.eqb_neq. }
    rewrite Ht. cbv zeta in E. now rewrite E.
Qed.

Lemma X_catalogued_auth_index_witness :
  CredInfo.email
    (CredentialStatsSync.resolve_credential "7" "something-else"
       (fst (CredentialStatsSync.build_auth_index_map Examples.catalog))
       (snd (CredentialStatsSync.build_auth_index_map Examples.catalog)))
  = "alice@example.com".
Proof.
  destruct (X_catalogued_auth_index_resolves_to_catalog Examples.catalog "7"
              "something-else"
              (AuthFile.mk "7" "gemini" "alice@example.com"
                 "gemini-alice_example.com.json" "Alice" (Some "active") "oauth"))
    as (f & Hf & _ & E).
  - discriminate.
  - now left.
  - reflexivity.
  - rewrite E. destruct Hf as [<-|[]]. reflexivity.
Defined.

(** ** First ticks, running cost and first rows *)

Lemma first_loop_sums records b :
  let b' := fold_left Collector.first_step records b in
  Collector.sum_requests (Breakdown.models b') =
    Collector.sum_requests (Breakdown.models b) +
    Zsum (map ModelUsage.request_count records) /\
  Collector.sum_tokens (Breakdown.models b') =
    Collector.sum_tokens (Breakdown.models b) +
    Zsum (map ModelUsage.total_tokens records) /\
  (Collector.sum_cost (Breakdown.models b') ==
    Collector.sum_cost (Breakdown.models b) +
    Qsum (map ModelUsage.estimated_cost_usd records))%Q.
Proof.
  revert b. induction records as [|r records IH]; intro b.
  - cbn. change (Zsum []) with 0. change (Qsum []) with 0%Q.
    repeat split; try lia. ring.
  - cbn [fold_left map]. rewrite !Zsum_cons, Qsum_cons.
    destruct (IH (Collector.first_step b r)) as (I1 & I2 & I3).
    cbn zeta in I1, I2, I3. cbn zeta. rewrite I1, I2, I3.
    unfold Collector.first_step, Collector.add_delta. cbn [Breakdown.models].
    rewrite sum_requests_add, sum_tokens_add, sum_cost_add.
    repeat split; try lia. ring.
Qed.

(** On a first tick (no snapshot yet) the breakdown deltas add up to the
    per-model rows of the document, not to its global counters: requests,
    tokens and cost are the sums over the rows just written. *)
Theorem X_first_tick_counts_per_model_rows :
  forall tz remote now data usage st,
    Store.usage_snapshots st = [] ->
    let t := Collector.tick tz remote now data usage st in
    let ms := Breakdown.models (Collector.t_deltas t) in
    Collector.sum_requests ms =
      Zsum (map ModelUsage.request_count (Collector.t_records t)) /\
    Collector.sum_tokens ms =
      Zsum (map ModelUsage.total_tokens (Collector.t_records t)) /\
    (Collector.sum_cost ms ==
      Qsum (map ModelUsage.estimated_cost_usd (Collector.t_records t)))%Q.
Proof.
  intros tz remote now data usage st Hs t ms. subst ms t.
  unfold Collector.tick. cbn zeta.
  cbn [Collector.t_deltas Collector.t_records]. rewrite Hs. cbn [hd_error snd].
  match goal with
  | |- context [fold_left Collector.first_step ?r Breakdown.empty] =>
      destruct (first_loop_sums r Breakdown.empty) as (H1 & H2 & H3)
  end.
  cbn zeta in H1, H2, H3. rewrite H1, H2, H3.
  change (Collector.sum_requests (Breakdown.models Breakdown.empty)) with 0.
  change (Collector.sum_tokens (Breakdown.models Breakdown.empty)) with 0.
  change (Collector.sum_cost (Breakdown.models Breakdown.empty)) with 0%Q.
  repeat split; try lia. ring.
Qed.

Lemma X_first_tick_witness :
  Collector.sum_requests
    (Breakdown.models
       (Collector.t_deltas
          (Collector.tick 7 [] Examples.t1 Examples.half_attributed
             (Usage.mk 1000 1000 0 50000
                [("key1", Usage.mkApiData
                    [("gemini-2.5-flash",
                      Usage.mkModelData 500 25000 [Examples.det 20000 5000])])])
             Store.empty))) = 500.
Proof.
  destruct (X_first_tick_counts_per_model_rows 7 [] Examples.t1
              Examples.half_attributed
              (Usage.mk 1000 1000 0 50000
                 [("key1", Usage.mkApiData
                     [("gemini-2.5-flash",
                       Usage.mkModelData 500 25000 [Examples.det 20000 5000])])])
              Store.empty eq_refl) as (H & _).
  rewrite H. vm_compute. reflexivity.
Defined.

Lemma get_In_values {V} (k : string) (v : V) (d : Dict.t V) :
  Dict.get k d = Some v -> In v (Dict.values d).
Proof.
  unfold Dict.values. induction d as [|[k' v'] d IH]; cbn [Dict.get map snd];
    [discriminate|].
  destruct (String.eqb k k'); intro H.
  - injection H as ->. now left.
  - right. now apply IH.
Qed.

Lemma first_substring_match_In ml (t : Pricing.table) p :
  Pricing.first_substring_match ml t = Some p -> In p (Dict.values t).
Proof.
  unfold Dict.values.
  induction t as [|[k v] t IH]; cbn [Pricing.first_substring_match map snd];
    [discriminate|].
  destruct (negb _ && _); intro H.
  - injection H as ->. now left.
  - right. now apply IH.
Qed.

Lemma find_pricing_nonneg model_name pricing :
  prices_nonneg pricing ->
  let p := fst (Pricing.find_pricing_for_model model_name pricing) in
  (0 <= Pricing.input p)%Q /\ (0 <= Pricing.output p)%Q.
Proof.
  intros H. unfold prices_nonneg in H. rewrite Forall_forall in H.
  unfold Pricing.find_pricing_for_model.
  destruct (Dict.get _ pricing) as [p|] eqn:E.
  - apply H. now apply get_In_values in E.
  - destruct (Pricing.first_substring_match _ pricing) as [p|] eqn:E2.
    + apply H. now apply first_substring_match_In in E2.
    + cbn [fst]. unfold Dict.get_default.
      destruct (Dict.get "_default" pricing) as [p|] eqn:E3.
      * apply H. now apply get_In_values in E3.
      * split; discriminate.
Qed.

Lemma Zsum_nonneg (l : list Z) : Forall (fun x => 0 <= x) l -> 0 <= Zsum l.
Proof.
  induction 1 as [|x l Hx _ IH]; [reflexivity|]. rewrite Zsum_cons. lia.
Qed.

Lemma Qsum_nonneg (l : list Q) : Forall (fun x => (0 <= x)%Q) l -> (0 <= Qsum l)%Q.
Proof.
  induction 1 as [|x l Hx _ IH]; [discriminate|]. rewrite Qsum_cons. lra.
Qed.

Lemma calculate_cost_nonneg i o p :
  0 <= i -> 0 <= o -> (0 <= Pricing.input p)%Q -> (0 <= Pricing.output p)%Q ->
  (0 <= Pricing.calculate_cost i o p)%Q.
Proof.
  intros Hi Ho Hpi Hpo. unfold Pricing.calculate_cost.
  rewrite Zle_Qle in Hi, Ho.
  assert (H1 : (0 <= inject_Z i / 1000000)%Q)
    by (apply Qmult_le_0_compat; [exact Hi|discriminate]).
  assert (H2 : (0 <= inject_Z o / 1000000)%Q)
    by (apply Qmult_le_0_compat; [exact Ho|discriminate]).
  set (a := (inject_Z i / 1000000)%Q) in *.
  set (b := (inject_Z o / 1000000)%Q) in *.
  assert (H3 : (0 <= a * Pricing.input p)%Q) by (apply Qmult_le_0_compat; assumption).
  assert (H4 : (0 <= b * Pricing.output p)%Q) by (apply Qmult_le_0_compat; assumption).
  lra.
Qed.

Lemma model_records_cost_nonneg pricing snapshot_id now usage :
  prices_nonneg pricing -> details_nonneg usage ->
  Forall (fun x => (0 <= x)%Q)
         (map ModelUsage.estimated_cost_usd
              (Collector.model_records pricing snapshot_id now usage)).
Proof.
  intros Hp. unfold details_nonneg, Collector.model_records.
  induction (Usage.apis usage) as [|a apis IH]; intro H; [constructor|].
  inversion H as [|? ? Ha Hrest]; subst. cbn [flat_map].
  rewrite map_app. apply Forall_app. split; [|now apply IH].
  clear IH H Hrest.
  induction (Usage.models (snd a)) as [|m ms IHm]; [constructor|].
  inversion Ha as [|? ? Hm Hms]; subst. cbn [map].
  constructor; [|now apply IHm].
  unfold Collector.model_record. cbn [ModelUsage.estimated_cost_usd].
  destruct (find_pricing_nonneg (fst m) pricing Hp) as [P1 P2].
  apply calculate_cost_nonneg; try assumption;
    apply Zsum_nonneg; rewrite Forall_map;
    eapply Forall_impl; try exact Hm; cbv beta; tauto.
Qed.

(** The running cost kept on the snapshots never decreases when prices and
    token counts are non-negative: each snapshot adds the cost of its own
    per-model rows to the running sum of the one before. *)
Theorem X_cumulative_cost_monotone :
  forall tz remote now data usage st,
    prices_nonneg (Pricing.get_model_pricing remote) ->
    details_nonneg usage ->
    let t := Collector.tick tz remote now data usage st in
    let before :=
      match Store.usage_snapshots st with
      | s :: _ => Snapshot.cumulative_cost_usd s
      | [] => 0%Q
      end in
    (Snapshot.cumulative_cost_usd (Collector.t_snapshot t) ==
       before + Qsum (map ModelUsage.estimated_cost_usd (Collector.t_records t)))%Q /\
    (before <= Snapshot.cumulative_cost_usd (Collector.t_snapshot t))%Q.
Proof.
  intros tz remote now data usage st Hp Hd t before.
  assert (E : (Snapshot.cumulative_cost_usd (Collector.t_snapshot t) ==
               before + Qsum (map ModelUsage.estimated_cost_usd (Collector.t_records t)))%Q)
    by reflexivity.
  split; [exact E|]. rewrite E.
  assert (H : (0 <= Qsum (map ModelUsage.estimated_cost_usd (Collector.t_records t)))%Q).
  { apply Qsum_nonneg. subst t. unfold Collector.tick. cbn zeta.
    cbn [Collector.t_records]. now apply model_records_cost_nonneg. }
  lra.
Qed.

Lemma builtin_prices_nonneg : prices_nonneg Pricing.DEFAULT_PRICING.
Proof.
  unfold prices_nonneg. cbn.
  repeat (constructor; [split; discriminate|]). constructor.
Qed.

Lemma X_cumulative_cost_witness :
  (Snapshot.cumulative_cost_usd
     (Collector.t_snapshot
        (Collector.tick 7 [] Examples.t1 Examples.S1
           (Usage.mk 1000 1000 0 50000
              [("key1", Usage.mkApiData
                  [("gemini-2.5-flash",
                    Usage.mkModelData 1000 50000 [Examples.det 40000 10000])])])
           Store.empty)) >= 0)%Q.
Proof.
  apply (X_cumulative_cost_monotone 7 [] Examples.t1 Examples.S1
           (Usage.mk 1000 1000 0 50000
              [("key1", Usage.mkApiData
                  [("gemini-2.5-flash",
                    Usage.mkModelData 1000 50000 [Examples.det 40000 10000])])])
           Store.empty).
  - exact builtin_prices_nonneg.
  - repeat constructor; vm_compute; discriminate.
Defined.

Lemma NoDup_get {V} (k : string) (v : V) (d : Dict.t V) :
  NoDup (Dict.keys d) -> In (k, v) d -> Dict.get k d = Some v.
Proof.
  unfold Dict.keys. induction d as [|[k' v'] d IH]; intros Hnd Hin; [destruct Hin|].
  inversion Hnd as [|? ? Hnotin Hnd']; subst. cbn [Dict.get].
  destruct Hin as [E|Hin].
  - injection E as -> ->. now rewrite String.eqb_refl.
  - destruct (String.eqb k k') eqn:E; [|now apply IH].
    apply String.eqb_eq in E. subst k'. exfalso. apply Hnotin.
    change k with (fst (k, v)). now apply in_map.
Qed.

Lemma delta_of_maps_self (m : Dict.t RateLimiter.Counters) :
  NoDup (Dict.keys m) -> RateLimiter.delta_of_maps m m = RateLimiter.zero.
Proof.
  intro Hnd. unfold RateLimiter.delta_of_maps.
  match goal with
  | |- fold_left ?F m RateLimiter.zero = _ => set (f := F)
  end.
  assert (H : forall l acc,
             (forall kv, In kv l -> In kv m) -> fold_left f l acc = acc).
  { induction l as [|[k v] l IH]; intros acc Hl; [reflexivity|].
    cbn [fold_left]. rewrite IH by (intros kv Hkv; apply Hl; now right).
    subst f. cbn [fst snd]. unfold Dict.get_default.
    rewrite (NoDup_get k v m Hnd) by (apply Hl; now left).
    rewrite !Z.sub_diag. cbn [Z.max Z.compare]. rewrite !Z.add_0_r.
    now destruct acc. }
  apply H. auto.
Qed.

Lemma constant_times (l : list Z) (t since : Z) :
  l <> [] -> (forall x, In x l -> x = t) -> since <= t ->
  RateLimiter.newest l = Some t /\
  RateLimiter.oldest (filter (fun x => since <=? x) l) = Some t /\
  RateLimiter.newest (filter (fun x => x <? since) l) = None.
Proof.
  intros Hne Hall Hs.
  assert (Hkeep : filter (fun x => since <=? x) l = l).
  { clear Hne. induction l as [|x l IH]; [reflexivity|]. cbn [filter].
    pose proof (Hall x (or_introl eq_refl)) as Hx.
    assert (E : (since <=? x) = true) by (apply Z.leb_le; lia).
    rewrite E. f_equal.
    apply IH. intros y Hy. apply Hall. now right. }
  assert (Hdrop : filter (fun x => x <? since) l = []).
  { clear Hne Hkeep. induction l as [|x l IH]; [reflexivity|]. cbn [filter].
    pose proof (Hall x (or_introl eq_refl)) as Hx.
    assert (E : (x <? since) = false) by (apply Z.ltb_ge; lia).
    rewrite E. apply IH. intros y Hy. apply Hall. now right. }
  rewrite Hkeep, Hdrop.
  destruct l as [|x r]; [congruence|].
  split; [|split; [|reflexivity]].
  - pose proof (fold_max_in r x) as H. apply Hall in H.
    cbn [RateLimiter.newest]. now rewrite H.
  - pose proof (fold_min_in r x) as H. apply Hall in H.
    cbn [RateLimiter.oldest]. now rewrite H.
Qed.

(** When the rows that match a pattern all carry one timestamp inside the
    window and nothing precedes it, the usage is zero: with no baseline the
    first snapshot serves as its own baseline, so what was used before it is
    not counted. *)
Theorem X_first_snapshot_counts_nothing :
  forall ilike rows model_pattern since t first,
    In first rows ->
    ilike model_pattern (ModelUsage.model_name first) = true ->
    (forall r, In r rows -> ilike model_pattern (ModelUsage.model_name r) = true ->
               ModelUsage.created_at r = t) ->
    since <= t ->
    RateLimiter._calculate_usage ilike rows model_pattern since = RateLimiter.zero.
Proof.
  intros ilike rows pattern since t first Hin Hm Hall Hs.
  set (times := map ModelUsage.created_at (RateLimiter.matching ilike pattern rows)).
  destruct (constant_times times t since) as (E1 & E2 & E3).
  - intro E. assert (Hf : In (ModelUsage.created_at first) times).
    { apply in_map. apply filter_In. now split. }
    rewrite E in Hf. destruct Hf.
  - intros x Hx. apply in_map_iff in Hx. destruct Hx as (r & <- & Hr).
    apply filter_In in Hr. destruct Hr as [Hr1 Hr2]. now apply Hall.
  - exact Hs.
  - unfold RateLimiter._calculate_usage. fold times. rewrite E1.
    assert (E : (t <? since) = false) by now apply Z.ltb_ge.
    rewrite E, E2, E3.
    unfold RateLimiter._calculate_delta_from_snapshots.
    apply delta_of_maps_self.
    unfold RateLimiter._build_snapshot_map.
    match goal with
    | |- NoDup (Dict.keys (fold_left _ ?sel Dict.empty)) =>
        destruct (build_snapshot_map_fold sel Dict.empty) as (H & _)
    end; [constructor|exact H].
Qed.

Lemma X_first_snapshot_witness :
  RateLimiter._calculate_usage Time.ilike
    [Examples.usage_row Examples.eight 100 1] "gemini"
    (Examples.eight - RateLimiter.usec_per_minute) = RateLimiter.zero.
Proof.
  apply (X_first_snapshot_counts_nothing Time.ilike
           [Examples.usage_row Examples.eight 100 1] "gemini"
           (Examples.eight - RateLimiter.usec_per_minute) Examples.eight
           (Examples.usage_row Examples.eight 100 1)).
  - now left.
  - reflexivity.
  - intros r [<-|[]] _. reflexivity.
  - vm_compute. discriminate.
Defined.

Lemma X_store_appends_witness :
  Collector.find_daily 0
    (Store.daily_stats
       (snd (Collector.store_usage_data 7 [] Examples.t2 Examples.S2 Examples.after_S1)))
  = Collector.find_daily 0 (Store.daily_stats Examples.after_S1).
Proof.
  destruct (X_store_appends_and_writes_today_only 7 [] Examples.t2 Examples.S2
              Examples.after_S1) as (_ & _ & H & _).
  apply H. vm_compute. discriminate.
Defined.

Lemma X_snapshot_map_witness :
  In "gemini-2.5-pro"
     (map ModelUsage.model_name
        (filter (fun r => ModelUsage.created_at r =? Examples.eight)
           (RateLimiter.matching Time.ilike "gemini" Examples.rolling_rows))).
Proof.
  destruct (X_snapshot_map_conserves_counters Time.ilike Examples.rolling_rows
              "gemini" Examples.eight) as (_ & H & _).
  apply H. vm_compute. now left.
Defined.

Lemma X_one_record_per_api_key_witness :
  In "key2"
     (map ApiKeyStat.api_key_name
        (snd (CredentialStatsSync.aggregate_stats Examples.mixed Examples.catalog))).
Proof.
  destruct (X_one_record_per_api_key Examples.mixed Examples.catalog) as (_ & H).
  apply H. vm_compute. right. now left.
Defined.
